(** * pdf-converter-archiver: the catalog (model.py) and the export pipeline

    A shallow embedding of [src/model.py] and of the export path of
    [src/controller.py].  Python methods that mutate [self] or the file
    system become computations of a small state/exception/trace monad;
    the trace records every interaction with the user interface. *)

From Stdlib Require Import ZArith String Ascii List Lia.
From stdpp Require Import base decidable option list sets gmap strings pretty.

Set Warnings "-clear-no-such-hyp".

Local Open Scope Z_scope.
Local Open Scope string_scope.

(** ** Effects *)

(** The exception classes the program distinguishes.  The controller has
    one handler for [CalledProcessError] and one for every other
    [Exception]. *)
Inductive exn : Type :=
  | ValueError
  | KeyError
  | OSError
  | FileNotFoundError
  | CalledProcessError.

(** Calls that leave the model: the confirmation callback handed to
    [add_file] and the methods of the view and of [messagebox]. *)
Inductive event : Type :=
  | AskConfirm (file_full_name : string)
  | UpdateStatus (total_count : Z) (export_status_text : string)
  | SetControlStates (enabled : bool)
  | ClearTreeview
  | ShowInfo (title message : string)
  | ShowError (title : string) (e : exn).

(** How a call ends: with a value, with an exception, or not at all (a
    [while] loop that never exits). *)
Inductive result (A : Type) : Type :=
  | Return (a : A)
  | Raise (e : exn)
  | Diverge.
Arguments Return {A} a.
Arguments Raise {A} e.
Arguments Diverge {A}.

Record run (S A : Type) : Type := Run {
  outcome : result A;
  final : S;
  trace : list event
}.
Arguments Run {S A} outcome final trace.
Arguments outcome {S A} r.
Arguments final {S A} r.
Arguments trace {S A} r.

Definition Eff (S A : Type) : Type := S -> run S A.

Module EffMonad.

Definition ret {S A} (a : A) : Eff S A := fun s => Run (Return a) s [].

Definition raise {S A} (e : exn) : Eff S A := fun s => Run (Raise e) s [].

Definition bind {S A B} (m : Eff S A) (k : A -> Eff S B) : Eff S B :=
  fun s =>
    let r := m s in
    match outcome r with
    | Return a =>
        let r' := k a (final r) in
        Run (outcome r') (final r') (trace r ++ trace r')
    | Raise e => Run (Raise e) (final r) (trace r)
    | Diverge => Run Diverge (final r) (trace r)
    end.

Definition diverge {S A} : Eff S A := fun s => Run Diverge s [].

Definition get {S} : Eff S S := fun s => Run (Return s) s [].

Definition modify {S} (f : S -> S) : Eff S unit := fun s => Run (Return tt) (f s) [].

Definition emit {S} (e : event) : Eff S unit := fun s => Run (Return tt) s [e].

(** [try: body finally: cleanup].  The cleanup runs on both exits; an
    exception of the cleanup replaces the one of the body. *)
Definition try_finally {S A} (body : Eff S A) (cleanup : Eff S unit) : Eff S A :=
  fun s =>
    let r := body s in
    match outcome r with
    | Diverge => r
    | _ =>
        let c := cleanup (final r) in
        match outcome c with
        | Return _ => Run (outcome r) (final c) (trace r ++ trace c)
        | Raise e => Run (Raise e) (final c) (trace r ++ trace c)
        | Diverge => Run Diverge (final c) (trace r ++ trace c)
        end
    end.

(** [try: body except ...: handler]. *)
Definition try_except {S A} (body : Eff S A) (handler : exn -> Eff S A) : Eff S A :=
  fun s =>
    let r := body s in
    match outcome r with
    | Return _ | Diverge => r
    | Raise e =>
        let h := handler e (final r) in
        Run (outcome h) (final h) (trace r ++ trace h)
    end.

(** Run a computation on a component of a larger state. *)
Definition zoom {S T A} (proj : T -> S) (upd : S -> T -> T) (m : Eff S A) : Eff T A :=
  fun t =>
    let r := m (proj t) in
    Run (outcome r) (upd (final r) t) (trace r).

End EffMonad.
Import EffMonad.

Notation "'let*' x := m 'in' k" := (bind m (fun x => k))
  (at level 10, x name, m at level 100, k at level 200, only parsing).
Notation "m >> k" := (bind m (fun _ => k))
  (at level 100, k at level 200, right associativity, only parsing).

(** ** Python dictionaries

    A [dict] keeps its keys in insertion order, and [export] iterates
    over one, so a dictionary is an association list; assigning to a
    key that is present overwrites the value where it stands. *)
Module PyDict.
Section dict.
Context {K V : Type} `{EqDecision K}.

Fixpoint get (k : K) (d : list (K * V)) : option V :=
  match d with
  | [] => None
  | (k', v) :: d' => if decide (k = k') then Some v else get k d'
  end.

Fixpoint set (k : K) (v : V) (d : list (K * V)) : list (K * V) :=
  match d with
  | [] => [(k, v)]
  | (k', v') :: d' =>
      if decide (k = k') then (k, v) :: d' else (k', v') :: set k v d'
  end.

Definition keys (d : list (K * V)) : list K := d.*1.
Definition values (d : list (K * V)) : list V := d.*2.
Definition items (d : list (K * V)) : list (K * V) := d.
Definition len (d : list (K * V)) : Z := Z.of_nat (length d).
Definition clear (d : list (K * V)) : list (K * V) := [].
End dict.
End PyDict.

(** ** The catalog: [class Model] *)

(** [FileElement = Tuple[int, str, str]]: id, editable stem, extension. *)
Definition FileElement : Type := Z * string * string.

Definition elem_id (e : FileElement) : Z := e.1.1.
Definition elem_stem (e : FileElement) : string := e.1.2.
Definition elem_ext (e : FileElement) : string := e.2.

Record Model : Type := mkModel {
  file_path_dict : list (Z * string);
  file_element_dict : list (Z * FileElement);
  unique_file_names : gset string;
  counter : Z
}.

(** [Model.__init__] *)
Definition Model_init : Model :=
  {| file_path_dict := []; file_element_dict := [];
     unique_file_names := ∅; counter := 1 |}.

Definition set_file_path_dict (f : list (Z * string) -> list (Z * string)) (m : Model) : Model :=
  {| file_path_dict := f (file_path_dict m); file_element_dict := file_element_dict m;
     unique_file_names := unique_file_names m; counter := counter m |}.
Definition set_file_element_dict (f : list (Z * FileElement) -> list (Z * FileElement)) (m : Model) : Model :=
  {| file_path_dict := file_path_dict m; file_element_dict := f (file_element_dict m);
     unique_file_names := unique_file_names m; counter := counter m |}.
Definition set_unique_file_names (f : gset string -> gset string) (m : Model) : Model :=
  {| file_path_dict := file_path_dict m; file_element_dict := file_element_dict m;
     unique_file_names := f (unique_file_names m); counter := counter m |}.
Definition set_counter (f : Z -> Z) (m : Model) : Model :=
  {| file_path_dict := file_path_dict m; file_element_dict := file_element_dict m;
     unique_file_names := unique_file_names m; counter := f (counter m) |}.

(** Calling the callback [ask_confirm_func]: the call is recorded in the
    trace, the answer is the callback's. *)
Definition call_confirm {S} (ask_confirm_func : string -> bool) (file_full_name : string) : Eff S bool :=
  emit (AskConfirm file_full_name) >> ret (ask_confirm_func file_full_name).

(** [Model.add_file] *)
Definition add_file (absolute_path file_stem file_suffix : string)
    (ask_confirm_func : string -> bool) : Eff Model (option FileElement) :=
  let* self := get in
  if bool_decide (absolute_path ∈ PyDict.values (file_path_dict self)) then ret None
  else
    let file_full_name := file_stem +:+ file_suffix in
    let* confirmed :=
      (if bool_decide (file_full_name ∈ unique_file_names self)
       then call_confirm ask_confirm_func file_full_name
       else ret true) in
    if negb confirmed then ret None
    else
      let current_id := counter self in
      modify (set_file_path_dict (PyDict.set current_id absolute_path)) >>
      let file_element : FileElement := (current_id, file_stem, file_suffix) in
      modify (set_file_element_dict (PyDict.set current_id file_element)) >>
      modify (set_unique_file_names (fun names => names ∪ {[file_full_name]})) >>
      modify (set_counter (fun c => c + 1)) >>
      ret (Some file_element).

Section Catalog.

(** Python's built-in [int] applied to a string: [None] stands for the
    [ValueError] of a string that is not a numeral. *)
Variable py_int : string -> option Z.

(** [Model.update_file_stem] *)
Definition update_file_stem (file_id new_stem : string) : Eff Model (option FileElement) :=
  let* self := get in
  match py_int file_id with
  | None => raise ValueError
  | Some file_id_int =>
      match PyDict.get file_id_int (file_element_dict self) with
      | None => raise KeyError
      | Some current_values =>
          let old_stem := elem_stem current_values in
          let extension := elem_ext current_values in
          let old_full_name := old_stem +:+ extension in
          let new_full_name := new_stem +:+ extension in
          if bool_decide (new_full_name ≠ old_full_name)
             && bool_decide (new_full_name ∈ unique_file_names self)
          then ret None
          else
            (if bool_decide (old_full_name ∈ unique_file_names self)
             then modify (set_unique_file_names (fun names => names ∖ {[old_full_name]}))
             else ret tt) >>
            modify (set_unique_file_names (fun names => names ∪ {[new_full_name]})) >>
            let current_values' : FileElement := (elem_id current_values, new_stem, extension) in
            modify (set_file_element_dict (PyDict.set file_id_int current_values')) >>
            ret (Some current_values')
      end
  end.

End Catalog.

(** [Model.get_file_count] *)
Definition get_file_count (self : Model) : Z := PyDict.len (file_path_dict self).

(** [Model.reset] *)
Definition reset : Eff Model unit :=
  modify (set_file_path_dict PyDict.clear) >>
  modify (set_file_element_dict PyDict.clear) >>
  modify (set_unique_file_names (fun _ => ∅)) >>
  modify (set_counter (fun _ => 1)).

(** A run of the catalog: the operations a user can trigger, in order.
    An operation that raises leaves the model as it was when the
    exception left the method. *)
Inductive op : Type :=
  | AddFile (absolute_path file_stem file_suffix : string) (ask_confirm_func : string -> bool)
  | UpdateFileStem (file_id new_stem : string)
  | Reset.

Definition apply_op (py_int : string -> option Z) (o : op) (self : Model) : Model :=
  match o with
  | AddFile absolute_path file_stem file_suffix ask_confirm_func =>
      final (add_file absolute_path file_stem file_suffix ask_confirm_func self)
  | UpdateFileStem file_id new_stem =>
      final (update_file_stem py_int file_id new_stem self)
  | Reset => final (reset self)
  end.

Definition run_ops (py_int : string -> option Z) (ops : list op) (self : Model) : Model :=
  fold_left (fun m o => apply_op py_int o m) ops self.

(** The callback of an operation never admits a duplicate name. *)
Definition never_admits (o : op) : Prop :=
  match o with
  | AddFile _ _ _ ask_confirm_func => forall name, ask_confirm_func name = false
  | _ => True
  end.

(** The full display name of an entry. *)
Definition full_name (e : FileElement) : string := elem_stem e +:+ elem_ext e.

(** A reader of the decimal numerals that [str] prints for an id, used
    where a concrete [int] is needed. *)
Fixpoint digits_value (acc : Z) (s : string) : option Z :=
  match s with
  | EmptyString => Some acc
  | String c s' =>
      let n := Z.of_N (N_of_ascii c) in
      if ((48 <=? n) && (n <=? 57))%Z then digits_value (10 * acc + (n - 48))%Z s' else None
  end.

Definition int_decimal (s : string) : option Z :=
  match s with
  | EmptyString => None
  | _ => digits_value 0 s
  end.

(** ** Paths: [pathlib.PurePosixPath]

    A path is its root and its components, as [pathlib] parses it:
    empty components and [.] are dropped, [..] is kept.  Suffix and
    stem follow the last dot of the final component, a leading or a
    trailing dot not counting. *)
Module PurePath.

Record t : Type := mk { root : string; parts : list string }.

#[global] Instance eq_dec : EqDecision t.
Proof. solve_decision. Defined.

#[global] Program Instance countable : Countable t :=
  inj_countable' (fun p => (root p, parts p)) (fun rp => mk rp.1 rp.2) _.
Next Obligation. by intros []. Qed.

(** [s.split('/')] *)
Fixpoint split (s : string) : list string :=
  match s with
  | EmptyString => [EmptyString]
  | String c s' =>
      if Ascii.eqb c "/" then EmptyString :: split s'
      else match split s' with
           | h :: tl => String c h :: tl
           | [] => [String c EmptyString]
           end
  end.

Definition kept (x : string) : bool :=
  negb (String.eqb x "") && negb (String.eqb x ".").

(** [s.startswith('/')] *)
Definition is_absolute (s : string) : bool :=
  match s with
  | String c _ => Ascii.eqb c "/"
  | EmptyString => false
  end.

(** [s[1:]] *)
Definition behead (s : string) : string :=
  match s with
  | String _ s' => s'
  | EmptyString => EmptyString
  end.

(** The root found by [posixpath.splitroot]: exactly two leading
    separators are kept as [//], any other number is [/]. *)
Definition splitroot (s : string) : string :=
  if negb (is_absolute s) then ""
  else if negb (is_absolute (behead s)) || is_absolute (behead (behead s)) then "/"
  else "//".

(** [PurePosixPath(s)] *)
Definition of_str (s : string) : t := mk (splitroot s) (List.filter kept (split s)).

Fixpoint join_sep (l : list string) : string :=
  match l with
  | [] => ""
  | [x] => x
  | x :: l' => x +:+ "/" +:+ join_sep l'
  end.

(** [str(p)] *)
Definition str (p : t) : string :=
  match root p, parts p with
  | EmptyString, [] => "."
  | r, ps => r +:+ join_sep ps
  end.

(** [p / key]: an absolute right operand replaces the left one. *)
Definition joinpath (p : t) (key : string) : t :=
  if is_absolute key then of_str key
  else mk (root p) (parts p ++ List.filter kept (split key)).

(** [p.name] *)
Definition name (p : t) : string := List.last (parts p) "".

(** [p.parent] *)
Definition parent (p : t) : t := mk (root p) (removelast (parts p)).

(** [s.rfind('.')] *)
Fixpoint rfind_dot (s : string) : option nat :=
  match s with
  | EmptyString => None
  | String c s' =>
      match rfind_dot s' with
      | Some i => Some (S i)
      | None => if Ascii.eqb c "." then Some O else None
      end
  end.

(** The position that splits a name into stem and suffix, if any:
    [0 < i < len(name) - 1]. *)
Definition suffix_index (nm : string) : option nat :=
  match rfind_dot nm with
  | Some i => if (0 <? i)%nat && (i <? String.length nm - 1)%nat then Some i else None
  | None => None
  end.

(** [p.suffix] *)
Definition suffix (p : t) : string :=
  let nm := name p in
  match suffix_index nm with
  | Some i => String.substring i (String.length nm - i) nm
  | None => ""
  end.

(** [p.stem] *)
Definition stem (p : t) : string :=
  let nm := name p in
  match suffix_index nm with
  | Some i => String.substring 0 i nm
  | None => nm
  end.

Fixpoint contains_sep (s : string) : bool :=
  match s with
  | EmptyString => false
  | String c s' => Ascii.eqb c "/" || contains_sep s'
  end.

(** [p.with_suffix(suffix)]; [None] is its [ValueError]. *)
Definition with_suffix (p : t) (sfx : string) : option t :=
  if contains_sep sfx then None
  else if (negb (String.eqb sfx "") && negb (String.prefix "." sfx)) || String.eqb sfx "." then None
  else
    let nm := name p in
    if String.eqb nm "" then None
    else
      let old_suffix := suffix p in
      let nm' :=
        if String.eqb old_suffix "" then nm +:+ sfx
        else String.substring 0 (String.length nm - String.length old_suffix) nm +:+ sfx in
      Some (mk (root p) (removelast (parts p) ++ [nm'])).

End PurePath.

Notation "p </> key" := (PurePath.joinpath p key) (at level 40, left associativity).

(** ** The file system

    The program reaches the file system through [pathlib], [os] and
    [shutil]; this section models the calls it makes, after their
    documentation.  Files and directories are keyed by their parsed
    path; paths are compared component by component ([..] and symbolic
    links are not resolved, a relative path is not made absolute).  The
    path without components (the root, or the current directory) always
    exists.  A file holds the bytes it was imported with, the conversion
    of another content, or an archive with its members. *)
#[warnings="-register-all"] Inductive content : Type :=
  | Bytes (data : string)
  | Pdf (source : content)
  | Zip (members : gmap (list string) content) (folders : gset (list string)).

Record FS : Type := mkFS {
  files : gmap PurePath.t content;
  dirs : gset PurePath.t
}.

Module OS.

Definition is_file (fs : FS) (p : PurePath.t) : bool :=
  bool_decide (is_Some (files fs !! p)).

Definition is_dir (fs : FS) (p : PurePath.t) : bool :=
  bool_decide (p ∈ dirs fs) || bool_decide (PurePath.parts p = []).

(** [os.path.exists], [Path.exists] *)
Definition exists_ (fs : FS) (p : PurePath.t) : bool := is_file fs p || is_dir fs p.

(** [d] is [p] or an ancestor of [p]. *)
Definition under (d p : PurePath.t) : Prop :=
  PurePath.root d = PurePath.root p /\ PurePath.parts d `prefix_of` PurePath.parts p.

#[global] Instance under_dec d p : Decision (under d p).
Proof. unfold under. apply _. Defined.

Definition write_file (p : PurePath.t) (c : content) (fs : FS) : FS :=
  {| files := <[p := c]> (files fs); dirs := dirs fs |}.
Definition delete_file (p : PurePath.t) (fs : FS) : FS :=
  {| files := delete p (files fs); dirs := dirs fs |}.
Definition add_dir (p : PurePath.t) (fs : FS) : FS :=
  {| files := files fs; dirs := dirs fs ∪ {[p]} |}.
Definition delete_tree (d : PurePath.t) (fs : FS) : FS :=
  {| files := filter (fun kv => ¬ under d kv.1) (files fs);
     dirs := filter (fun p => ¬ under d p) (dirs fs) |}.

Definition path_exists (p : PurePath.t) : Eff FS bool :=
  let* fs := get in ret (exists_ fs p).

(** [os.mkdir] *)
Definition mkdir (p : PurePath.t) : Eff FS unit :=
  let* fs := get in
  if exists_ fs p then raise OSError
  else if is_dir fs (PurePath.parent p) then modify (add_dir p)
  else if exists_ fs (PurePath.parent p) then raise OSError
  else raise FileNotFoundError.

(** [Path.mkdir(parents=False, exist_ok=True)] *)
Definition Path_mkdir_exist_ok (p : PurePath.t) : Eff FS unit :=
  try_except (mkdir p)
    (fun e =>
       match e with
       | OSError => let* fs := get in if is_dir fs p then ret tt else raise e
       | _ => raise e
       end).

(** [Path.mkdir(parents=True, exist_ok=True)]: the recursion on
    [self.parent] is a recursion on the components, last one first. *)
Fixpoint Path_mkdir_rev (r : string) (rparts : list string) : Eff FS unit :=
  let p := PurePath.mk r (rev rparts) in
  try_except (mkdir p)
    (fun e =>
       match e with
       | FileNotFoundError =>
           match rparts with
           | [] => raise e
           | _ :: up => Path_mkdir_rev r up >> Path_mkdir_exist_ok p
           end
       | OSError => let* fs := get in if is_dir fs p then ret tt else raise e
       | _ => raise e
       end).

Definition Path_mkdir_parents (p : PurePath.t) : Eff FS unit :=
  Path_mkdir_rev (PurePath.root p) (rev (PurePath.parts p)).

(** [shutil.copy(src, dst)] *)
Definition shutil_copy (src dst : PurePath.t) : Eff FS unit :=
  let* fs := get in
  let dst := if is_dir fs dst then dst </> PurePath.name src else dst in
  match files fs !! src with
  | None => if is_dir fs src then raise OSError else raise FileNotFoundError
  | Some c =>
      if bool_decide (src = dst) then raise OSError
      else if is_dir fs dst then raise OSError
      else if is_dir fs (PurePath.parent dst) then modify (write_file dst c)
      else if exists_ fs (PurePath.parent dst) then raise OSError
      else raise FileNotFoundError
  end.

(** [Path.rename(target)] for a regular file.  Renaming a directory is
    outside this model and is reported as an error. *)
Definition Path_rename (src dst : PurePath.t) : Eff FS unit :=
  let* fs := get in
  match files fs !! src with
  | None => if is_dir fs src then raise OSError else raise FileNotFoundError
  | Some c =>
      if bool_decide (src = dst) then ret tt
      else if is_dir fs dst then raise OSError
      else if is_dir fs (PurePath.parent dst) then
        modify (delete_file src) >> modify (write_file dst c)
      else if exists_ fs (PurePath.parent dst) then raise OSError
      else raise FileNotFoundError
  end.

(** [os.remove] *)
Definition remove (p : PurePath.t) : Eff FS unit :=
  let* fs := get in
  if is_file fs p then modify (delete_file p)
  else if is_dir fs p then raise OSError
  else raise FileNotFoundError.

(** [shutil.rmtree] *)
Definition shutil_rmtree (d : PurePath.t) : Eff FS unit :=
  let* fs := get in
  if bool_decide (d ∈ dirs fs) then modify (delete_tree d)
  else if exists_ fs d then raise OSError
  else raise FileNotFoundError.

(** The position of [p] below [d], when it is strictly below. *)
Definition relative_to (d p : PurePath.t) : option (list string) :=
  if bool_decide (under d p) && bool_decide (PurePath.parts p ≠ PurePath.parts d)
  then Some (drop (length (PurePath.parts d)) (PurePath.parts p))
  else None.

Definition archive_members (d : PurePath.t) (fs : FS) : gmap (list string) content :=
  list_to_map (omap (fun kv : PurePath.t * content =>
                       (fun r => (r, kv.2)) <$> relative_to d kv.1)
                    (map_to_list (files fs))).

Definition archive_folders (d : PurePath.t) (fs : FS) : gset (list string) :=
  list_to_set (omap (relative_to d) (elements (dirs fs))).

(** [shutil.make_archive(base_name, 'zip', root_dir=root_dir)]: the
    archive is created at [base_name + ".zip"], its directory being
    created when missing, and what is found below [root_dir] is then
    added, named relative to [root_dir].  Nothing is found below a
    [root_dir] that is not a directory, and the archive is empty; an
    archive that lies below [root_dir] is found there too and is a member
    of itself, taken here as it was created. *)
Definition shutil_make_archive (base_name : string) (root_dir : string) : Eff FS string :=
  let zip_filename := base_name +:+ ".zip" in
  let archive := PurePath.of_str zip_filename in
  let archive_dir := PurePath.parent (PurePath.of_str base_name) in
  let source := PurePath.of_str root_dir in
  let* fs := get in
  (if negb (exists_ fs archive_dir) then Path_mkdir_parents archive_dir else ret tt) >>
  let* fs := get in
  if is_dir fs archive then raise OSError
  else if is_dir fs (PurePath.parent archive) then
    let created := write_file archive (Zip ∅ ∅) fs in
    modify (write_file archive
              (Zip (archive_members source created) (archive_folders source created))) >>
    ret zip_filename
  else if exists_ fs (PurePath.parent archive) then raise OSError
  else raise FileNotFoundError.

End OS.

(** ** The export pipeline: [Model.export], [Model.create_zip_archive] *)

(** How a run of the external converter ends, when it does:
    [subprocess.run] is given no timeout, and waits for a converter that
    hangs. *)
Inductive soffice_exit : Type :=
  | Exit0
  | ExitNonZero
  | NotLaunched
  | Hangs.

(** [for x in xs: body(x)] *)
Fixpoint for_each {S A} (xs : list A) (body : A -> Eff S unit) : Eff S unit :=
  match xs with
  | [] => ret tt
  | x :: xs' => body x >> for_each xs' body
  end.

Section Pipeline.

(** The converter is outside the program: its exit status on a staged
    input is a parameter. *)
Variable soffice : FS -> PurePath.t -> soffice_exit.

(** Modelled from the spec: the external converter [soffice --headless
    --convert-to pdf --outdir outdir input], which is not part of the
    repository.  On success it produces [<inputStem>.pdf] in [outdir];
    it signals failure by a non-zero exit status, which
    [subprocess.run(check=True)] turns into [CalledProcessError].  A
    converter that hangs blocks the call for ever. *)
Definition subprocess_run_soffice (outdir input : string) : Eff FS unit :=
  let* fs := get in
  let input_path := PurePath.of_str input in
  match soffice fs input_path with
  | NotLaunched => raise FileNotFoundError
  | ExitNonZero => raise CalledProcessError
  | Hangs => diverge
  | Exit0 =>
      match files fs !! input_path with
      | Some c =>
          modify (OS.write_file
                    (PurePath.of_str outdir </> (PurePath.stem input_path +:+ ".pdf"))
                    (Pdf c))
      | None => ret tt
      end
  end.

(** The [while pdf_new_path.exists()] loop of [export].  [fuel] bounds
    the number of iterations. *)
Fixpoint while_exists (fuel : nat) (temp_outdir : PurePath.t) (final_name_base : string)
    (pdf_new_path : PurePath.t) (counter : Z) : Eff FS PurePath.t :=
  let* occupied := OS.path_exists pdf_new_path in
  if occupied then
    match fuel return Eff FS PurePath.t with
    | O => diverge
    | S fuel' =>
        while_exists fuel' temp_outdir final_name_base
          (temp_outdir </> (final_name_base +:+ "_" +:+ pretty counter +:+ ".pdf"))
          (counter + 1)
    end
  else ret pdf_new_path.

(** More iterations than the file system has entries are never needed. *)
Definition enough_fuel (fs : FS) : nat := S (size (files fs) + size (dirs fs)).

(** The body of the [for] loop of [export]. *)
Definition export_entry (self : Model) (temp_outdir : PurePath.t)
    (item : Z * string) : Eff FS unit :=
  let '(file_id, original_path) := item in
  match PyDict.get file_id (file_element_dict self) with
  | None => raise KeyError
  | Some file_elements =>
      let new_pdf_name_stem := elem_stem file_elements in
      let original_file_path := PurePath.of_str original_path in
      let temp_unique_original_name :=
        pretty file_id +:+ "_" +:+ PurePath.name original_file_path in
      let temp_unique_original_path := temp_outdir </> temp_unique_original_name in
      OS.shutil_copy original_file_path temp_unique_original_path >>
      let generated_pdf_name := PurePath.stem temp_unique_original_path +:+ ".pdf" in
      let pdf_original_path := temp_outdir </> generated_pdf_name in
      try_finally
        (try_except
           (subprocess_run_soffice (PurePath.str temp_outdir)
              (PurePath.str temp_unique_original_path) >>
            let pdf_new_path := temp_outdir </> (new_pdf_name_stem +:+ ".pdf") in
            let counter := 1 in
            let final_name_base := new_pdf_name_stem in
            let* fs := get in
            let* pdf_new_path := while_exists (enough_fuel fs) temp_outdir final_name_base
                              pdf_new_path counter in
            let* generated := OS.path_exists pdf_original_path in
            if generated then OS.Path_rename pdf_original_path pdf_new_path else ret tt)
           (fun e => raise e))
        (let* staged := OS.path_exists temp_unique_original_path in
         if staged then OS.remove temp_unique_original_path else ret tt)
  end.

(** [Model.export] *)
Definition export (self : Model) (temp_outdir : PurePath.t) : Eff FS unit :=
  OS.Path_mkdir_parents temp_outdir >>
  for_each (PyDict.items (file_path_dict self)) (export_entry self temp_outdir).

(** [Model.create_zip_archive] *)
Definition create_zip_archive (source_dir : PurePath.t) (dest_dir zip_name : string)
    : Eff FS string :=
  let zip_path := PurePath.of_str dest_dir </> zip_name in
  OS.shutil_make_archive (PurePath.str zip_path) (PurePath.str source_dir) >>
  match PurePath.with_suffix zip_path ".zip" with
  | Some p => ret (PurePath.str p)
  | None => raise ValueError
  end.

(** ** The controller: [Controller._run_export_in_thread] *)

Record World : Type := mkWorld {
  model : Model;
  fs : FS
}.

Definition on_model {A} (m : Eff Model A) : Eff World A :=
  zoom model (fun m' w => {| model := m'; fs := fs w |}) m.
Definition on_fs {A} (m : Eff FS A) : Eff World A :=
  zoom fs (fun fs' w => {| model := model w; fs := fs' |}) m.

(** [View.update_status(self.model.get_file_count(), text)] *)
Definition update_status_count (text : string) : Eff World unit :=
  let* w := get in emit (UpdateStatus (get_file_count (model w)) text).

(** [Controller.handle_reset] *)
Definition handle_reset : Eff World unit :=
  on_model reset >>
  emit ClearTreeview >>
  emit (UpdateStatus 0 "") >>
  emit (ShowInfo "Réinitialisation" "La liste des fichiers a été réinitialisée.").

(** [Controller._run_export_in_thread].  [cwd] is [Path.cwd()];
    [uuid_a] and [uuid_b] are the [hex] of the two [uuid.uuid4()]
    draws. *)
Definition _run_export_in_thread (cwd : PurePath.t) (uuid_a uuid_b : string)
    (directory : string) : Eff World unit :=
  let temp_dir := cwd </> ("temp_pdf_export_" +:+ uuid_a) in
  try_finally
    (try_except
       (update_status_count "Conversion PDF en cours..." >>
        let* w := get in
        on_fs (export (model w) temp_dir) >>
        update_status_count "Création de l'archive ZIP..." >>
        let zip_filename :=
          "Export_PDFs_" +:+ PurePath.name (PurePath.of_str directory) +:+ "_"
          +:+ String.substring 0 4 uuid_b in
        let* w := get in
        let* zip_file_path := on_fs (create_zip_archive temp_dir directory zip_filename) in
        emit (ShowInfo "Exportation Terminée"
                ("Exportation réussie !" +:+ String (ascii_of_nat 10) "" +:+
                 "Fichier ZIP créé : " +:+ PurePath.name (PurePath.of_str zip_file_path)
                 +:+ String (ascii_of_nat 10) "" +:+ "Dans : " +:+ directory)) >>
        handle_reset)
       (fun e =>
          match e with
          | CalledProcessError => update_status_count "Échec de l'exportation PDF."
          | _ =>
              update_status_count "Échec de l'exportation. Erreur fatale." >>
              emit (ShowError "Erreur Fatale d'Exportation" e)
          end))
    (let* w := get (S := World) in
     (if OS.exists_ (fs w) temp_dir then on_fs (OS.shutil_rmtree temp_dir) else ret tt) >>
     emit (SetControlStates true)).

End Pipeline.

(** ** What the specification says of the catalog *)

(** The three structures are mutually consistent: every entry's full
    display name is in the name set, every entry's source path is
    recorded, and the three cardinalities agree. *)
Definition consistent (m : Model) : Prop :=
  (forall k e, PyDict.get k (file_element_dict m) = Some e ->
               full_name e ∈ unique_file_names m) /\
  (forall k e, PyDict.get k (file_element_dict m) = Some e ->
               exists p, PyDict.get k (file_path_dict m) = Some p /\
                         p ∈ PyDict.values (file_path_dict m)) /\
  length (file_element_dict m) = length (file_path_dict m) /\
  length (file_path_dict m) = size (unique_file_names m).

(** What holds of the three structures whatever the callbacks answer:
    the two dictionaries have the same ids, every path is recorded, and
    every name of the set is the full display name of a live entry. *)
Definition weakly_consistent (m : Model) : Prop :=
  PyDict.keys (file_path_dict m) = PyDict.keys (file_element_dict m) /\
  (forall k e, PyDict.get k (file_element_dict m) = Some e ->
               exists p, PyDict.get k (file_path_dict m) = Some p /\
                         p ∈ PyDict.values (file_path_dict m)) /\
  length (file_element_dict m) = length (file_path_dict m) /\
  (forall n, n ∈ unique_file_names m ->
             exists k e, PyDict.get k (file_element_dict m) = Some e /\ full_name e = n) /\
  (size (unique_file_names m) <= length (file_element_dict m))%nat.

(** The model after a successful [add_file]. *)
Definition added (self : Model) (absolute_path file_stem file_suffix : string) : Model :=
  {| file_path_dict := PyDict.set (counter self) absolute_path (file_path_dict self);
     file_element_dict :=
       PyDict.set (counter self) (counter self, file_stem, file_suffix) (file_element_dict self);
     unique_file_names := unique_file_names self ∪ {[file_stem +:+ file_suffix]};
     counter := counter self + 1 |}.

(** The model after a successful [update_file_stem] of the entry
    [current_values] stored under [file_id_int]. *)
Definition renamed (self : Model) (file_id_int : Z) (current_values : FileElement)
    (new_stem : string) : Model :=
  {| file_path_dict := file_path_dict self;
     file_element_dict :=
       PyDict.set file_id_int (elem_id current_values, new_stem, elem_ext current_values)
         (file_element_dict self);
     unique_file_names :=
       (if bool_decide (full_name current_values ∈ unique_file_names self)
        then unique_file_names self ∖ {[full_name current_values]}
        else unique_file_names self) ∪ {[new_stem +:+ elem_ext current_values]};
     counter := counter self |}.

(** What every reachable catalog satisfies: the dictionaries share their
    ids, no id occurs twice, every id is below the counter, and a name
    of the set is the name of a live entry. *)
Definition catalog_inv (m : Model) : Prop :=
  PyDict.keys (file_path_dict m) = PyDict.keys (file_element_dict m) /\
  NoDup (PyDict.keys (file_element_dict m)) /\
  (forall k, k ∈ PyDict.keys (file_element_dict m) -> k < counter m) /\
  (forall n, n ∈ unique_file_names m ->
             exists k e, PyDict.get k (file_element_dict m) = Some e /\ full_name e = n).

(** What holds in addition while no duplicate name has been admitted:
    live names are in the set, and no two entries share one. *)
Definition names_inv (m : Model) : Prop :=
  (forall k e, PyDict.get k (file_element_dict m) = Some e ->
               full_name e ∈ unique_file_names m) /\
  (forall k1 k2 e1 e2,
      PyDict.get k1 (file_element_dict m) = Some e1 ->
      PyDict.get k2 (file_element_dict m) = Some e2 ->
      full_name e1 = full_name e2 -> k1 = k2).

(** Two concrete runs used below.  In [duplicate_ops] a second
    [report.docx] is admitted by the callback; in [stale_ops] the first
    of the two is then renamed to [draft]. *)
Definition duplicate_ops : list op :=
  [AddFile "/a/report.docx" "report" ".docx" (fun _ => true);
   AddFile "/b/report.docx" "report" ".docx" (fun _ => true)].

Definition stale_ops : list op :=
  (duplicate_ops ++ [UpdateFileStem "1" "draft"])%list.

Definition careful_ops : list op :=
  [AddFile "/a/report.docx" "report" ".docx" (fun _ => false);
   AddFile "/b/report.docx" "report" ".docx" (fun _ => false);
   AddFile "/b/notes.odt" "notes" ".odt" (fun _ => false);
   UpdateFileStem "2" "report";
   UpdateFileStem "2" "minutes";
   UpdateFileStem "7" "ghost"].

(** A working directory after two conversions, used to exercise
    [create_zip_archive] on its own. *)
Definition converted_fs : FS :=
  {| files := {[ PurePath.of_str "/work/tmp/report.pdf" := Pdf (Bytes "A") ]};
     dirs := {[ PurePath.of_str "/work"; PurePath.of_str "/work/tmp";
                PurePath.of_str "/out"; PurePath.of_str "/out/v1.2" ]} |}.

(** ** Vocabulary for the export pipeline *)

(** A relation that holds between the state before and the state after a
    computation, however it ends. *)
Definition keeps {S A} (R : relation S) (m : Eff S A) : Prop :=
  forall s, R s (final (m s)).

(** The exceptions a computation can raise. *)
Definition raises_only {S A} (P : exn -> Prop) (m : Eff S A) : Prop :=
  forall s e, outcome (m s) = Raise e -> P e.

Definition same_dirs : relation FS := fun s s' => dirs s' = dirs s.
Definition os_error (e : exn) : Prop := e = OSError \/ e = FileNotFoundError.
Definition not_conversion_failure (e : exn) : Prop := e <> CalledProcessError.
(** A computation that always returns or raises. *)
Definition terminates {S A} (m : Eff S A) : Prop :=
  forall s, outcome (m s) <> Diverge.

(** Every run of the converter ends. *)
Definition never_hangs (soffice : FS -> PurePath.t -> soffice_exit) : Prop :=
  forall s input, soffice s input <> Hangs.

Definition same_model : relation World := fun w w' => model w' = model w.

(** The base name [_run_export_in_thread] gives to the archive. *)
Definition zip_filename_of (directory uuid_b : string) : string :=
  "Export_PDFs_" +:+ PurePath.name (PurePath.of_str directory) +:+ "_"
  +:+ String.substring 0 4 uuid_b.

(** The path the [while] loop of [export] tries at its iteration
    [counter]. *)
Definition candidate (temp_outdir : PurePath.t) (final_name_base : string) (counter : Z)
    : PurePath.t :=
  temp_outdir </> (final_name_base +:+ "_" +:+ pretty counter +:+ ".pdf").

(** [pdf_new_path] is the first free path among [stem.pdf], [stem_1.pdf],
    [stem_2.pdf], ... in the file system [s]. *)
Definition first_free (s : FS) (temp_outdir : PurePath.t) (final_name_base : string)
    (pdf_new_path : PurePath.t) : Prop :=
  OS.exists_ s pdf_new_path = false /\
  (pdf_new_path = temp_outdir </> (final_name_base +:+ ".pdf") \/
   (OS.exists_ s (temp_outdir </> (final_name_base +:+ ".pdf")) = true /\
    exists k, 1 <= k /\ pdf_new_path = candidate temp_outdir final_name_base k /\
              Forall (fun j => OS.exists_ s (candidate temp_outdir final_name_base j) = true)
                     (seqZ 1 (k - 1)))).

(** ** Two concrete exports *)

Definition always_converts (_ : FS) (_ : PurePath.t) : soffice_exit := Exit0.

(** The converter fails on the staged copy of entry 2. *)
Definition fails_on_second (_ : FS) (input : PurePath.t) : soffice_exit :=
  if String.prefix "2_" (PurePath.name input) then ExitNonZero else Exit0.

Definition uuid_a0 : string := "0123456789abcdef0123456789abcdef".
Definition uuid_b0 : string := "fedcba9876543210fedcba9876543210".

(** Two files named [report.docx], and the catalog of [duplicate_ops]. *)
Definition reports_world : World :=
  {| model := run_ops int_decimal duplicate_ops Model_init;
     fs := {| files := {[ PurePath.of_str "/a/report.docx" := Bytes "A";
                          PurePath.of_str "/b/report.docx" := Bytes "B" ]};
              dirs := {[ PurePath.of_str "/a"; PurePath.of_str "/b";
                         PurePath.of_str "/out"; PurePath.of_str "/work" ]} |} |}.

Definition reports_temp_dir : PurePath.t :=
  PurePath.of_str "/work" </> ("temp_pdf_export_" +:+ uuid_a0).

(** Three files with three names. *)
Definition three_ops : list op :=
  [AddFile "/a/report.docx" "report" ".docx" (fun _ => false);
   AddFile "/b/notes.odt" "notes" ".odt" (fun _ => false);
   AddFile "/c/memo.doc" "memo" ".doc" (fun _ => false)].

Definition three_world : World :=
  {| model := run_ops int_decimal three_ops Model_init;
     fs := {| files := {[ PurePath.of_str "/a/report.docx" := Bytes "A";
                          PurePath.of_str "/b/notes.odt" := Bytes "B";
                          PurePath.of_str "/c/memo.doc" := Bytes "C" ]};
              dirs := {[ PurePath.of_str "/a"; PurePath.of_str "/b"; PurePath.of_str "/c";
                         PurePath.of_str "/out"; PurePath.of_str "/work" ]} |} |}.

(** ** Vocabulary for the properties of the catalog and of the export *)

(** What the ids of a reachable catalog look like: the keys are
    [1, 2, ..., counter - 1] in this order, every entry records its own
    key, and no source path occurs twice. *)
Definition ids_inv (m : Model) : Prop :=
  PyDict.keys (file_element_dict m) = seqZ 1 (counter m - 1) /\
  1 <= counter m /\
  (forall k e, PyDict.get k (file_element_dict m) = Some e -> elem_id e = k) /\
  NoDup (PyDict.values (file_path_dict m)).

(** The files at the paths [P] that exist are still there, with their
    content. *)
Definition keeps_files (P : PurePath.t -> Prop) : relation FS :=
  fun s s' => forall p c, P p -> files s !! p = Some c -> files s' !! p = Some c.

Definition keeps_files_world (P : PurePath.t -> Prop) : relation World :=
  fun w w' => keeps_files P (fs w) (fs w').

(** The events a computation can emit. *)
Definition emits_only {S A} (P : event -> Prop) (m : Eff S A) : Prop :=
  forall s, Forall P (trace (m s)).

(** An event other than a call of [View.set_control_states]. *)
Definition not_control (ev : event) : Prop := forall enabled, ev <> SetControlStates enabled.

(** A property of the state that a computation does not destroy. *)
Definition preserves {S} (I : S -> Prop) : relation S := fun s s' => I s -> I s'.

(** No regular file sits at [p]. *)
Definition no_file_at (p : PurePath.t) (s : FS) : Prop := files s !! p = None.

(** [p] is a directory and no regular file sits there. *)
Definition plain_dir (p : PurePath.t) (s : FS) : Prop :=
  OS.is_dir s p = true /\ files s !! p = None.

(** No directory is removed. *)
Definition dirs_kept : relation FS := fun s s' => dirs s ⊆ dirs s'.

(** No directory is removed, and a new directory is [temp] or one of its
    ancestors. *)
Definition dirs_within (temp : PurePath.t) : relation FS :=
  fun s s' => dirs s ⊆ dirs s' /\ forall d, d ∈ dirs s' -> d ∈ dirs s \/ OS.under d temp.

(** What [export] can raise on a catalog whose dictionaries share their
    ids: an error of the file system, or the failure of a conversion. *)
Definition export_error (e : exn) : Prop :=
  e = OSError \/ e = FileNotFoundError \/ e = CalledProcessError.

(** The converter exits with a non-zero status on an entry that the loop
    of [export], started on [items] in the file system [s], reaches: the
    entries before it have been processed without an exception, the
    entry is in the catalog, its original has been copied into the
    working directory, and the converter, run on this copy in the file
    system the copy has left, exits with a non-zero status. *)
Fixpoint conversion_fails_among (soffice : FS -> PurePath.t -> soffice_exit) (self : Model)
    (temp_outdir : PurePath.t) (items : list (Z * string)) (s : FS) : Prop :=
  match items with
  | [] => False
  | (file_id, original_path) :: rest =>
      let staged :=
        temp_outdir </> (pretty file_id +:+ "_" +:+ PurePath.name (PurePath.of_str original_path)) in
      let copied := OS.shutil_copy (PurePath.of_str original_path) staged s in
      let processed := export_entry soffice self temp_outdir (file_id, original_path) s in
      (is_Some (PyDict.get file_id (file_element_dict self)) /\
       outcome copied = Return tt /\
       soffice (final copied) (PurePath.of_str (PurePath.str staged)) = ExitNonZero)
      \/
      (outcome processed = Return tt /\
       conversion_fails_among soffice self temp_outdir rest (final processed))
  end.

(** The converter exits with a non-zero status on an entry during
    [export]: the working directory has been made, and the loop reaches
    such an entry. *)
Definition conversion_fails (soffice : FS -> PurePath.t -> soffice_exit) (self : Model)
    (temp_outdir : PurePath.t) (s : FS) : Prop :=
  let made := OS.Path_mkdir_parents temp_outdir s in
  outcome made = Return tt /\
  conversion_fails_among soffice self temp_outdir (PyDict.items (file_path_dict self))
    (final made).

(** The converter cannot be launched. *)
Definition not_installed (_ : FS) (_ : PurePath.t) : soffice_exit := NotLaunched.

(** The converter fails on every input. *)
Definition never_converts (_ : FS) (_ : PurePath.t) : soffice_exit := ExitNonZero.

(** The world of [three_world] where the working directory is already
    there, with a directory at the path of the staged copy of entry 1. *)
Definition staged_directory_world : World :=
  {| model := model three_world;
     fs := {| files := files (fs three_world);
              dirs := dirs (fs three_world)
                      ∪ {[ reports_temp_dir; reports_temp_dir </> "1_report.docx" ]} |} |}.

(** ** The view: [class View]

    The widgets the controller reads and writes: the rows of the
    [Treeview] in display order, each with the item identifier the widget
    gave it (the widget numbers its items [I001], [I002], ...: an
    identifier is modelled by its number) and its values; the two status
    labels; and the state of the three buttons ([true] for [tk.NORMAL]). *)
Module View.

Record t : Type := mk {
  tree : list (nat * FileElement);
  inserted : nat;
  number_files_imported : string;
  export_status : string;
  btn_import : bool;
  btn_export : bool;
  btn_reset : bool
}.

(** [View.__init__], [View._create_widgets] *)
Definition init : t :=
  {| tree := []; inserted := 0;
     number_files_imported := "Fichier(s) importé(s) : 0"; export_status := "";
     btn_import := true; btn_export := true; btn_reset := true |}.

(** [View.update_status] *)
Definition update_status (total_count : Z) (export_status_text : string) (self : t) : t :=
  {| tree := tree self; inserted := inserted self;
     number_files_imported := "Fichier(s) importé(s) : " +:+ pretty total_count;
     export_status := export_status_text;
     btn_import := btn_import self; btn_export := btn_export self;
     btn_reset := btn_reset self |}.

(** [View.add_treeview_item]: [tree.insert("", "end", values=values)] *)
Definition add_treeview_item (values : FileElement) (self : t) : t :=
  {| tree := tree self ++ [(S (inserted self), values)]; inserted := S (inserted self);
     number_files_imported := number_files_imported self;
     export_status := export_status self;
     btn_import := btn_import self; btn_export := btn_export self;
     btn_reset := btn_reset self |}.

(** [View.clear_treeview] *)
Definition clear_treeview (self : t) : t :=
  {| tree := []; inserted := inserted self;
     number_files_imported := number_files_imported self;
     export_status := export_status self;
     btn_import := btn_import self; btn_export := btn_export self;
     btn_reset := btn_reset self |}.

(** [tree.item(iid, 'values')]; [None] stands for the [TclError] of an
    item the widget does not hold. *)
Definition item_values (iid : nat) (self : t) : option FileElement :=
  snd <$> List.find (fun row => Nat.eqb (fst row) iid) (tree self).

(** [View.update_treeview_item]: [tree.item(iid, values=new_values)];
    [None] stands for the [TclError] of an item the widget does not
    hold. *)
Definition update_treeview_item (iid : nat) (new_values : FileElement) (self : t) : option t :=
  match item_values iid self with
  | None => None
  | Some _ =>
      Some {| tree := List.map (fun row => if Nat.eqb (fst row) iid then (iid, new_values)
                                           else row) (tree self);
              inserted := inserted self;
              number_files_imported := number_files_imported self;
              export_status := export_status self;
              btn_import := btn_import self; btn_export := btn_export self;
              btn_reset := btn_reset self |}
  end.

(** [View.set_control_states] *)
Definition set_control_states (enabled : bool) (self : t) : t :=
  let state := enabled in
  {| tree := tree self; inserted := inserted self;
     number_files_imported := number_files_imported self;
     export_status := export_status self;
     btn_import := state; btn_export := state; btn_reset := state |}.

(** What a call recorded in a trace does to the view.  The message boxes
    leave it as it is. *)
Definition perform (ev : event) (self : t) : t :=
  match ev with
  | UpdateStatus total_count export_status_text =>
      update_status total_count export_status_text self
  | SetControlStates enabled => set_control_states enabled self
  | ClearTreeview => clear_treeview self
  | AskConfirm _ | ShowInfo _ _ | ShowError _ _ => self
  end.

End View.

(** ** The controller: the handlers of the user's actions *)

(** The message boxes of the handlers that are not among the events. *)
Inductive dialog : Type :=
  | ShowWarning (title message : string)
  | ShowErrorMessage (title message : string).

(** The application: the model and the file system, the view, the
    message boxes shown so far, and the directories of the export threads
    started so far. *)
Record App : Type := mkApp {
  world : World;
  view : View.t;
  dialogs : list dialog;
  threads : list string
}.

(** [Controller.__init__] *)
Definition App_init (fs0 : FS) : App :=
  {| world := {| model := Model_init; fs := fs0 |}; view := View.init;
     dialogs := []; threads := [] |}.

Definition set_view (f : View.t -> View.t) (a : App) : App :=
  {| world := world a; view := f (view a); dialogs := dialogs a; threads := threads a |}.
Definition add_dialog (d : dialog) (a : App) : App :=
  {| world := world a; view := view a; dialogs := dialogs a ++ [d]; threads := threads a |}.
Definition add_thread (directory : string) (a : App) : App :=
  {| world := world a; view := view a; dialogs := dialogs a;
     threads := threads a ++ [directory] |}.

(** A call of the view that has an event: recorded in the trace and
    carried out on the view. *)
Definition view_call (ev : event) : Eff App unit :=
  emit ev >> modify (set_view (View.perform ev)).

(** A computation on the model and the file system, its calls carried
    out on the view in the order of the trace. *)
Definition on_world {A} (m : Eff World A) : Eff App A :=
  fun a =>
    let r := m (world a) in
    Run (outcome r)
        {| world := final r;
           view := fold_left (fun v ev => View.perform ev v) (trace r) (view a);
           dialogs := dialogs a; threads := threads a |}
        (trace r).

(** [Controller.start], up to the main loop *)
Definition start : Eff App unit := view_call (UpdateStatus 0 "Prêt").

(** [Path.absolute()], for the current directory [cwd] *)
Definition Path_absolute (cwd p : PurePath.t) : PurePath.t :=
  if bool_decide (PurePath.root p <> "") then p
  else PurePath.mk (PurePath.root cwd) (PurePath.parts cwd ++ PurePath.parts p).

(** The [for] loop of [handle_import].  A file of the selection comes
    with the answer the user gives if [ask_confirm] is called for it. *)
Fixpoint import_files (cwd : PurePath.t) (files : list (string * bool))
    (newly_imported_count : Z) : Eff App Z :=
  match files with
  | [] => ret newly_imported_count
  | (file_name, answer) :: files' =>
      let f := PurePath.of_str file_name in
      let absolute_path := PurePath.str (Path_absolute cwd f) in
      let ask_confirm := fun _ : string => answer in
      let* file_element :=
        on_world (on_model (add_file absolute_path (PurePath.stem f) (PurePath.suffix f)
                              ask_confirm)) in
      let* newly_imported_count :=
        match file_element with
        | Some values =>
            modify (set_view (View.add_treeview_item values)) >>
            ret (newly_imported_count + 1)
        | None => ret newly_imported_count
        end in
      import_files cwd files' newly_imported_count
  end.

(** [Controller.handle_import]; [files] is what [askopenfiles] returns. *)
Definition handle_import (cwd : PurePath.t) (files : list (string * bool)) : Eff App unit :=
  match files with
  | [] => ret tt
  | _ =>
      let* newly_imported_count := import_files cwd files 0 in
      let* a := get in
      let total_count := get_file_count (model (world a)) in
      view_call (UpdateStatus total_count
                   (if (0 <? total_count)%Z then "Prêt à exporter" else "")) >>
      if ((newly_imported_count =? 0) && (0 <? total_count))%Z
      then emit (ShowInfo "Information"
                   "Aucun nouveau fichier ajouté. Les fichiers sélectionnés étaient déjà présents.")
      else ret tt
  end.

Section Handlers.

Variable py_int : string -> option Z.

(** [Controller._finish_edit_callback].  The result is [None] when a
    [TclError] of the tree leaves the callback. *)
Definition _finish_edit_callback (iid : nat) (new_stem : string) : Eff App (option unit) :=
  if String.eqb new_stem ""
  then modify (add_dialog (ShowErrorMessage "Erreur de saisie" "Le nom ne peut pas être vide."))
       >> ret (Some tt)
  else
    let* a := get in
    match View.item_values iid (view a) with
    | None => ret None
    | Some values =>
        let file_id := pretty (elem_id values) in
        let* updated_values := on_world (on_model (update_file_stem py_int file_id new_stem)) in
        match updated_values with
        | None =>
            let* a := get in
            match py_int file_id with
            | None => raise ValueError
            | Some file_id_int =>
                match PyDict.get file_id_int (file_element_dict (model (world a))) with
                | None => raise KeyError
                | Some entry =>
                    let extension := elem_ext entry in
                    modify (add_dialog
                              (ShowWarning "Doublon"
                                 ("Le nom '" +:+ (new_stem +:+ extension)
                                  +:+ "' existe déjà. Modification annulée.")))
                    >> ret (Some tt)
                end
            end
        | Some updated =>
            let* a := get in
            match View.update_treeview_item iid updated (view a) with
            | None => ret None
            | Some v => modify (set_view (fun _ => v)) >> ret (Some tt)
            end
        end
    end.

(** [Controller.handle_export]; [askdirectory] is what the dialog
    returns when it is shown. *)
Definition handle_export (askdirectory : string) : Eff App unit :=
  let* a := get in
  if (get_file_count (model (world a)) =? 0)%Z
  then modify (add_dialog (ShowWarning "Attention"
                             "Veuillez importer des fichiers avant d'exporter."))
  else
    let directory := askdirectory in
    if String.eqb directory "" then ret tt
    else
      let* a := get in
      view_call (UpdateStatus (get_file_count (model (world a)))
                   "Initialisation de l'exportation...") >>
      view_call (SetControlStates false) >>
      modify (add_thread directory).

End Handlers.

(** What the user and the export threads do, in order.  A handler runs
    to its end before the next one starts. *)
Inductive action : Type :=
  | ClickImport (cwd : PurePath.t) (files : list (string * bool))
  | FinishEdit (iid : nat) (new_stem : string)
  | ClickReset
  | ClickExport (askdirectory : string)
  | ThreadRuns (cwd : PurePath.t) (uuid_a uuid_b directory : string).

Definition act (py_int : string -> option Z) (soffice : FS -> PurePath.t -> soffice_exit)
    (x : action) (a : App) : App :=
  match x with
  | ClickImport cwd files => final (handle_import cwd files a)
  | FinishEdit iid new_stem => final (_finish_edit_callback py_int iid new_stem a)
  | ClickReset => final (on_world handle_reset a)
  | ClickExport askdirectory => final (handle_export askdirectory a)
  | ThreadRuns cwd uuid_a uuid_b directory =>
      final (on_world (_run_export_in_thread soffice cwd uuid_a uuid_b directory) a)
  end.

Definition run_actions (py_int : string -> option Z)
    (soffice : FS -> PurePath.t -> soffice_exit) (xs : list action) (a : App) : App :=
  fold_left (fun a x => act py_int soffice x a) xs a.

(** What holds of the catalog and of the rows of the tree after every
    action: the invariants of the catalog; the values of the rows are the
    entries of [file_element_dict], in order; and no two rows have the
    same item identifier. *)
Definition rows_inv (self : Model) (v : View.t) : Prop :=
  catalog_inv self /\
  ids_inv self /\
  (View.tree v).*2 = PyDict.values (file_element_dict self) /\
  NoDup (View.tree v).*1 /\
  Forall (fun iid => (iid <= View.inserted v)%nat) (View.tree v).*1.

(** The label shows the number of entries. *)
Definition count_inv (self : Model) (v : View.t) : Prop :=
  View.number_files_imported v = "Fichier(s) importé(s) : " +:+ pretty (get_file_count self).

(** The view shows the rows and the number of the entries. *)
Definition in_step (self : Model) (v : View.t) : Prop := rows_inv self v /\ count_inv self v.

(** A file of a selection that [add_file] turns down: its path is
    recorded, or its name is in the name set and the user declines. *)
Definition blocked (cwd : PurePath.t) (self : Model) (file : string * bool) : Prop :=
  let f := PurePath.of_str file.1 in
  PurePath.str (Path_absolute cwd f) ∈ PyDict.values (file_path_dict self) \/
  (PurePath.stem f +:+ PurePath.suffix f ∈ unique_file_names self /\ file.2 = false).

(** A relation between the model and the view that a computation on the
    model and the file system keeps, when the calls of its trace are
    carried out on the view. *)
Definition tracks {A} (I : Model -> View.t -> Prop) (m : Eff World A) : Prop :=
  forall w v,
    I (model w) v ->
    I (model (final (m w))) (fold_left (fun v ev => View.perform ev v) (trace (m w)) v).

(** The view shows the catalog: the rows of the tree are the entries of
    [file_element_dict], in order, and the label shows their number. *)
Definition shows_catalog (a : App) : Prop :=
  (View.tree (view a)).*2 = PyDict.values (file_element_dict (model (world a))) /\
  View.number_files_imported (view a)
  = "Fichier(s) importé(s) : " +:+ pretty (get_file_count (model (world a))).

(** ** A session at the window *)

(** The application started on the file system of [reports_world]. *)
Definition office : App := App_init (fs reports_world).

(** Two documents are imported from the dialog. *)
Definition two_imports : list action :=
  [ClickImport (PurePath.of_str "/work") [("/a/report.docx", false); ("/b/notes.odt", false)]].

(** Two documents are imported, the second is renamed, the selection is
    imported again, an export is started and its thread runs, and the
    list is reset. *)
Definition session : list action :=
  (two_imports ++
   [FinishEdit 2 "minutes";
    ClickImport (PurePath.of_str "/work") [("/a/report.docx", false); ("/b/report.docx", true)];
    ClickExport "/out";
    ThreadRuns (PurePath.of_str "/work") uuid_a0 uuid_b0 "/out";
    ClickImport (PurePath.of_str "/work") [("/b/notes.odt", false)];
    ClickReset])%list.

(** An entry is renamed to [2_report], and a second [report.docx] is
    added: the stem of the first is the name the converter gives to the
    output for the second. *)
Definition clash_ops : list op :=
  [AddFile "/a/report.docx" "report" ".docx" (fun _ => false);
   UpdateFileStem "1" "2_report";
   AddFile "/b/report.docx" "report" ".docx" (fun _ => false)].

(** The two files of [reports_world] with the catalog of [clash_ops]. *)
Definition clash_world : World :=
  {| model := run_ops int_decimal clash_ops Model_init; fs := fs reports_world |}.

(** * Properties *)

(** ** Dictionaries *)

Section dict_facts.
Context {K V : Type} `{EqDecision K}.
Implicit Types (d : list (K * V)) (k : K) (v : V).

Lemma get_set_eq k v d : PyDict.get k (PyDict.set k v d) = Some v.
Proof.
  induction d as [|[k' v'] d IH]; simpl.
  - by rewrite decide_True.
  - destruct (decide (k = k')) as [->|Hne]; simpl.
    + by rewrite decide_True.
    + by rewrite decide_False.
Qed.

Lemma get_set_ne k k' v d : k <> k' -> PyDict.get k' (PyDict.set k v d) = PyDict.get k' d.
Proof.
  intros Hne. induction d as [|[k0 v0] d IH]; simpl.
  - rewrite decide_False; [done|congruence].
  - destruct (decide (k = k0)) as [->|Hne0]; simpl.
    + rewrite !decide_False; [done|congruence|congruence].
    + destruct (decide (k' = k0)); [done|apply IH].
Qed.

Lemma get_is_Some k d : is_Some (PyDict.get k d) <-> k ∈ PyDict.keys d.
Proof.
  unfold PyDict.keys. induction d as [|[k0 v0] d IH]; simpl.
  - split; [by intros [? ?]|by intros ?%elem_of_nil].
  - destruct (decide (k = k0)) as [->|Hne].
    + split; [intros _; left|eauto].
    + rewrite IH. split; [by right|].
      intros [?|?]%elem_of_cons; [congruence|done].
Qed.

Lemma get_elem_of k v d : PyDict.get k d = Some v -> (k, v) ∈ d.
Proof.
  induction d as [|[k0 v0] d IH]; simpl; [done|].
  destruct (decide (k = k0)) as [->|Hne].
  - intros [= ->]. left.
  - intros ?. right. by apply IH.
Qed.

Lemma elem_of_get k v d : NoDup (PyDict.keys d) -> (k, v) ∈ d -> PyDict.get k d = Some v.
Proof.
  unfold PyDict.keys. induction d as [|[k0 v0] d IH]; simpl.
  - by intros _ ?%elem_of_nil.
  - intros [Hk0 Hnd]%NoDup_cons [Heq|Hin]%elem_of_cons.
    + injection Heq as -> ->. by rewrite decide_True.
    + destruct (decide (k = k0)) as [->|Hne]; [|by apply IH].
      exfalso. apply Hk0. apply list_elem_of_fmap. by exists (k0, v).
Qed.

Lemma keys_set_new k v d : k ∉ PyDict.keys d -> PyDict.set k v d = (d ++ [(k, v)])%list.
Proof.
  unfold PyDict.keys. induction d as [|[k0 v0] d IH]; simpl; [done|].
  intros Hk. apply not_elem_of_cons in Hk as [Hne Hk].
  rewrite decide_False by done. by rewrite IH.
Qed.

Lemma keys_set_old k v d : k ∈ PyDict.keys d -> PyDict.keys (PyDict.set k v d) = PyDict.keys d.
Proof.
  unfold PyDict.keys. induction d as [|[k0 v0] d IH]; simpl.
  - by intros ?%elem_of_nil.
  - intros Hk. destruct (decide (k = k0)) as [->|Hne]; simpl; [done|].
    f_equal. apply IH. by apply elem_of_cons in Hk as [?|?].
Qed.

Lemma set_get_id k v d : PyDict.get k d = Some v -> PyDict.set k v d = d.
Proof.
induction d as [|[k0 v0] d IH]; simpl; [done|].
destruct (decide (k = k0)) as [->|Hne].
- by intros [= ->].
- intros Hg. by rewrite IH.
Qed.

End dict_facts.

(** ** The catalog *)

(** The outcomes of [add_file], case by case. *)
Lemma add_file_known_path self absolute_path file_stem file_suffix ask :
  absolute_path ∈ PyDict.values (file_path_dict self) ->
  add_file absolute_path file_stem file_suffix ask self = Run (Return None) self [].
Proof.
  intros Hin. unfold add_file, bind, get. simpl.
  by rewrite bool_decide_eq_true_2.
Qed.

Lemma add_file_rejected self absolute_path file_stem file_suffix ask :
  absolute_path ∉ PyDict.values (file_path_dict self) ->
  file_stem +:+ file_suffix ∈ unique_file_names self ->
  ask (file_stem +:+ file_suffix) = false ->
  add_file absolute_path file_stem file_suffix ask self
  = Run (Return None) self [AskConfirm (file_stem +:+ file_suffix)].
Proof.
  intros Hp Hn Hask. unfold add_file, bind, get. simpl.
  rewrite bool_decide_eq_false_2 by done. simpl.
  rewrite bool_decide_eq_true_2 by done. simpl.
  by rewrite Hask.
Qed.

Lemma add_file_admitted self absolute_path file_stem file_suffix ask :
  absolute_path ∉ PyDict.values (file_path_dict self) ->
  file_stem +:+ file_suffix ∈ unique_file_names self ->
  ask (file_stem +:+ file_suffix) = true ->
  add_file absolute_path file_stem file_suffix ask self
  = Run (Return (Some (counter self, file_stem, file_suffix)))
        (added self absolute_path file_stem file_suffix)
        [AskConfirm (file_stem +:+ file_suffix)].
Proof.
  intros Hp Hn Hask. unfold add_file, bind, get. simpl.
  rewrite bool_decide_eq_false_2 by done. simpl.
  rewrite bool_decide_eq_true_2 by done. simpl.
  by rewrite Hask.
Qed.

Lemma add_file_fresh_name self absolute_path file_stem file_suffix ask :
  absolute_path ∉ PyDict.values (file_path_dict self) ->
  file_stem +:+ file_suffix ∉ unique_file_names self ->
  add_file absolute_path file_stem file_suffix ask self
  = Run (Return (Some (counter self, file_stem, file_suffix)))
        (added self absolute_path file_stem file_suffix) [].
Proof.
  intros Hp Hn. unfold add_file, bind, get. simpl.
  rewrite bool_decide_eq_false_2 by done. simpl.
  by rewrite bool_decide_eq_false_2 by done.
Qed.

(** Whatever [add_file] does, the model afterwards is the one before or
    the one with the entry added. *)
Lemma add_file_final self absolute_path file_stem file_suffix ask :
  final (add_file absolute_path file_stem file_suffix ask self) = self \/
  ((absolute_path ∉ PyDict.values (file_path_dict self)) /\
   (file_stem +:+ file_suffix ∈ unique_file_names self -> ask (file_stem +:+ file_suffix) = true) /\
   final (add_file absolute_path file_stem file_suffix ask self)
   = added self absolute_path file_stem file_suffix).
Proof.
  destruct (decide (absolute_path ∈ PyDict.values (file_path_dict self))) as [Hp|Hp].
  { left. by rewrite add_file_known_path. }
  destruct (decide (file_stem +:+ file_suffix ∈ unique_file_names self)) as [Hn|Hn].
  - destruct (ask (file_stem +:+ file_suffix)) eqn:Hask.
    + right. by rewrite add_file_admitted.
    + left. by rewrite add_file_rejected.
  - right. by rewrite add_file_fresh_name.
Qed.

(** The outcomes of [update_file_stem], case by case. *)
Section update_facts.
Variable py_int : string -> option Z.

Lemma update_file_stem_not_int self file_id new_stem :
  py_int file_id = None ->
  update_file_stem py_int file_id new_stem self = Run (Raise ValueError) self [].
Proof. intros Hi. unfold update_file_stem, bind, get. simpl. by rewrite Hi. Qed.

Lemma update_file_stem_unknown self file_id new_stem i :
  py_int file_id = Some i ->
  PyDict.get i (file_element_dict self) = None ->
  update_file_stem py_int file_id new_stem self = Run (Raise KeyError) self [].
Proof. intros Hi Hg. unfold update_file_stem, bind, get. simpl. by rewrite Hi, Hg. Qed.

Lemma update_file_stem_conflict self file_id new_stem i e :
  py_int file_id = Some i ->
  PyDict.get i (file_element_dict self) = Some e ->
  new_stem +:+ elem_ext e <> full_name e ->
  new_stem +:+ elem_ext e ∈ unique_file_names self ->
  update_file_stem py_int file_id new_stem self = Run (Return None) self [].
Proof.
  intros Hi Hg Hne Hin. unfold update_file_stem, bind, get. simpl. rewrite Hi, Hg.
  fold (full_name e).
  rewrite (bool_decide_eq_true_2 _ Hne), (bool_decide_eq_true_2 _ Hin). done.
Qed.

Lemma update_file_stem_done self file_id new_stem i e :
  py_int file_id = Some i ->
  PyDict.get i (file_element_dict self) = Some e ->
  (new_stem +:+ elem_ext e = full_name e \/ new_stem +:+ elem_ext e ∉ unique_file_names self) ->
  update_file_stem py_int file_id new_stem self
  = Run (Return (Some (elem_id e, new_stem, elem_ext e))) (renamed self i e new_stem) [].
Proof.
  intros Hi Hg Hok. unfold update_file_stem, bind, get. simpl. rewrite Hi, Hg.
  fold (full_name e).
  assert (bool_decide (new_stem +:+ elem_ext e <> full_name e)
          && bool_decide (new_stem +:+ elem_ext e ∈ unique_file_names self) = false) as ->.
  { destruct Hok as [Heq|Hnin].
    - by rewrite (bool_decide_eq_false_2 (_ <> _)) by (intros ?; done).
    - rewrite (bool_decide_eq_false_2 (_ ∈ _)) by done. apply andb_false_r. }
  unfold renamed. destruct (bool_decide (full_name e ∈ unique_file_names self)); done.
Qed.

Lemma update_file_stem_final self file_id new_stem :
  final (update_file_stem py_int file_id new_stem self) = self \/
  exists i e,
    PyDict.get i (file_element_dict self) = Some e /\
    (new_stem +:+ elem_ext e = full_name e \/ new_stem +:+ elem_ext e ∉ unique_file_names self) /\
    final (update_file_stem py_int file_id new_stem self) = renamed self i e new_stem.
Proof.
  destruct (py_int file_id) as [i|] eqn:Hi; [|left; by rewrite update_file_stem_not_int].
  destruct (PyDict.get i (file_element_dict self)) as [e|] eqn:Hg;
    [|left; by rewrite (update_file_stem_unknown _ _ _ i)].
  destruct (decide (new_stem +:+ elem_ext e = full_name e)) as [Heq|Hne].
  { right. exists i, e. split_and!; [done|by left|]. by rewrite (update_file_stem_done _ _ _ i e); auto. }
  destruct (decide (new_stem +:+ elem_ext e ∈ unique_file_names self)) as [Hin|Hnin].
  - left. by rewrite (update_file_stem_conflict _ _ _ i e).
  - right. exists i, e. split_and!; [done|by right|].
    by rewrite (update_file_stem_done _ _ _ i e); auto.
Qed.

(** Renaming an entry to the stem it has changes nothing, provided its
    name is in the name set. *)
Lemma update_file_stem_same_stem self file_id i e :
py_int file_id = Some i ->
PyDict.get i (file_element_dict self) = Some e ->
full_name e ∈ unique_file_names self ->
update_file_stem py_int file_id (elem_stem e) self = Run (Return (Some e)) self [].
Proof.
intros Hi Hg Hin. rewrite (update_file_stem_done self file_id (elem_stem e) i e) by auto.
assert ((elem_id e, elem_stem e, elem_ext e) = e) as He by (by destruct e as [[? ?] ?]).
rewrite He. f_equal. unfold renamed. rewrite He.
replace (PyDict.set i e (file_element_dict self)) with (file_element_dict self)
  by (symmetry; by apply set_get_id).
change (elem_stem e +:+ elem_ext e) with (full_name e).
rewrite (bool_decide_eq_true_2 _ Hin).
destruct self as [paths elems names cnt]; simpl in *. f_equal.
apply set_eq. intros n. rewrite elem_of_union, elem_of_difference, elem_of_singleton.
destruct (decide (n = full_name e)) as [->|Hne]; naive_solver.
Qed.
End update_facts.

(** ** The invariant of the catalog *)

Lemma size_list_to_set_le (l : list string) :
  (size (list_to_set l : gset string) <= length l)%nat.
Proof.
  induction l as [|x l IH].
  - rewrite list_to_set_nil, size_empty. done.
  - rewrite list_to_set_cons, size_union_alt, size_singleton. simpl.
    assert (size (list_to_set l ∖ {[x]} : gset string) <= size (list_to_set l : gset string))%nat.
    { apply subseteq_size. set_solver. }
    lia.
Qed.

Lemma catalog_inv_init : catalog_inv Model_init.
Proof.
  unfold catalog_inv, Model_init, PyDict.keys; simpl. split_and!.
  - done.
  - constructor.
  - by intros k ?%elem_of_nil.
  - by intros n ?%elem_of_empty.
Qed.

Lemma catalog_inv_counter_fresh m :
  catalog_inv m -> counter m ∉ PyDict.keys (file_element_dict m).
Proof. intros (_ & _ & Hlt & _) Hin. apply Hlt in Hin. lia. Qed.

Lemma catalog_inv_added m absolute_path file_stem file_suffix :
  catalog_inv m -> catalog_inv (added m absolute_path file_stem file_suffix).
Proof.
  intros Hinv. pose proof (catalog_inv_counter_fresh m Hinv) as Hfresh.
  destruct Hinv as (Hkeys & Hnd & Hlt & Hnames).
  unfold catalog_inv, added; simpl.
  rewrite (keys_set_new _ _ (file_element_dict m)) by done.
  rewrite (keys_set_new _ _ (file_path_dict m)) by (by rewrite Hkeys).
  unfold PyDict.keys in *. rewrite !fmap_app; simpl. split_and!.
  - by rewrite Hkeys.
  - apply NoDup_app. split_and!; [done| |apply NoDup_singleton].
    intros k Hk ->%list_elem_of_singleton. done.
  - intros k [Hk| ->%list_elem_of_singleton]%elem_of_app; [apply Hlt in Hk|]; lia.
  - intros n [Hn| ->%elem_of_singleton]%elem_of_union.
    + destruct (Hnames n Hn) as (k & e & Hg & He). exists k, e. split; [|done].
      rewrite <- (keys_set_new (counter m) _ (file_element_dict m)) by done.
      rewrite get_set_ne; [done|]. intros <-. apply Hfresh.
      apply get_is_Some. eauto.
    + exists (counter m), (counter m, file_stem, file_suffix). split; [|done].
      rewrite <- (keys_set_new (counter m) _ (file_element_dict m)) by done.
      apply get_set_eq.
Qed.

Lemma catalog_inv_renamed m i e new_stem :
  catalog_inv m ->
  PyDict.get i (file_element_dict m) = Some e ->
  catalog_inv (renamed m i e new_stem).
Proof.
  intros (Hkeys & Hnd & Hlt & Hnames) Hg.
  assert (i ∈ PyDict.keys (file_element_dict m)) as Hi by (apply get_is_Some; eauto).
  unfold catalog_inv, renamed; simpl. rewrite keys_set_old by done. split_and!; [done..|].
  intros n Hn.
  destruct (decide (n = new_stem +:+ elem_ext e)) as [->|Hne].
  { exists i, (elem_id e, new_stem, elem_ext e). split; [apply get_set_eq|done]. }
  assert (n ∈ unique_file_names m /\ n <> full_name e) as [Hin Hold].
  { case_bool_decide; set_solver. }
  destruct (Hnames n Hin) as (k & e' & Hg' & He').
  exists k, e'. split; [|done]. rewrite get_set_ne; [done|].
  intros <-. congruence.
Qed.

Lemma names_inv_init : names_inv Model_init.
Proof. split; simpl; intros; discriminate. Qed.

Lemma names_inv_added m absolute_path file_stem file_suffix :
  catalog_inv m -> names_inv m ->
  file_stem +:+ file_suffix ∉ unique_file_names m ->
  names_inv (added m absolute_path file_stem file_suffix).
Proof.
  intros Hinv [HA HB] Hnew. pose proof (catalog_inv_counter_fresh m Hinv) as Hfresh.
  assert (forall k e, PyDict.get k (file_element_dict (added m absolute_path file_stem file_suffix))
                      = Some e ->
            (k = counter m /\ e = (counter m, file_stem, file_suffix)) \/
            (k <> counter m /\ PyDict.get k (file_element_dict m) = Some e)) as Hcases.
  { intros k e. unfold added; simpl. destruct (decide (counter m = k)) as [<-|Hne].
    - rewrite get_set_eq. intros [= <-]. by left.
    - rewrite get_set_ne by done. right. split; [congruence|done]. }
  split.
  - intros k e [[-> ->]|[_ Hg]]%Hcases; unfold added; simpl.
    + apply elem_of_union_r, elem_of_singleton. done.
    + apply elem_of_union_l. eauto.
  - intros k1 k2 e1 e2 [[-> ->]|[Hk1 Hg1]]%Hcases [[-> ->]|[Hk2 Hg2]]%Hcases Heq; [done| | |eauto].
    + exfalso. apply Hnew. change (file_stem +:+ file_suffix)
        with (full_name (counter m, file_stem, file_suffix)). rewrite Heq. eauto.
    + exfalso. apply Hnew. change (file_stem +:+ file_suffix)
        with (full_name (counter m, file_stem, file_suffix)). rewrite <- Heq. eauto.
Qed.

Lemma names_inv_renamed m i e new_stem :
  names_inv m ->
  PyDict.get i (file_element_dict m) = Some e ->
  (new_stem +:+ elem_ext e = full_name e \/ new_stem +:+ elem_ext e ∉ unique_file_names m) ->
  names_inv (renamed m i e new_stem).
Proof.
  intros [HA HB] Hg Hok.
  assert (forall k e', PyDict.get k (file_element_dict (renamed m i e new_stem)) = Some e' ->
            (k = i /\ e' = (elem_id e, new_stem, elem_ext e)) \/
            (k <> i /\ PyDict.get k (file_element_dict m) = Some e')) as Hcases.
  { intros k e'. unfold renamed; simpl. destruct (decide (i = k)) as [<-|Hne].
    - rewrite get_set_eq. intros [= <-]. by left.
    - rewrite get_set_ne by done. right. split; [congruence|done]. }
  assert (forall k e', k <> i -> PyDict.get k (file_element_dict m) = Some e' ->
            full_name e' ∈ unique_file_names m /\ full_name e' <> full_name e) as Hother.
  { intros k e' Hne Hg'. split; [eauto|]. intros Heq. apply Hne. eauto. }
  assert (full_name e ∈ unique_file_names m) as Hold by eauto.
  split.
  - intros k e' [[-> ->]|[Hk Hg']]%Hcases; unfold renamed; simpl.
    + apply elem_of_union_r, elem_of_singleton. done.
    + destruct (Hother k e' Hk Hg'). rewrite bool_decide_eq_true_2 by done. set_solver.
  - intros k1 k2 e1 e2 [[-> ->]|[Hk1 Hg1]]%Hcases [[-> ->]|[Hk2 Hg2]]%Hcases Heq; [done| | |eauto].
    + exfalso. destruct (Hother k2 e2 Hk2 Hg2) as [Hin Hne].
      change (full_name (elem_id e, new_stem, elem_ext e)) with (new_stem +:+ elem_ext e) in Heq.
      destruct Hok as [Hsame|Hnin]; [congruence|]. apply Hnin. by rewrite Heq.
    + exfalso. destruct (Hother k1 e1 Hk1 Hg1) as [Hin Hne].
      change (full_name (elem_id e, new_stem, elem_ext e)) with (new_stem +:+ elem_ext e) in Heq.
      destruct Hok as [Hsame|Hnin]; [congruence|]. apply Hnin. by rewrite <- Heq.
Qed.

Lemma catalog_inv_apply_op py_int o m :
  catalog_inv m -> catalog_inv (apply_op py_int o m).
Proof.
  intros Hinv. destruct o as [p s x ask|fid s|]; cbn [apply_op].
  - destruct (add_file_final m p s x ask) as [->|(_ & _ & ->)]; [done|].
    by apply catalog_inv_added.
  - destruct (update_file_stem_final py_int m fid s) as [->|(i & e & Hg & _ & ->)]; [done|].
    by apply catalog_inv_renamed.
  - apply catalog_inv_init.
Qed.

Lemma names_inv_apply_op py_int o m :
  never_admits o -> catalog_inv m -> names_inv m -> names_inv (apply_op py_int o m).
Proof.
  intros Hnever Hinv Hnames. destruct o as [p s x ask|fid s|]; cbn [apply_op never_admits] in *.
  - destruct (add_file_final m p s x ask) as [->|(_ & Hask & ->)]; [done|].
    apply names_inv_added; [done..|]. intros Hin. specialize (Hask Hin).
    rewrite Hnever in Hask. discriminate.
  - destruct (update_file_stem_final py_int m fid s) as [->|(i & e & Hg & Hok & ->)]; [done|].
    by apply names_inv_renamed.
  - apply names_inv_init.
Qed.

Lemma catalog_inv_run_ops py_int ops m :
  catalog_inv m -> catalog_inv (run_ops py_int ops m).
Proof.
  revert m. induction ops as [|o ops IH]; intros m Hinv; simpl; [done|].
  apply IH. by apply catalog_inv_apply_op.
Qed.

Lemma names_inv_run_ops py_int ops m :
  Forall never_admits ops -> catalog_inv m -> names_inv m ->
  names_inv (run_ops py_int ops m).
Proof.
  revert m. induction ops as [|o ops IH]; intros m Hnever Hinv Hnames; simpl; [done|].
  apply Forall_cons in Hnever as [Ho Hnever].
  apply IH; [done|by apply catalog_inv_apply_op|by apply names_inv_apply_op].
Qed.

Lemma catalog_inv_weakly_consistent m : catalog_inv m -> weakly_consistent m.
Proof.
  intros (Hkeys & Hnd & Hlt & Hnames). unfold weakly_consistent.
  assert (length (file_element_dict m) = length (file_path_dict m)) as Hlen.
  { rewrite <- (length_fmap fst (file_element_dict m)), <- (length_fmap fst (file_path_dict m)).
    unfold PyDict.keys in Hkeys. by rewrite Hkeys. }
  split_and!; [done| |done|done|].
  - intros k e Hg.
    assert (is_Some (PyDict.get k (file_path_dict m))) as [p Hp].
    { apply get_is_Some. rewrite Hkeys. apply get_is_Some. eauto. }
    exists p. split; [done|]. apply get_elem_of in Hp.
    unfold PyDict.values. apply list_elem_of_fmap. by exists (k, p).
  - transitivity (size (list_to_set (full_name <$> PyDict.values (file_element_dict m)) : gset string)).
    + apply subseteq_size. intros n Hn. destruct (Hnames n Hn) as (k & e & Hg & <-).
      apply elem_of_list_to_set, list_elem_of_fmap. exists e. split; [done|].
      apply get_elem_of in Hg. unfold PyDict.values. apply list_elem_of_fmap. by exists (k, e).
    + etransitivity; [apply size_list_to_set_le|].
      unfold PyDict.values. by rewrite !length_fmap.
Qed.

Lemma names_inv_consistent m : catalog_inv m -> names_inv m -> consistent m.
Proof.
  intros Hinv [HA HB]. pose proof (catalog_inv_weakly_consistent m Hinv)
    as (Hkeys & Hpaths & Hlen & Hnames & _).
  destruct Hinv as (_ & Hnd & _ & _).
  split_and!; [done..|]. rewrite <- Hlen.
  assert (NoDup (file_element_dict m)) as Hnd' by (by apply (NoDup_fmap_1 fst)).
  assert (NoDup ((fun kv => full_name kv.2) <$> file_element_dict m)) as Hnd''.
  { apply NoDup_fmap_2_strong; [|done].
    intros [k1 e1] [k2 e2] H1 H2 Heq; simpl in *.
    apply (elem_of_get _ _ _ Hnd) in H1, H2.
    assert (k1 = k2) as -> by eauto. congruence. }
  assert (unique_file_names m = list_to_set ((fun kv => full_name kv.2) <$> file_element_dict m))
    as ->.
  { apply set_eq. intros n. rewrite elem_of_list_to_set, list_elem_of_fmap. split.
    - intros (k & e & Hg & <-)%Hnames. exists (k, e). split; [done|by apply get_elem_of].
    - intros ([k e] & -> & Hin). apply (elem_of_get _ _ _ Hnd) in Hin. eauto. }
  rewrite size_list_to_set by done. by rewrite length_fmap.
Qed.

(** C1 (as amended).  After every sequence of [add_file],
    [update_file_stem] and [reset] calls on a new model, the two
    dictionaries hold the same ids (so they have the same cardinality),
    every entry's source path is recorded, and every name of the name set
    is the full display name of a live entry, so that the set has at most
    as many members as there are entries.  If moreover no callback of the
    sequence ever admits a duplicate name, every live entry's full display
    name is in the name set and the three cardinalities agree. *)
Theorem catalog_consistency (py_int : string -> option Z) (ops : list op) :
  weakly_consistent (run_ops py_int ops Model_init) /\
  (Forall never_admits ops -> consistent (run_ops py_int ops Model_init)).
Proof.
  split.
  - apply catalog_inv_weakly_consistent, catalog_inv_run_ops, catalog_inv_init.
  - intros Hnever. apply names_inv_consistent.
    + apply catalog_inv_run_ops, catalog_inv_init.
    + apply names_inv_run_ops; [done|apply catalog_inv_init|apply names_inv_init].
Qed.

Lemma catalog_consistency_witness :
  Forall never_admits careful_ops /\
  consistent (run_ops int_decimal careful_ops Model_init).
Proof.
  assert (Forall never_admits careful_ops) as H by (repeat constructor).
  split; [exact H|].
  exact (proj2 (catalog_consistency int_decimal careful_ops) H).
Defined.

(** C1 (as stated) fails: once a duplicate display name has been admitted
    by the callback, two entries share one member of the name set, and
    the cardinalities differ. *)
Lemma consistency_counterexample :
  ~ consistent (run_ops int_decimal duplicate_ops Model_init).
Proof.
  intros (_ & _ & _ & Hcard). vm_compute in Hcard. discriminate.
Qed.

(** C5.  Whatever the catalog, the stem, the extension and the callback,
    [add_file] with a source path that is already recorded returns
    [None], leaves the model as it is and does not call the callback:
    the trace is empty. *)
Theorem add_file_known_path_is_silent (self : Model)
    (absolute_path file_stem file_suffix : string) (ask_confirm_func : string -> bool) :
  absolute_path ∈ PyDict.values (file_path_dict self) ->
  add_file absolute_path file_stem file_suffix ask_confirm_func self
  = Run (Return None) self [].
Proof. apply add_file_known_path. Qed.

Lemma add_file_known_path_is_silent_witness :
  let self := run_ops int_decimal duplicate_ops Model_init in
  "/a/report.docx" ∈ PyDict.values (file_path_dict self) /\
  add_file "/a/report.docx" "report" ".docx" (fun _ => true) self = Run (Return None) self [].
Proof.
  assert ("/a/report.docx" ∈
          PyDict.values (file_path_dict (run_ops int_decimal duplicate_ops Model_init))) as H.
  { vm_compute. left. }
  cbv zeta. split; [exact H|].
  exact (add_file_known_path_is_silent _ "/a/report.docx" "report" ".docx" (fun _ => true) H).
Defined.

(** C6, at the failing input.  After [stale_ops] entry 2 is live and
    named [report.docx], yet [add_file] of a third [report.docx] does not
    call the callback (which would have refused) and adds the file. *)
Theorem add_file_skips_callback_for_live_name :
  let self := run_ops int_decimal stale_ops Model_init in
  PyDict.get 2 (file_element_dict self) = Some (2, "report", ".docx") /\
  ("report.docx" ∉ unique_file_names self) /\
  add_file "/c/report.docx" "report" ".docx" (fun _ => false) self
  = Run (Return (Some (3, "report", ".docx")))
        (added self "/c/report.docx" "report" ".docx") [].
Proof.
  cbv zeta. split_and!.
  - vm_compute. reflexivity.
  - apply (bool_decide_unpack _). vm_compute. exact I.
  - vm_compute. reflexivity.
Qed.

(** C7, at the failing input.  After [stale_ops] entry 2 is live and
    named [report.docx], yet renaming entry 1 to [report] succeeds and
    leaves two entries with that name. *)
Theorem update_file_stem_accepts_live_name :
  let self := run_ops int_decimal stale_ops Model_init in
  let after := final (update_file_stem int_decimal "1" "report" self) in
  PyDict.get 1 (file_element_dict self) = Some (1, "draft", ".docx") /\
  PyDict.get 2 (file_element_dict self) = Some (2, "report", ".docx") /\
  outcome (update_file_stem int_decimal "1" "report" self)
  = Return (Some (1, "report", ".docx")) /\
  PyDict.get 1 (file_element_dict after) = Some (1, "report", ".docx") /\
  PyDict.get 2 (file_element_dict after) = Some (2, "report", ".docx").
Proof. cbv zeta. split_and!; vm_compute; reflexivity. Qed.

(** C8, at the failing input.  After [stale_ops], renaming entry 2 to the
    stem it already has returns the entry, but the name set is not what
    it was: [report.docx] has been added to it. *)
Theorem update_file_stem_same_stem_changes_names :
  let self := run_ops int_decimal stale_ops Model_init in
  let after := final (update_file_stem int_decimal "2" "report" self) in
  PyDict.get 2 (file_element_dict self) = Some (2, "report", ".docx") /\
  outcome (update_file_stem int_decimal "2" "report" self)
  = Return (Some (2, "report", ".docx")) /\
  ("report.docx" ∉ unique_file_names self) /\
  ("report.docx" ∈ unique_file_names after) /\
  after <> self.
Proof.
  assert ("report.docx" ∉ unique_file_names (run_ops int_decimal stale_ops Model_init)) as Hout.
  { apply (bool_decide_unpack _). vm_compute. exact I. }
  assert ("report.docx" ∈ unique_file_names
            (final (update_file_stem int_decimal "2" "report"
                      (run_ops int_decimal stale_ops Model_init)))) as Hin.
  { apply (bool_decide_unpack _). vm_compute. exact I. }
  cbv zeta. split_and!; [vm_compute; reflexivity|vm_compute; reflexivity|done|done|].
  intros Heq. rewrite Heq in Hin. exact (Hout Hin).
Qed.

(** C9.  For an id that [int] reads, [update_file_stem] returns a value
    (an entry or [None]) exactly when the id has an entry; for an id
    without entry it raises [KeyError], before anything is changed. *)
Theorem update_file_stem_needs_live_id (py_int : string -> option Z) (self : Model)
    (file_id new_stem : string) (i : Z) :
  py_int file_id = Some i ->
  (PyDict.get i (file_element_dict self) = None ->
   update_file_stem py_int file_id new_stem self = Run (Raise KeyError) self []) /\
  (is_Some (PyDict.get i (file_element_dict self)) ->
   exists r, outcome (update_file_stem py_int file_id new_stem self) = Return r).
Proof.
  intros Hi. split.
  - intros Hnone. by apply (update_file_stem_unknown py_int self file_id new_stem i).
  - intros [e He].
    destruct (decide (new_stem +:+ elem_ext e = full_name e)) as [Heq|Hne].
    { eexists. rewrite (update_file_stem_done py_int self file_id new_stem i e) by auto. done. }
    destruct (decide (new_stem +:+ elem_ext e ∈ unique_file_names self)) as [Hin|Hnin].
    + exists None. by rewrite (update_file_stem_conflict py_int self file_id new_stem i e).
    + eexists. rewrite (update_file_stem_done py_int self file_id new_stem i e) by auto. done.
Qed.

Lemma update_file_stem_needs_live_id_witness :
  let self := run_ops int_decimal duplicate_ops Model_init in
  int_decimal "7" = Some 7 /\
  PyDict.get 7 (file_element_dict self) = None /\
  update_file_stem int_decimal "7" "ghost" self = Run (Raise KeyError) self [].
Proof.
  assert (int_decimal "7" = Some 7) as Hi by reflexivity.
  assert (PyDict.get 7 (file_element_dict (run_ops int_decimal duplicate_ops Model_init)) = None)
    as Hnone by reflexivity.
  cbv zeta. split_and!; [exact Hi|exact Hnone|].
  exact (proj1 (update_file_stem_needs_live_id int_decimal _ "7" "ghost" 7 Hi) Hnone).
Defined.

(** ** The archive *)

(** C3, at the failing input.  With the destination [/out/v1.2] the
    controller's base name is [Export_PDFs_v1.2_<hex>]: the archive is
    written at [<base>.zip], but the path returned is the one where the
    part of the base name after its last dot is replaced by [.zip], and
    nothing exists there. *)
Theorem create_zip_archive_returns_another_path :
  let r := create_zip_archive (PurePath.of_str "/work/tmp") "/out/v1.2"
             "Export_PDFs_v1.2_ab12" converted_fs in
  outcome r = Return "/out/v1.2/Export_PDFs_v1.zip" /\
  OS.is_file (final r) (PurePath.of_str "/out/v1.2/Export_PDFs_v1.2_ab12.zip") = true /\
  OS.exists_ (final r) (PurePath.of_str "/out/v1.2/Export_PDFs_v1.zip") = false.
Proof. cbv zeta. split_and!; vm_compute; reflexivity. Qed.

(** ** Reasoning about computations *)

Section eff_facts.
Context {S A B : Type}.
Implicit Types (m : Eff S A) (k : A -> Eff S B) (s : S).

Lemma bind_Return m k s a :
  outcome (m s) = Return a ->
  bind m k s = Run (outcome (k a (final (m s)))) (final (k a (final (m s))))
                   (trace (m s) ++ trace (k a (final (m s)))).
Proof. intros H. unfold bind. by rewrite H. Qed.

Lemma bind_Raise m k s e :
  outcome (m s) = Raise e -> bind m k s = Run (Raise e) (final (m s)) (trace (m s)).
Proof. intros H. unfold bind. by rewrite H. Qed.

Lemma bind_Diverge m k s :
  outcome (m s) = Diverge -> bind m k s = Run Diverge (final (m s)) (trace (m s)).
Proof. intros H. unfold bind. by rewrite H. Qed.

Lemma run_eta (r : run S A) : Run (outcome r) (final r) (trace r) = r.
Proof. by destruct r. Qed.
End eff_facts.

(** ** The export pipeline *)

Section keeps_facts.
Context {S : Type} (R : relation S) `{!PreOrder R}.

Lemma keeps_ret {A} (a : A) : keeps R (ret a).
Proof. intros s. simpl. reflexivity. Qed.
Lemma keeps_raise {A} e : keeps R (raise (A := A) e).
Proof. intros s. simpl. reflexivity. Qed.
Lemma keeps_diverge {A} : keeps R (diverge (A := A)).
Proof. intros s. simpl. reflexivity. Qed.
Lemma keeps_get : keeps R get.
Proof. intros s. simpl. reflexivity. Qed.
Lemma keeps_emit ev : keeps R (emit ev).
Proof. intros s. simpl. reflexivity. Qed.
Lemma keeps_modify f : (forall s, R s (f s)) -> keeps R (modify f).
Proof. intros H s. apply H. Qed.

Lemma keeps_bind {A B} (m : Eff S A) (k : A -> Eff S B) :
  keeps R m -> (forall a, keeps R (k a)) -> keeps R (bind m k).
Proof.
  intros Hm Hk s. unfold bind. specialize (Hm s).
  destruct (outcome (m s)); simpl; [|done..].
  etransitivity; [exact Hm|apply Hk].
Qed.

Lemma keeps_try_except {A} (m : Eff S A) h :
  keeps R m -> (forall e, keeps R (h e)) -> keeps R (try_except m h).
Proof.
  intros Hm Hh s. unfold try_except. specialize (Hm s).
  destruct (outcome (m s)); simpl; [done| |done].
  etransitivity; [exact Hm|apply Hh].
Qed.

Lemma keeps_try_finally {A} (m : Eff S A) c :
  keeps R m -> keeps R c -> keeps R (try_finally m c).
Proof.
  intros Hm Hc s. unfold try_finally. specialize (Hm s). specialize (Hc (final (m s))).
  destruct (outcome (m s)); [| |done];
    destruct (outcome (c (final (m s)))); simpl; (etransitivity; [exact Hm|exact Hc]).
Qed.

Lemma keeps_for_each {A} (xs : list A) body :
  (forall x, keeps R (body x)) -> keeps R (for_each xs body).
Proof.
  intros Hb. induction xs as [|x xs IH]; simpl.
  - apply keeps_ret.
  - apply keeps_bind; [apply Hb|done].
Qed.
End keeps_facts.

#[local] Instance same_dirs_preorder : PreOrder same_dirs.
Proof.
  split; [intros x; reflexivity|].
  intros x y z Hxy Hyz. unfold same_dirs in *. congruence.
Qed.

Lemma keeps_if {S A} (R : relation S) (b : bool) (m1 m2 : Eff S A) :
  keeps R m1 -> keeps R m2 -> keeps R (if b then m1 else m2).
Proof. by destruct b. Qed.

Ltac keeps_step :=
  lazymatch goal with
  | |- PreOrder _ => apply _
  | |- keeps _ (ret _) => apply keeps_ret
  | |- keeps _ (raise _) => apply keeps_raise
  | |- keeps _ diverge => apply keeps_diverge
  | |- keeps _ get => apply keeps_get
  | |- keeps _ (emit _) => apply keeps_emit
  | |- keeps _ (bind _ _) => apply keeps_bind
  | |- keeps _ (try_except _ _) => apply keeps_try_except
  | |- keeps _ (try_finally _ _) => apply keeps_try_finally
  | |- keeps _ (modify _) => apply keeps_modify
  | |- keeps _ (if _ then _ else _) => apply keeps_if
  | |- keeps _ (match ?x with _ => _ end) => destruct x eqn:?
  | |- forall _, _ => intros ?
  end.

Lemma same_dirs_path_exists p : keeps same_dirs (OS.path_exists p).
Proof. unfold OS.path_exists. repeat keeps_step. Qed.

Lemma same_dirs_shutil_copy src dst : keeps same_dirs (OS.shutil_copy src dst).
Proof. unfold OS.shutil_copy. repeat keeps_step. done. Qed.

Lemma same_dirs_Path_rename src dst : keeps same_dirs (OS.Path_rename src dst).
Proof. unfold OS.Path_rename. repeat keeps_step; done. Qed.

Lemma same_dirs_remove p : keeps same_dirs (OS.remove p).
Proof. unfold OS.remove. repeat keeps_step. done. Qed.

Lemma same_dirs_soffice soffice outdir input :
  keeps same_dirs (subprocess_run_soffice soffice outdir input).
Proof. unfold subprocess_run_soffice. repeat keeps_step. done. Qed.

Lemma same_dirs_while_exists fuel temp base p c :
  keeps same_dirs (while_exists fuel temp base p c).
Proof.
  revert p c. induction fuel as [|fuel IH]; intros p c; simpl;
    repeat keeps_step; auto using same_dirs_path_exists.
Qed.

Lemma same_dirs_export_entry soffice self temp item :
  keeps same_dirs (export_entry soffice self temp item).
Proof.
  destruct item as [file_id original_path]. unfold export_entry.
  repeat keeps_step;
    auto using same_dirs_path_exists, same_dirs_shutil_copy, same_dirs_soffice,
      same_dirs_while_exists, same_dirs_Path_rename, same_dirs_remove.
Qed.

Lemma os_error_mkdir p : raises_only os_error (OS.mkdir p).
Proof.
  intros s e. unfold OS.mkdir, bind, get, os_error. simpl.
  repeat (case_match; simpl); intros [= <-]; auto.
Qed.

Lemma os_error_Path_mkdir_exist_ok p : raises_only os_error (OS.Path_mkdir_exist_ok p).
Proof.
  intros s e. unfold OS.Path_mkdir_exist_ok, try_except.
  pose proof (os_error_mkdir p s) as Hm.
  destruct (outcome (OS.mkdir p s)) as [|e'|] eqn:Ho; [by rewrite Ho|simpl|by rewrite Ho].
  destruct (Hm e' eq_refl) as [-> | ->]; simpl.
  - unfold bind, get; simpl. case_match; simpl; intros [= <-]; unfold os_error; auto.
  - intros [= <-]; unfold os_error; auto.
Qed.

Lemma mkdir_Return p s u :
  outcome (OS.mkdir p s) = Return u -> OS.is_dir (final (OS.mkdir p s)) p = true.
Proof.
  unfold OS.mkdir, bind, get. simpl.
  repeat (case_match; simpl); try discriminate. intros _.
  unfold OS.is_dir, OS.add_dir; simpl. apply orb_true_iff. left.
  apply bool_decide_eq_true. set_solver.
Qed.

Lemma Path_mkdir_exist_ok_Return p s u :
  outcome (OS.Path_mkdir_exist_ok p s) = Return u ->
  OS.is_dir (final (OS.Path_mkdir_exist_ok p s)) p = true.
Proof.
  unfold OS.Path_mkdir_exist_ok, try_except.
  destruct (outcome (OS.mkdir p s)) as [u'|e|] eqn:Ho.
  - intros _. by apply (mkdir_Return p s u').
  - destruct e; simpl; try discriminate.
    unfold bind, get; simpl. case_match eqn:Hd; simpl; [done|discriminate].
  - rewrite Ho. discriminate.
Qed.

Lemma os_error_Path_mkdir_rev r rparts : raises_only os_error (OS.Path_mkdir_rev r rparts).
Proof.
  induction rparts as [|x up IH]; intros s e; cbn [OS.Path_mkdir_rev]; unfold try_except;
    match goal with
    | |- context [OS.mkdir ?p s] => pose proof (os_error_mkdir p s) as Hm
    end.
  - destruct (outcome (OS.mkdir _ s)) as [|e'|] eqn:Ho; [by rewrite Ho|simpl|by rewrite Ho].
    destruct (Hm e' eq_refl) as [-> | ->]; simpl.
    + unfold bind, get; simpl. case_match; simpl; intros [= <-]; unfold os_error; auto.
    + intros [= <-]; unfold os_error; auto.
  - destruct (outcome (OS.mkdir _ s)) as [|e'|] eqn:Ho; [by rewrite Ho|simpl|by rewrite Ho].
    destruct (Hm e' eq_refl) as [-> | ->]; simpl.
    + unfold bind, get; simpl. case_match; simpl; intros [= <-]; unfold os_error; auto.
    + unfold bind at 1.
      destruct (outcome (OS.Path_mkdir_rev r up _)) as [|e''|] eqn:Hrec; simpl.
      * intros He. by apply os_error_Path_mkdir_exist_ok in He.
      * intros [= <-]. by apply IH in Hrec.
      * discriminate.
Qed.

Lemma Path_mkdir_rev_Return r rparts s u :
  outcome (OS.Path_mkdir_rev r rparts s) = Return u ->
  OS.is_dir (final (OS.Path_mkdir_rev r rparts s)) (PurePath.mk r (rev rparts)) = true.
Proof.
  destruct rparts as [|x up]; cbn [OS.Path_mkdir_rev]; unfold try_except.
  - destruct (outcome (OS.mkdir _ s)) as [u'|e|] eqn:Ho.
    + intros _. by apply (mkdir_Return _ s u').
    + destruct e; simpl; try discriminate.
      unfold bind, get; simpl. case_match eqn:Hd; simpl; [done|discriminate].
    + rewrite Ho. discriminate.
  - destruct (outcome (OS.mkdir _ s)) as [u'|e|] eqn:Ho.
    + intros _. by apply (mkdir_Return _ s u').
    + destruct e; simpl; try discriminate.
      * unfold bind, get; simpl. case_match eqn:Hd; simpl; [done|discriminate].
      * unfold bind.
        destruct (outcome (OS.Path_mkdir_rev r up _)) as [|e''|] eqn:Hrec; simpl; try discriminate.
        apply Path_mkdir_exist_ok_Return.
    + rewrite Ho. discriminate.
Qed.

Lemma Path_mkdir_parents_Return p s u :
  outcome (OS.Path_mkdir_parents p s) = Return u ->
  OS.is_dir (final (OS.Path_mkdir_parents p s)) p = true.
Proof.
  unfold OS.Path_mkdir_parents. intros H. apply Path_mkdir_rev_Return in H.
  rewrite rev_involutive in H. by destruct p.
Qed.

Lemma exists_delete_tree d s :
  PurePath.parts d <> [] -> OS.exists_ (OS.delete_tree d s) d = false.
Proof.
  intros Hparts. unfold OS.exists_, OS.is_file, OS.is_dir, OS.delete_tree; simpl.
  assert (OS.under d d) as Hu by (split; [done|reflexivity]).
  apply orb_false_iff. split; [|apply orb_false_iff; split].
  - apply bool_decide_eq_false. intros [c Hc].
    apply map_lookup_filter_Some in Hc as [_ Hc]. simpl in Hc. done.
  - apply bool_decide_eq_false. intros Hin. apply elem_of_filter in Hin as [Hin _]. done.
  - by apply bool_decide_eq_false.
Qed.

Lemma temp_dir_parts (cwd : PurePath.t) uuid_a :
  PurePath.parts (cwd </> ("temp_pdf_export_" +:+ uuid_a)) <> [].
Proof.
  unfold PurePath.joinpath; simpl.
  destruct (PurePath.split _) as [|h tl]; simpl; intros H; by apply app_eq_nil in H as [_ ?].
Qed.

(** *** Which exceptions the pipeline raises *)

Section raises_facts.
Context {S : Type} (P : exn -> Prop).

Lemma raises_ret {A} (a : A) : raises_only P (ret (S := S) a).
Proof. intros s e. discriminate. Qed.
Lemma raises_raise {A} e : P e -> raises_only P (raise (S := S) (A := A) e).
Proof. intros He s e' [= <-]. done. Qed.
Lemma raises_diverge {A} : raises_only P (diverge (S := S) (A := A)).
Proof. intros s e. discriminate. Qed.
Lemma raises_get : raises_only P (get (S := S)).
Proof. intros s e. discriminate. Qed.
Lemma raises_emit ev : raises_only P (emit (S := S) ev).
Proof. intros s e. discriminate. Qed.
Lemma raises_modify f : raises_only P (modify (S := S) f).
Proof. intros s e. discriminate. Qed.

Lemma raises_bind {A B} (m : Eff S A) (k : A -> Eff S B) :
  raises_only P m -> (forall a, raises_only P (k a)) -> raises_only P (bind m k).
Proof.
intros Hm Hk s e. unfold bind. specialize (Hm s).
destruct (outcome (m s)) as [a|e'|]; cbn [outcome]; [apply Hk| |discriminate].
intros [= <-]. by apply Hm.
Qed.

Lemma raises_reraise {A} (m : Eff S A) :
  raises_only P m -> raises_only P (try_except m (fun e => raise e)).
Proof.
intros Hm s e. unfold try_except. specialize (Hm s).
destruct (outcome (m s)) as [a|e'|] eqn:Ho; [by rewrite Ho| |by rewrite Ho].
cbn [outcome raise]. intros [= <-]. by apply Hm.
Qed.

Lemma raises_try_finally {A} (m : Eff S A) (c : Eff S unit) :
  raises_only P m -> raises_only P c -> raises_only P (try_finally m c).
Proof.
intros Hm Hc s e. unfold try_finally. specialize (Hm s). specialize (Hc (final (m s))).
destruct (outcome (m s)) as [a|e'|] eqn:Ho; [| |by rewrite Ho];
  destruct (outcome (c (final (m s)))) as [u|e''|]; cbn [outcome];
  try discriminate; intros [= <-]; auto.
Qed.

Lemma raises_for_each {A} (xs : list A) (body : A -> Eff S unit) :
  (forall x, raises_only P (body x)) -> raises_only P (for_each xs body).
Proof.
intros Hb. induction xs as [|x xs IH]; simpl.
- apply raises_ret.
- by apply raises_bind.
Qed.

Lemma raises_if {A} (b : bool) (m1 m2 : Eff S A) :
  raises_only P m1 -> raises_only P m2 -> raises_only P (if b then m1 else m2).
Proof. by destruct b. Qed.
End raises_facts.

Ltac raises_step :=
  lazymatch goal with
  | |- raises_only _ (ret _) => apply raises_ret
  | |- raises_only _ (raise _) => apply raises_raise
  | |- raises_only _ diverge => apply raises_diverge
  | |- raises_only _ get => apply raises_get
  | |- raises_only _ (emit _) => apply raises_emit
  | |- raises_only _ (modify _) => apply raises_modify
  | |- raises_only _ (bind _ _) => apply raises_bind
  | |- raises_only _ (try_finally _ _) => apply raises_try_finally
  | |- raises_only _ (try_except _ (fun e => raise e)) => apply raises_reraise
  | |- raises_only _ (if _ then _ else _) => apply raises_if
  | |- raises_only _ (match ?x with _ => _ end) => destruct x eqn:?
  | |- forall _, _ => intros ?
  end.

Lemma os_error_not_conversion_failure {S A} (m : Eff S A) :
  raises_only os_error m -> raises_only not_conversion_failure m.
Proof. intros H s e He. apply H in He as [-> | ->]; discriminate. Qed.

Lemma not_conversion_failure_while_exists fuel temp base p c :
  raises_only not_conversion_failure (while_exists fuel temp base p c).
Proof.
revert p c. induction fuel as [|fuel IH]; intros p c; simpl;
  unfold OS.path_exists; repeat raises_step; auto.
Qed.

(** [CalledProcessError] is the exception of a failed conversion and of
    nothing else: while the converter does not exit with a non-zero
    status, [export] does not raise it. *)
Lemma export_raises_CalledProcessError_only_on_failure soffice self temp :
  (forall s input, soffice s input <> ExitNonZero) ->
  raises_only not_conversion_failure (export soffice self temp).
Proof.
intros Hok. unfold export. apply raises_bind.
{ apply os_error_not_conversion_failure, os_error_Path_mkdir_rev. }
intros _. apply raises_for_each. intros [file_id original_path].
unfold export_entry, OS.shutil_copy, OS.path_exists, OS.Path_rename, OS.remove,
  subprocess_run_soffice.
repeat raises_step;
  try (unfold not_conversion_failure; discriminate);
  try apply not_conversion_failure_while_exists.
exfalso. eapply Hok. eassumption.
Qed.

(** Running a computation step by step. *)
Section step_facts.
Context {S A B : Type}.
Implicit Types (m : Eff S A) (k : A -> Eff S B) (s : S).

Lemma bind_Return_eq m k s a s' t o s'' t' :
m s = Run (Return a) s' t -> k a s' = Run o s'' t' ->
bind m k s = Run o s'' (t ++ t').
Proof. intros Hm Hk. unfold bind. by rewrite Hm; cbn [outcome final trace]; rewrite Hk. Qed.

Lemma bind_Raise_eq m k s e s' t :
m s = Run (Raise e) s' t -> bind m k s = Run (Raise e) s' t.
Proof. intros Hm. unfold bind. by rewrite Hm. Qed.

Lemma try_except_Return_eq m (h : exn -> Eff S A) s a s' t :
m s = Run (Return a) s' t -> try_except m h s = Run (Return a) s' t.
Proof. intros Hm. unfold try_except. by rewrite Hm. Qed.

Lemma try_except_Raise_eq m (h : exn -> Eff S A) s e s' t o s'' t' :
m s = Run (Raise e) s' t -> h e s' = Run o s'' t' ->
try_except m h s = Run o s'' (t ++ t').
Proof. intros Hm Hh. unfold try_except. by rewrite Hm; cbn [outcome final trace]; rewrite Hh. Qed.

Lemma try_finally_Return_eq m (c : Eff S unit) s a s' t u s'' t' :
m s = Run (Return a) s' t -> c s' = Run (Return u) s'' t' ->
try_finally m c s = Run (Return a) s'' (t ++ t').
Proof. intros Hm Hc. unfold try_finally. by rewrite Hm; cbn [outcome final trace]; rewrite Hc. Qed.

Lemma try_finally_final_eq m (c : Eff S unit) s a s' t :
m s = Run (Return a) s' t -> final (try_finally m c s) = final (c s').
Proof.
intros Hm. unfold try_finally. rewrite Hm; cbn [outcome final trace].
by destruct (outcome (c s')).
Qed.
End step_facts.

Lemma on_fs_eq {A} (m : Eff FS A) (w : World) :
  on_fs m w = Run (outcome (m (fs w))) {| model := model w; fs := final (m (fs w)) |}
                  (trace (m (fs w))).
Proof. reflexivity. Qed.

Lemma update_status_count_eq text (w : World) :
  update_status_count text w = Run (Return tt) w [UpdateStatus (get_file_count (model w)) text].
Proof. reflexivity. Qed.

Lemma handle_reset_eq (w : World) :
  exists t, handle_reset w = Run (Return tt) {| model := Model_init; fs := fs w |} t.
Proof. eexists. reflexivity. Qed.

(** The cleanup of [_run_export_in_thread] when the temporary directory
    is there. *)
Lemma cleanup_removes_temp_dir temp_dir (w : World) :
  temp_dir ∈ dirs (fs w) ->
  (let* w' := get in
   (if OS.exists_ (fs w') temp_dir then on_fs (OS.shutil_rmtree temp_dir) else ret tt) >>
   emit (SetControlStates true)) w
  = Run (Return tt) {| model := model w; fs := OS.delete_tree temp_dir (fs w) |}
        [SetControlStates true].
Proof.
  intros Hin.
  assert (OS.exists_ (fs w) temp_dir = true) as Hexists.
  { unfold OS.exists_, OS.is_dir. rewrite (bool_decide_eq_true_2 _ Hin).
    by rewrite orb_true_r. }
  etransitivity.
  { eapply bind_Return_eq; [reflexivity|]. rewrite Hexists.
    eapply bind_Return_eq; [|reflexivity].
    rewrite on_fs_eq. unfold OS.shutil_rmtree, bind, get. cbn [outcome final trace].
    rewrite (bool_decide_eq_true_2 _ Hin). reflexivity. }
  reflexivity.
Qed.

#[local] Instance same_model_preorder : PreOrder same_model.
Proof.
  split; [intros x; reflexivity|].
  intros x y z Hxy Hyz. unfold same_model in *. congruence.
Qed.

Lemma same_model_on_fs {A} (m : Eff FS A) : keeps same_model (on_fs m).
Proof. intros w. reflexivity. Qed.

(** C10.  When [Model.export] and [Model.create_zip_archive] both return,
    the model after [_run_export_in_thread] is the initial one: no entry,
    a count of 0, the counter back at 1, and the next file added gets
    id 1. *)
Theorem successful_export_resets_catalog (soffice : FS -> PurePath.t -> soffice_exit)
    (cwd : PurePath.t) (uuid_a uuid_b directory : string) (w : World) :
  let temp_dir := cwd </> ("temp_pdf_export_" +:+ uuid_a) in
  let exported := export soffice (model w) temp_dir (fs w) in
  outcome exported = Return tt ->
  (exists zip_file_path,
      outcome (create_zip_archive temp_dir directory (zip_filename_of directory uuid_b)
                 (final exported)) = Return zip_file_path) ->
  let after := model (final (_run_export_in_thread soffice cwd uuid_a uuid_b directory w)) in
  after = Model_init /\
  get_file_count after = 0 /\
  counter after = 1 /\
  forall absolute_path file_stem file_suffix ask_confirm_func,
    outcome (add_file absolute_path file_stem file_suffix ask_confirm_func after)
    = Return (Some (1, file_stem, file_suffix)).
Proof.
  intros temp_dir exported Hexp [zip_file_path Hzip] after.
  assert (after = Model_init) as ->; [|split_and!; reflexivity].
  subst after. unfold _run_export_in_thread. fold temp_dir.
  set (zipped := create_zip_archive temp_dir directory (zip_filename_of directory uuid_b)
                   (final exported)) in *.
  destruct (handle_reset_eq {| model := model w; fs := final zipped |}) as [t Hreset].
  erewrite try_finally_final_eq.
  2:{ eapply try_except_Return_eq.
      eapply bind_Return_eq; [apply update_status_count_eq|].
      eapply bind_Return_eq; [reflexivity|].
      eapply bind_Return_eq.
      { rewrite on_fs_eq. fold exported. rewrite Hexp. reflexivity. }
      eapply bind_Return_eq; [apply update_status_count_eq|].
      eapply bind_Return_eq; [reflexivity|].
      eapply bind_Return_eq.
      { rewrite on_fs_eq. cbn [fs model]. fold (zip_filename_of directory uuid_b).
        fold zipped. rewrite Hzip. reflexivity. }
      eapply bind_Return_eq; [reflexivity|].
      exact Hreset. }
  set (w2 := {| model := Model_init; fs := final zipped |}).
  change Model_init with (model w2) at 2.
  assert (keeps same_model
            (let* w' := get in
             (if OS.exists_ (fs w') temp_dir then on_fs (OS.shutil_rmtree temp_dir) else ret tt) >>
             emit (SetControlStates true))) as Hkeeps.
  { repeat keeps_step; auto using same_model_on_fs. }
  apply Hkeeps.
Qed.

(** ** Strings and paths *)

Lemma append_cons (c : ascii) (s t : string) : String c s +:+ t = String c (s +:+ t).
Proof. reflexivity. Qed.

Lemma append_empty_l (t : string) : "" +:+ t = t.
Proof. reflexivity. Qed.

Lemma length_append (s t : string) :
  String.length (s +:+ t) = (String.length s + String.length t)%nat.
Proof. induction s as [|c s IH]; [done|]. rewrite append_cons. simpl. by rewrite IH. Qed.

Lemma append_inv_tail (s1 s2 t : string) : s1 +:+ t = s2 +:+ t -> s1 = s2.
Proof.
  revert s2. induction s1 as [|c s1 IH]; intros [|d s2] H;
    rewrite ?append_cons, ?append_empty_l in H.
  - done.
  - exfalso. apply (f_equal String.length) in H. simpl in H.
    rewrite length_append in H. lia.
  - exfalso. apply (f_equal String.length) in H. simpl in H.
    rewrite length_append in H. lia.
  - injection H as -> H. f_equal. by apply IH.
Qed.

Lemma contains_sep_append (s t : string) :
  PurePath.contains_sep (s +:+ t) = PurePath.contains_sep s || PurePath.contains_sep t.
Proof.
  induction s as [|c s IH]; [done|].
  rewrite append_cons. simpl. by rewrite IH, orb_assoc.
Qed.

Lemma contains_sep_pretty_N_go (x : N) (s : string) :
  PurePath.contains_sep (pretty_N_go x s) = PurePath.contains_sep s.
Proof.
  revert s. induction (N.lt_wf_0 x) as [x _ IH]; intros s.
  assert (x = 0 \/ 0 < x)%N as [->|Hpos] by lia.
  - by rewrite pretty_N_go_0.
  - rewrite pretty_N_go_step by done. rewrite IH by (by apply N.div_lt).
    simpl. unfold pretty_N_char. by repeat case_match.
Qed.

Lemma contains_sep_pretty_Z (k : Z) : PurePath.contains_sep (pretty k) = false.
Proof.
  assert (forall p : positive, PurePath.contains_sep (pretty p) = false) as Hpos.
  { intros p. unfold pretty, pretty_positive, pretty, pretty_N.
    case_decide; [done|]. by rewrite contains_sep_pretty_N_go. }
  destruct k as [|p|p]; unfold pretty at 1, pretty_Z; [done|auto|].
  rewrite contains_sep_append, Hpos. done.
Qed.

Lemma split_not_nil (s : string) : PurePath.split s <> [].
Proof. induction s as [|c s IH]; simpl; [done|]. by repeat case_match. Qed.

Lemma split_no_sep (t : string) : PurePath.contains_sep t = false -> PurePath.split t = [t].
Proof.
  induction t as [|c t IH]; simpl; [done|].
  intros [Hc Ht]%orb_false_iff. rewrite Hc, IH by done. done.
Qed.

(** Appending text without separator extends the last component. *)
Lemma split_append (a t : string) :
  PurePath.contains_sep t = false ->
  PurePath.split (a +:+ t)
  = (removelast (PurePath.split a) ++ [List.last (PurePath.split a) "" +:+ t])%list.
Proof.
  intros Ht. induction a as [|c a IH]; rewrite ?append_cons, ?append_empty_l; simpl.
  - by apply split_no_sep.
  - pose proof (split_not_nil a) as Hne. rewrite IH.
    destruct (PurePath.split a) as [|h tl]; [done|].
    destruct (Ascii.eqb c "/").
    + destruct tl; simpl; done.
    + destruct tl as [|h' tl]; simpl; done.
Qed.

Lemma kept_tagged (l x : string) : PurePath.kept (l +:+ String "_" x) = true.
Proof.
  unfold PurePath.kept. destruct l as [|c l]; [done|]. rewrite append_cons.
  apply andb_true_iff. split; [done|]. simpl.
  destruct (Ascii.eqb c "."); [|done].
  destruct l; done.
Qed.

Lemma filter_app_last {A} (f : A -> bool) (l : list A) (x : A) :
  f x = true -> List.filter f (l ++ [x]) = (List.filter f l ++ [x])%list.
Proof. intros Hx. rewrite List.filter_app. simpl. by rewrite Hx. Qed.

Lemma no_sep_is_absolute (t : string) :
  PurePath.contains_sep t = false -> PurePath.is_absolute t = false.
Proof. destruct t as [|c t]; [done|]. simpl. by intros [? _]%orb_false_iff. Qed.

Lemma no_sep_behead (t : string) :
  PurePath.contains_sep t = false -> PurePath.contains_sep (PurePath.behead t) = false.
Proof. destruct t as [|c t]; [done|]. simpl. by intros [_ ?]%orb_false_iff. Qed.

Lemma is_absolute_append (a t t' : string) :
  PurePath.contains_sep t = false -> PurePath.contains_sep t' = false ->
  PurePath.is_absolute (a +:+ t) = PurePath.is_absolute (a +:+ t').
Proof.
  intros Ht Ht'. destruct a as [|c a]; rewrite ?append_cons, ?append_empty_l; [|done].
  by rewrite !no_sep_is_absolute.
Qed.

Lemma behead_append_cons (c : ascii) (a t : string) :
  PurePath.behead (String c a +:+ t) = a +:+ t.
Proof. reflexivity. Qed.

Lemma splitroot_append (a t t' : string) :
  PurePath.contains_sep t = false -> PurePath.contains_sep t' = false ->
  PurePath.splitroot (a +:+ t) = PurePath.splitroot (a +:+ t').
Proof.
  intros Ht Ht'. unfold PurePath.splitroot.
  rewrite (is_absolute_append a t t') by done.
  destruct a as [|c a]; rewrite ?append_empty_l.
  { by rewrite (no_sep_is_absolute t') by done. }
  rewrite !behead_append_cons, (is_absolute_append a t t') by done.
  destruct a as [|c' a]; rewrite ?append_empty_l.
  { rewrite ?(no_sep_is_absolute t), ?(no_sep_is_absolute t') by done.
    by rewrite ?(no_sep_is_absolute (PurePath.behead t)),
      ?(no_sep_is_absolute (PurePath.behead t')) by (by apply no_sep_behead). }
  by rewrite !behead_append_cons, (is_absolute_append a t t') by done.
Qed.

(** A name [base ++ tail], where [tail] has no separator and the last
    component obtained is kept, is joined below [temp] as a fixed list of
    components followed by the last component of [base] extended by
    [tail]. *)
Lemma joinpath_tail (temp : PurePath.t) (base : string) :
  exists (r : string) (pre : list string) (l : string),
    forall tail,
      PurePath.contains_sep tail = false ->
      PurePath.kept (l +:+ tail) = true ->
      temp </> (base +:+ tail) = PurePath.mk r (pre ++ [l +:+ tail]).
Proof.
  set (init := List.filter PurePath.kept (removelast (PurePath.split base))).
  set (l := List.last (PurePath.split base) "").
  destruct (PurePath.is_absolute (base +:+ "_")) eqn:Habs.
  - exists (PurePath.splitroot (base +:+ "_")), init, l. intros tail Hsep Hk.
    unfold PurePath.joinpath. rewrite (is_absolute_append base tail "_"), Habs by done.
    unfold PurePath.of_str.
    rewrite split_append, filter_app_last by done.
    by rewrite (splitroot_append base tail "_").
  - exists (PurePath.root temp), (PurePath.parts temp ++ init)%list, l. intros tail Hsep Hk.
    unfold PurePath.joinpath. rewrite (is_absolute_append base tail "_"), Habs by done.
    rewrite split_append, filter_app_last by done. by rewrite app_assoc.
Qed.

Lemma candidate_inj temp base : Inj (=) (=) (candidate temp base).
Proof.
  destruct (joinpath_tail temp base) as (r & pre & l & Hjoin).
  intros j k Heq. unfold candidate in Heq.
  assert (forall i : Z, PurePath.contains_sep ("_" +:+ pretty i +:+ ".pdf") = false) as Hsep.
  { intros i. rewrite !contains_sep_append, contains_sep_pretty_Z. done. }
  rewrite !Hjoin in Heq by (done || apply kept_tagged).
  injection Heq as Heq. apply app_inv_head in Heq. injection Heq as Heq.
  apply (inj (String.app l)) in Heq. injection Heq as Heq.
  rewrite !append_empty_l in Heq.
  apply append_inv_tail in Heq. by apply (inj pretty) in Heq.
Qed.

Lemma candidate_parts temp base k : PurePath.parts (candidate temp base k) <> [].
Proof.
  destruct (joinpath_tail temp base) as (r & pre & l & Hjoin).
  unfold candidate. rewrite Hjoin.
  - simpl. intros H. by apply app_eq_nil in H as [_ ?].
  - rewrite !contains_sep_append, contains_sep_pretty_Z. done.
  - apply kept_tagged.
Qed.

Lemma while_exists_unfold fuel temp base p c s :
  while_exists fuel temp base p c s
  = if OS.exists_ s p
    then match fuel with
         | O => Run Diverge s []
         | S fuel' => while_exists fuel' temp base (candidate temp base c) (c + 1) s
         end
    else Run (Return p) s [].
Proof.
  destruct fuel as [|fuel]; cbn [while_exists]; unfold bind, OS.path_exists, get, ret; simpl;
    destruct (OS.exists_ s p); try done.
  apply run_eta.
Qed.

(** What a scan from candidate [c] finds with [fuel] iterations. *)
Lemma while_exists_scan fuel temp base p c s :
  (exists q,
      while_exists fuel temp base p c s = Run (Return q) s [] /\
      OS.exists_ s q = false /\
      (q = p \/
       (OS.exists_ s p = true /\
        exists k, c <= k /\ q = candidate temp base k /\
                  Forall (fun j => OS.exists_ s (candidate temp base j) = true)
                         (seqZ c (k - c))))) \/
  (while_exists fuel temp base p c s = Run Diverge s [] /\
   OS.exists_ s p = true /\
   Forall (fun j => OS.exists_ s (candidate temp base j) = true) (seqZ c (Z.of_nat fuel))).
Proof.
  revert p c. induction fuel as [|fuel IH]; intros p c; rewrite while_exists_unfold;
    destruct (OS.exists_ s p) eqn:Hp; try (left; exists p; by auto).
  - right. split_and!; [done..|]. constructor.
  - destruct (IH (candidate temp base c) (c + 1))
      as [(q & -> & Hfree & Hq)|(-> & Hc & Hall)].
    + left. exists q. split_and!; [done..|]. right. split; [done|].
      destruct Hq as [->|(Hc & k & Hk & -> & Hall)].
      * exists c. split_and!; [lia|done|]. replace (c - c) with 0 by lia. constructor.
      * exists k. split_and!; [lia|done|].
        rewrite (seqZ_cons c (k - c)) by lia. constructor; [done|].
        by replace (Z.pred (k - c)) with (k - (c + 1)) by lia.
    + right. split_and!; [done..|].
      rewrite seqZ_cons by lia. constructor; [done|].
      by replace (Z.pred (Z.of_nat (S fuel))) with (Z.of_nat fuel) by lia.
Qed.

(** Pairwise different candidates cannot all exist: there are more of
    them than entries in the file system. *)
Lemma candidates_not_all_exist temp base c s :
  ~ Forall (fun j => OS.exists_ s (candidate temp base j) = true)
           (seqZ c (Z.of_nat (enough_fuel s))).
Proof.
  intros Hall.
  set (L := candidate temp base <$> seqZ c (Z.of_nat (enough_fuel s))).
  assert (NoDup L) as Hnd.
  { pose proof (candidate_inj temp base). apply (NoDup_fmap_2 _), NoDup_seqZ. }
  assert (list_to_set L ⊆ dom (files s) ∪ dirs s) as Hsub.
  { intros x (j & -> & Hj)%elem_of_list_to_set%list_elem_of_fmap.
    rewrite Forall_forall in Hall. specialize (Hall j Hj).
    unfold OS.exists_, OS.is_file, OS.is_dir in Hall.
    apply orb_true_iff in Hall as [Hf|[Hd|Hroot]%orb_true_iff].
    - apply bool_decide_eq_true in Hf. apply elem_of_union_l, elem_of_dom. done.
    - apply bool_decide_eq_true in Hd. by apply elem_of_union_r.
    - apply bool_decide_eq_true in Hroot. by apply candidate_parts in Hroot. }
  apply subseteq_size in Hsub. rewrite size_list_to_set in Hsub by done.
  unfold L in Hsub. rewrite length_fmap, length_seqZ in Hsub.
  pose proof (size_union_alt (dom (files s)) (dirs s)) as Hu.
  assert (size (dirs s ∖ dom (files s)) <= size (dirs s))%nat
    by (apply subseteq_size; set_solver).
  rewrite size_dom in Hu. unfold enough_fuel in Hsub. lia.
Qed.

(** The loop of [export] always ends, on the first free path. *)
Lemma while_exists_first_free (s : FS) (temp_outdir : PurePath.t) (final_name_base : string) :
  exists pdf_new_path,
    while_exists (enough_fuel s) temp_outdir final_name_base
      (temp_outdir </> (final_name_base +:+ ".pdf")) 1 s
    = Run (Return pdf_new_path) s [] /\
    first_free s temp_outdir final_name_base pdf_new_path.
Proof.
  set (first := temp_outdir </> (final_name_base +:+ ".pdf")). unfold first_free. fold first.
  destruct (while_exists_scan (enough_fuel s) temp_outdir final_name_base first 1 s)
    as [H|(_ & _ & Hall)]; [done|].
  by apply candidates_not_all_exist in Hall.
Qed.

Lemma shutil_copy_exists src dst s u :
  outcome (OS.shutil_copy src dst s) = Return u ->
  OS.exists_ (final (OS.shutil_copy src dst s)) dst = true.
Proof.
  unfold OS.shutil_copy, bind, get. cbn [outcome final trace].
  destruct (OS.is_dir s dst) eqn:Hd.
  - intros _. unfold OS.exists_. apply orb_true_iff. right.
    destruct (files s !! src); repeat (case_match; try done).
  - destruct (files s !! src); repeat (case_match; try done); simpl; try discriminate.
    intros _. unfold OS.exists_, OS.is_file, OS.write_file; simpl.
    apply orb_true_iff. left. apply bool_decide_eq_true. rewrite lookup_insert_eq. eauto.
Qed.

Lemma soffice_keeps_existing soffice outdir input s p :
  OS.exists_ s p = true ->
  OS.exists_ (final (subprocess_run_soffice soffice outdir input s)) p = true.
Proof.
  unfold subprocess_run_soffice, bind, get. cbn [outcome final trace].
  intros Hp. destruct (soffice _ _); try done.
  destruct (files s !! _); [|done]. simpl.
  unfold OS.exists_, OS.is_file, OS.is_dir, OS.write_file in *; simpl.
  apply orb_true_iff in Hp as [Hf|Hd]; apply orb_true_iff; [left|by right].
  apply bool_decide_eq_true in Hf. apply bool_decide_eq_true.
  destruct (decide (PurePath.of_str outdir </> (PurePath.stem (PurePath.of_str input) +:+ ".pdf") = p)) as [->|Hne].
  - rewrite lookup_insert_eq. eauto.
  - by rewrite lookup_insert_ne.
Qed.

Lemma bind_Run {S A B} (m : Eff S A) (k : A -> Eff S B) s a s' t :
  m s = Run (Return a) s' t ->
  bind m k s = Run (outcome (k a s')) (final (k a s')) (t ++ trace (k a s')).
Proof. intros H. unfold bind. by rewrite H. Qed.

Lemma path_exists_Run p s : OS.path_exists p s = Run (Return (OS.exists_ s p)) s [].
Proof. reflexivity. Qed.

Lemma get_Run {S} (s : S) : get s = Run (Return s) s [].
Proof. reflexivity. Qed.

Section eff_more.
Context {S A : Type}.

Lemma try_except_Return (m : Eff S A) h s a :
  outcome (m s) = Return a -> try_except m h s = m s.
Proof. intros H. unfold try_except. by rewrite H. Qed.

Lemma try_finally_final (m : Eff S A) (c : Eff S unit) s a :
  outcome (m s) = Return a -> final (try_finally m c s) = final (c (final (m s))).
Proof. intros H. unfold try_finally. rewrite H. by destruct (outcome (c _)). Qed.
End eff_more.

Lemma Path_rename_moves src dst s c :
  files s !! src = Some c ->
  OS.exists_ s dst = false ->
  OS.is_dir s (PurePath.parent dst) = true ->
  OS.Path_rename src dst s
  = Run (Return tt) (OS.write_file dst c (OS.delete_file src s)) [].
Proof.
  intros Hsrc Hdst Hparent. unfold OS.Path_rename, bind, get. cbn [outcome final trace].
  rewrite Hsrc.
  assert (src <> dst) as Hne.
  { intros ->. unfold OS.exists_, OS.is_file in Hdst. rewrite Hsrc in Hdst.
    rewrite bool_decide_eq_true_2 in Hdst by eauto. done. }
  rewrite bool_decide_eq_false_2 by done.
  apply orb_false_iff in Hdst as [_ ->]. rewrite Hparent. reflexivity.
Qed.

Lemma staged_cleanup_keeps staged s q c :
  files s !! q = Some c -> staged <> q ->
  files (final ((let* present := OS.path_exists staged in
                 if present then OS.remove staged else ret tt) s)) !! q = Some c.
Proof.
  intros Hq Hne. unfold bind, OS.path_exists, OS.remove, get, ret. simpl.
  destruct (OS.exists_ s staged); simpl; [|done].
  destruct (OS.is_file s staged); simpl.
  - by rewrite lookup_delete_ne.
  - by destruct (OS.is_dir s staged).
Qed.

(** One entry of the export.  If the staging copy and the conversion
    succeed and the converter's output [c] is in the working directory,
    the entry's final path is the first free one among [stem.pdf],
    [stem_1.pdf], [stem_2.pdf], ...; and when that path can be written
    (its directory exists) the output ends there. *)
Lemma export_entry_places_pdf soffice self temp file_id original_path e s c :
  PyDict.get file_id (file_element_dict self) = Some e ->
  let staged := temp </> (pretty file_id +:+ "_" +:+ PurePath.name (PurePath.of_str original_path)) in
  let generated := temp </> (PurePath.stem staged +:+ ".pdf") in
  let copied := OS.shutil_copy (PurePath.of_str original_path) staged s in
  let converted :=
    subprocess_run_soffice soffice (PurePath.str temp) (PurePath.str staged) (final copied) in
  outcome copied = Return tt ->
  outcome converted = Return tt ->
  files (final converted) !! generated = Some c ->
  exists pdf_new_path,
    first_free (final converted) temp (elem_stem e) pdf_new_path /\
    (OS.is_dir (final converted) (PurePath.parent pdf_new_path) = true ->
     files (final (export_entry soffice self temp (file_id, original_path) s)) !! pdf_new_path
     = Some c).
Proof.
  intros Hget staged generated copied converted Hcopy Hconv Hgen.
  destruct (while_exists_first_free (final converted) temp (elem_stem e))
    as (q & Hloop & Hfree & Hq).
  exists q. split; [by split|]. intros Hparent.
  assert (OS.exists_ (final converted) staged = true) as Hstaged.
  { apply soffice_keeps_existing. by eapply shutil_copy_exists. }
  assert (staged <> q) as Hne by (intros ->; congruence).
  unfold export_entry. rewrite Hget. fold staged. fold generated.
  rewrite (bind_Return _ _ _ _ Hcopy). cbn [outcome final trace]. fold copied.
  set (body := bind (subprocess_run_soffice soffice _ _) _).
  assert (outcome (body (final copied)) = Return tt /\
          final (body (final copied))
          = OS.write_file q c (OS.delete_file generated (final converted))) as [Hout Hfin].
  { unfold body. rewrite (bind_Return _ _ _ _ Hconv). fold converted.
    cbn [outcome final trace].
    rewrite (bind_Run _ _ _ _ _ _ (get_Run _)). cbn [outcome final trace].
    rewrite (bind_Run _ _ _ _ _ _ Hloop). cbn [outcome final trace].
    rewrite (bind_Run _ _ _ _ _ _ (path_exists_Run _ _)). cbn [outcome final trace].
    assert (OS.exists_ (final converted) generated = true) as ->.
    { unfold OS.exists_, OS.is_file. rewrite Hgen.
      rewrite bool_decide_eq_true_2 by eauto. done. }
    rewrite (Path_rename_moves generated q (final converted) c) by done.
    done. }
  rewrite (try_finally_final _ _ _ tt).
  2:{ by rewrite (try_except_Return _ _ _ tt). }
  rewrite (try_except_Return _ _ _ tt) by done. rewrite Hfin.
  apply staged_cleanup_keeps; [|done].
  unfold OS.write_file; simpl. apply lookup_insert_eq.
Qed.

(** *** When the pipeline ends *)

Section terminates_facts.
Context {S : Type}.

Lemma terminates_ret {A} (a : A) : terminates (ret (S := S) a).
Proof. intros s. discriminate. Qed.
Lemma terminates_raise {A} e : terminates (raise (S := S) (A := A) e).
Proof. intros s. discriminate. Qed.
Lemma terminates_get : terminates (get (S := S)).
Proof. intros s. discriminate. Qed.
Lemma terminates_emit ev : terminates (emit (S := S) ev).
Proof. intros s. discriminate. Qed.
Lemma terminates_modify f : terminates (modify (S := S) f).
Proof. intros s. discriminate. Qed.

Lemma bind_not_Diverge {A B} (m : Eff S A) (k : A -> Eff S B) s :
  outcome (m s) <> Diverge -> (forall a, terminates (k a)) ->
  outcome (bind m k s) <> Diverge.
Proof.
intros Hm Hk. unfold bind.
destruct (outcome (m s)) as [a|e|]; cbn [outcome]; [apply Hk|discriminate|done].
Qed.

Lemma terminates_bind {A B} (m : Eff S A) (k : A -> Eff S B) :
  terminates m -> (forall a, terminates (k a)) -> terminates (bind m k).
Proof. intros Hm Hk s. by apply bind_not_Diverge. Qed.

Lemma terminates_bind_get {B} (k : S -> Eff S B) :
  (forall s, outcome (k s s) <> Diverge) -> terminates (bind get k).
Proof. intros Hk s. unfold bind, get. cbn [outcome final]. apply Hk. Qed.

Lemma terminates_try_except {A} (m : Eff S A) (h : exn -> Eff S A) :
  terminates m -> (forall e, terminates (h e)) -> terminates (try_except m h).
Proof.
intros Hm Hh s. unfold try_except. specialize (Hm s).
destruct (outcome (m s)) as [a|e|] eqn:Ho; [by rewrite Ho|apply Hh|done].
Qed.

Lemma terminates_try_finally {A} (m : Eff S A) (c : Eff S unit) :
  terminates m -> terminates c -> terminates (try_finally m c).
Proof.
intros Hm Hc s. unfold try_finally. specialize (Hm s). specialize (Hc (final (m s))).
destruct (outcome (m s)) as [a|e|] eqn:Ho; [| |done];
  destruct (outcome (c (final (m s)))) as [u|e'|]; cbn [outcome]; done.
Qed.

Lemma terminates_for_each {A} (xs : list A) (body : A -> Eff S unit) :
  (forall x, terminates (body x)) -> terminates (for_each xs body).
Proof.
intros Hb. induction xs as [|x xs IH]; simpl.
- apply terminates_ret.
- by apply terminates_bind.
Qed.

Lemma terminates_if {A} (b : bool) (m1 m2 : Eff S A) :
  terminates m1 -> terminates m2 -> terminates (if b then m1 else m2).
Proof. by destruct b. Qed.
End terminates_facts.

Ltac terminates_step :=
  lazymatch goal with
  | |- terminates (ret _) => apply terminates_ret
  | |- terminates (raise _) => apply terminates_raise
  | |- terminates get => apply terminates_get
  | |- terminates (emit _) => apply terminates_emit
  | |- terminates (modify _) => apply terminates_modify
  | |- terminates (bind _ _) => apply terminates_bind
  | |- terminates (try_except _ _) => apply terminates_try_except
  | |- terminates (try_finally _ _) => apply terminates_try_finally
  | |- terminates (for_each _ _) => apply terminates_for_each
  | |- terminates (if _ then _ else _) => apply terminates_if
  | |- terminates (match ?x with _ => _ end) => destruct x eqn:?
  | |- forall _, _ => intros ?
  end.

Lemma terminates_Path_mkdir_rev r rparts : terminates (OS.Path_mkdir_rev r rparts).
Proof.
induction rparts as [|x up IH]; cbn [OS.Path_mkdir_rev];
  unfold OS.Path_mkdir_exist_ok, OS.mkdir; repeat terminates_step; try done.
Qed.

Lemma terminates_zoom {S T A} (proj : T -> S) (upd : S -> T -> T) (m : Eff S A) :
  terminates m -> terminates (zoom proj upd m).
Proof. intros Hm t. apply Hm. Qed.

Lemma terminates_path_exists p : terminates (OS.path_exists p).
Proof. unfold OS.path_exists. repeat terminates_step. Qed.

Lemma terminates_shutil_copy src dst : terminates (OS.shutil_copy src dst).
Proof. unfold OS.shutil_copy. repeat terminates_step. Qed.

Lemma terminates_Path_rename src dst : terminates (OS.Path_rename src dst).
Proof. unfold OS.Path_rename. repeat terminates_step. Qed.

Lemma terminates_remove p : terminates (OS.remove p).
Proof. unfold OS.remove. repeat terminates_step. Qed.

(** The call of the converter ends when the converter does. *)
Lemma soffice_not_Diverge soffice outdir input s :
  soffice s (PurePath.of_str input) <> Hangs ->
  outcome (subprocess_run_soffice soffice outdir input s) <> Diverge.
Proof.
unfold subprocess_run_soffice, bind, get. cbn [outcome final trace]. intros Hends.
destruct (soffice s (PurePath.of_str input)); try done.
by destruct (files s !! PurePath.of_str input).
Qed.

Lemma terminates_soffice soffice outdir input :
  never_hangs soffice -> terminates (subprocess_run_soffice soffice outdir input).
Proof. intros Hends s. apply soffice_not_Diverge, Hends. Qed.

(** What follows the conversion in the [try] block of [export]. *)
Lemma terminates_final_name temp base generated :
  terminates (let* fs := get in
              let* pdf_new_path := while_exists (enough_fuel fs) temp base
                                     (temp </> (base +:+ ".pdf")) 1 in
              let* generated_exists := OS.path_exists generated in
              if generated_exists then OS.Path_rename generated pdf_new_path else ret tt).
Proof.
apply terminates_bind_get. intros s. apply bind_not_Diverge.
- destruct (while_exists_first_free s temp base) as (q & -> & _). discriminate.
- intros q. apply terminates_bind; [apply terminates_path_exists|intros b].
  apply terminates_if; [apply terminates_Path_rename|apply terminates_ret].
Qed.

(** [export_entry] returns or raises when the run of the converter on
    the staged copy ends. *)
Lemma export_entry_not_Diverge soffice self temp file_id original_path s :
  let staged := temp </> (pretty file_id +:+ "_" +:+ PurePath.name (PurePath.of_str original_path)) in
  soffice (final (OS.shutil_copy (PurePath.of_str original_path) staged s))
    (PurePath.of_str (PurePath.str staged)) <> Hangs ->
  outcome (export_entry soffice self temp (file_id, original_path) s) <> Diverge.
Proof.
intros staged Hends. unfold export_entry. fold staged.
destruct (PyDict.get file_id (file_element_dict self)) as [e|]; [|discriminate].
pose proof (terminates_shutil_copy (PurePath.of_str original_path) staged s) as Hcopy.
unfold bind at 1.
destruct (outcome (OS.shutil_copy (PurePath.of_str original_path) staged s))
  as [[]|e'|]; cbn [outcome]; [|discriminate|done].
set (s1 := final (OS.shutil_copy (PurePath.of_str original_path) staged s)) in *.
unfold try_finally.
assert (outcome (try_except
                   (subprocess_run_soffice soffice (PurePath.str temp) (PurePath.str staged) >>
                    (let* fs := get in
                     let* pdf_new_path := while_exists (enough_fuel fs) temp (elem_stem e)
                                            (temp </> (elem_stem e +:+ ".pdf")) 1 in
                     let* generated_exists :=
                       OS.path_exists (temp </> (PurePath.stem staged +:+ ".pdf")) in
                     if generated_exists
                     then OS.Path_rename (temp </> (PurePath.stem staged +:+ ".pdf")) pdf_new_path
                     else ret tt))
                   (fun e => raise e) s1) <> Diverge) as Hbody.
{ unfold try_except.
  pose proof (bind_not_Diverge
                (subprocess_run_soffice soffice (PurePath.str temp) (PurePath.str staged))
                (fun _ => let* fs := get in
                          let* pdf_new_path := while_exists (enough_fuel fs) temp (elem_stem e)
                                                 (temp </> (elem_stem e +:+ ".pdf")) 1 in
                          let* generated_exists :=
                            OS.path_exists (temp </> (PurePath.stem staged +:+ ".pdf")) in
                          if generated_exists
                          then OS.Path_rename (temp </> (PurePath.stem staged +:+ ".pdf"))
                                 pdf_new_path
                          else ret tt) s1
                (soffice_not_Diverge _ _ _ _ Hends)
                (fun _ => terminates_final_name _ _ _)) as Hb.
  destruct (outcome (bind _ _ s1)) as [a|e'|] eqn:Ho; [by rewrite Ho|discriminate|done]. }
assert (terminates (let* staged_exists := OS.path_exists staged in
                    if staged_exists then OS.remove staged else ret tt)) as Hclean.
{ apply terminates_bind; [apply terminates_path_exists|intros b].
  apply terminates_if; [apply terminates_remove|apply terminates_ret]. }
destruct (outcome (try_except _ _ s1)) as [a|e'|] eqn:Ho; [| |done];
  match goal with |- context [outcome (?c ?x)] => specialize (Hclean x) end;
  destruct (outcome (bind (OS.path_exists staged) _ _)) as [u|e''|]; cbn [outcome]; done.
Qed.

(** [export_entry], and with it [export], returns or raises when the
    converter never hangs. *)
Lemma terminates_export_entry soffice self temp item :
  never_hangs soffice -> terminates (export_entry soffice self temp item).
Proof.
intros Hends s. destruct item as [file_id original_path].
apply export_entry_not_Diverge, Hends.
Qed.

Lemma terminates_export soffice self temp :
  never_hangs soffice -> terminates (export soffice self temp).
Proof.
intros Hends. unfold export. apply terminates_bind; [apply terminates_Path_mkdir_rev|].
intros _. apply terminates_for_each. intros item. by apply terminates_export_entry.
Qed.

Lemma terminates_run_export_in_thread soffice cwd uuid_a uuid_b directory :
  never_hangs soffice ->
  terminates (_run_export_in_thread soffice cwd uuid_a uuid_b directory).
Proof.
intros Hends.
unfold _run_export_in_thread, update_status_count, handle_reset, on_model, on_fs,
  create_zip_archive, OS.shutil_make_archive, OS.shutil_rmtree, reset.
repeat first [apply terminates_zoom | apply (terminates_export _ _ _ Hends)
             | apply terminates_Path_mkdir_rev | terminates_step]; done.
Qed.

Lemma successful_export_resets_catalog_witness :
  let temp_dir := PurePath.of_str "/work" </> ("temp_pdf_export_" +:+ uuid_a0) in
  let exported := export always_converts (model reports_world) temp_dir (fs reports_world) in
  let after :=
    model (final (_run_export_in_thread always_converts (PurePath.of_str "/work")
                    uuid_a0 uuid_b0 "/out" reports_world)) in
  outcome exported = Return tt /\
  outcome (create_zip_archive temp_dir "/out" (zip_filename_of "/out" uuid_b0) (final exported))
  = Return "/out/Export_PDFs_out_fedc.zip" /\
  after = Model_init /\
  get_file_count after = 0 /\
  counter after = 1 /\
  forall absolute_path file_stem file_suffix ask_confirm_func,
    outcome (add_file absolute_path file_stem file_suffix ask_confirm_func after)
    = Return (Some (1, file_stem, file_suffix)).
Proof.
  cbv zeta.
  assert (outcome (export always_converts (model reports_world)
                     (PurePath.of_str "/work" </> ("temp_pdf_export_" +:+ uuid_a0))
                     (fs reports_world)) = Return tt)
    as Hexp by (vm_compute; reflexivity).
  assert (outcome (create_zip_archive
                     (PurePath.of_str "/work" </> ("temp_pdf_export_" +:+ uuid_a0)) "/out"
                     (zip_filename_of "/out" uuid_b0)
                     (final (export always_converts (model reports_world)
                               (PurePath.of_str "/work" </> ("temp_pdf_export_" +:+ uuid_a0))
                               (fs reports_world))))
          = Return "/out/Export_PDFs_out_fedc.zip")
    as Hzip by (vm_compute; reflexivity).
  split; [exact Hexp|]. split; [exact Hzip|].
  exact (successful_export_resets_catalog always_converts (PurePath.of_str "/work")
           uuid_a0 uuid_b0 "/out" reports_world Hexp
           (ex_intro _ "/out/Export_PDFs_out_fedc.zip" Hzip)).
Defined.

(** ** The ids and the paths of a reachable catalog *)

Lemma ids_inv_init : ids_inv Model_init.
Proof.
  unfold ids_inv, Model_init, PyDict.keys, PyDict.values; simpl. split_and!.
  - done.
  - lia.
  - intros; discriminate.
  - constructor.
Qed.

Lemma ids_inv_added m absolute_path file_stem file_suffix :
  catalog_inv m -> ids_inv m ->
  absolute_path ∉ PyDict.values (file_path_dict m) ->
  ids_inv (added m absolute_path file_stem file_suffix).
Proof.
  intros Hinv (Hkeys & Hpos & Hid & Hnd) Hp.
  pose proof (catalog_inv_counter_fresh m Hinv) as Hfresh.
  destruct Hinv as (Hsame & _).
  unfold ids_inv, added; simpl.
  rewrite (keys_set_new _ _ (file_element_dict m)) by done.
  rewrite (keys_set_new _ _ (file_path_dict m)) by (by rewrite Hsame).
  unfold PyDict.keys, PyDict.values in *. rewrite !fmap_app; simpl. split_and!.
  - rewrite Hkeys. replace (counter m + 1 - 1) with ((counter m - 1) + 1) by lia.
    rewrite seqZ_app by lia. f_equal.
    replace (1 + (counter m - 1)) with (counter m) by lia. reflexivity.
  - lia.
  - intros k e. rewrite <- (keys_set_new (counter m) _ (file_element_dict m)) by done.
    destruct (decide (counter m = k)) as [<-|Hne].
    + rewrite get_set_eq. by intros [= <-].
    + rewrite get_set_ne by done. apply Hid.
  - apply NoDup_app. split_and!; [done| |apply NoDup_singleton].
    intros p Hin ->%list_elem_of_singleton. done.
Qed.

Lemma ids_inv_renamed m i e new_stem :
  ids_inv m ->
  PyDict.get i (file_element_dict m) = Some e ->
  ids_inv (renamed m i e new_stem).
Proof.
  intros (Hkeys & Hpos & Hid & Hnd) Hg.
  assert (i ∈ PyDict.keys (file_element_dict m)) as Hi by (apply get_is_Some; eauto).
  unfold ids_inv, renamed; simpl. rewrite keys_set_old by done. split_and!; [done..| |done].
  intros k e'. destruct (decide (i = k)) as [<-|Hne].
  - rewrite get_set_eq. intros [= <-]. exact (Hid i e Hg).
  - rewrite get_set_ne by done. apply Hid.
Qed.

Lemma ids_inv_apply_op py_int o m :
  catalog_inv m -> ids_inv m -> ids_inv (apply_op py_int o m).
Proof.
  intros Hinv Hids. destruct o as [p s x ask|fid s|]; cbn [apply_op].
  - destruct (add_file_final m p s x ask) as [->|(Hp & _ & ->)]; [done|].
    by apply ids_inv_added.
  - destruct (update_file_stem_final py_int m fid s) as [->|(i & e & Hg & _ & ->)]; [done|].
    by apply ids_inv_renamed.
  - apply ids_inv_init.
Qed.

Lemma ids_inv_run_ops py_int ops m :
  catalog_inv m -> ids_inv m -> ids_inv (run_ops py_int ops m).
Proof.
  revert m. induction ops as [|o ops IH]; intros m Hinv Hids; simpl; [done|].
  apply IH; [by apply catalog_inv_apply_op|by apply ids_inv_apply_op].
Qed.

(** X1.  Whatever calls of [add_file], [update_file_stem] and [reset]
    built it, a catalog of [n] entries has the ids [1, 2, ..., n], in
    this order, in both dictionaries; its counter is [n + 1]; and every
    entry records the id it is stored under. *)
Theorem catalog_ids_are_consecutive (py_int : string -> option Z) (ops : list op) :
  let m := run_ops py_int ops Model_init in
  PyDict.keys (file_path_dict m) = seqZ 1 (get_file_count m) /\
  PyDict.keys (file_element_dict m) = seqZ 1 (get_file_count m) /\
  counter m = get_file_count m + 1 /\
  (forall k e, PyDict.get k (file_element_dict m) = Some e -> elem_id e = k).
Proof.
  intros m.
  pose proof (catalog_inv_run_ops py_int ops Model_init catalog_inv_init) as (Hsame & _).
  pose proof (ids_inv_run_ops py_int ops Model_init catalog_inv_init ids_inv_init)
    as (Hkeys & Hpos & Hid & _).
  fold m in Hsame, Hkeys, Hpos, Hid.
  assert (get_file_count m = counter m - 1) as Hcount.
  { unfold get_file_count, PyDict.len.
    rewrite <- (length_fmap fst (file_path_dict m)).
    unfold PyDict.keys in *. rewrite Hsame, Hkeys, length_seqZ. lia. }
  rewrite Hcount. split_and!; [by rewrite Hsame|done|lia|done].
Qed.

(** X2.  No source path is recorded twice in a reachable catalog. *)
Theorem catalog_paths_are_distinct (py_int : string -> option Z) (ops : list op) :
  NoDup (PyDict.values (file_path_dict (run_ops py_int ops Model_init))).
Proof. apply (ids_inv_run_ops py_int ops Model_init catalog_inv_init ids_inv_init). Qed.

(** X3.  On a reachable catalog [add_file] never raises.  When it admits
    the file, the element returned carries the former counter as its id,
    that id was free, the element and the path are stored under it,
    every other entry of both dictionaries is as before, and the count
    and the counter grow by one.  When it returns [None] the catalog is
    unchanged. *)
Theorem add_file_on_reachable_catalog (py_int : string -> option Z) (ops : list op)
    (absolute_path file_stem file_suffix : string) (ask_confirm_func : string -> bool) :
  let self := run_ops py_int ops Model_init in
  let r := add_file absolute_path file_stem file_suffix ask_confirm_func self in
  match outcome r with
  | Return (Some file_element) =>
      file_element = (counter self, file_stem, file_suffix) /\
      PyDict.get (counter self) (file_element_dict self) = None /\
      PyDict.get (counter self) (file_element_dict (final r)) = Some file_element /\
      PyDict.get (counter self) (file_path_dict (final r)) = Some absolute_path /\
      (forall k, k <> counter self ->
                 PyDict.get k (file_element_dict (final r)) = PyDict.get k (file_element_dict self) /\
                 PyDict.get k (file_path_dict (final r)) = PyDict.get k (file_path_dict self)) /\
      get_file_count (final r) = get_file_count self + 1 /\
      counter (final r) = counter self + 1
  | Return None => final r = self
  | Raise _ | Diverge => False
  end.
Proof.
  intros self r.
  pose proof (catalog_inv_run_ops py_int ops Model_init catalog_inv_init) as Hinv.
  fold self in Hinv. pose proof (catalog_inv_counter_fresh self Hinv) as Hfresh.
  assert (added_ok :
    let m' := added self absolute_path file_stem file_suffix in
    PyDict.get (counter self) (file_element_dict self) = None /\
    PyDict.get (counter self) (file_element_dict m') = Some (counter self, file_stem, file_suffix) /\
    PyDict.get (counter self) (file_path_dict m') = Some absolute_path /\
    (forall k, k <> counter self ->
               PyDict.get k (file_element_dict m') = PyDict.get k (file_element_dict self) /\
               PyDict.get k (file_path_dict m') = PyDict.get k (file_path_dict self)) /\
    get_file_count m' = get_file_count self + 1 /\
    counter m' = counter self + 1).
  { unfold added; simpl. split_and!.
    - apply eq_None_not_Some. by rewrite get_is_Some.
    - apply get_set_eq.
    - apply get_set_eq.
    - intros k Hk. by rewrite !get_set_ne.
    - destruct Hinv as (Hsame & _). unfold get_file_count, PyDict.len; simpl.
      rewrite keys_set_new by (by rewrite Hsame). rewrite length_app. simpl. lia.
    - done. }
  subst r.
  destruct (decide (absolute_path ∈ PyDict.values (file_path_dict self))) as [Hp|Hp].
  { by rewrite add_file_known_path. }
  destruct (decide (file_stem +:+ file_suffix ∈ unique_file_names self)) as [Hn|Hn].
  - destruct (ask_confirm_func (file_stem +:+ file_suffix)) eqn:Hask.
    + rewrite add_file_admitted by done. cbn [outcome final]. split; [done|apply added_ok].
    + by rewrite add_file_rejected.
  - rewrite add_file_fresh_name by done. cbn [outcome final]. split; [done|apply added_ok].
Qed.

(** X4.  [add_file] calls the confirmation callback at most once, with the
    full name; it calls it exactly when the path is new and the name is
    in the name set; and it returns [None] exactly when the path is
    known, or the name is in the set and the callback declines. *)
Theorem add_file_asks_at_most_once (self : Model)
    (absolute_path file_stem file_suffix : string) (ask_confirm_func : string -> bool) :
  let file_full_name := file_stem +:+ file_suffix in
  let r := add_file absolute_path file_stem file_suffix ask_confirm_func self in
  (trace r = [] \/ trace r = [AskConfirm file_full_name]) /\
  (trace r = [AskConfirm file_full_name] <->
   (absolute_path ∉ PyDict.values (file_path_dict self)) /\
   file_full_name ∈ unique_file_names self) /\
  (outcome r = Return None <->
   absolute_path ∈ PyDict.values (file_path_dict self) \/
   (file_full_name ∈ unique_file_names self /\ ask_confirm_func file_full_name = false)).
Proof.
  intros file_full_name r. subst r file_full_name.
  destruct (decide (absolute_path ∈ PyDict.values (file_path_dict self))) as [Hp|Hp].
  { rewrite add_file_known_path by done. cbn [outcome trace].
    split_and!; [by left|split; [discriminate|intros [? _]; done]|split; auto]. }
  destruct (decide (file_stem +:+ file_suffix ∈ unique_file_names self)) as [Hn|Hn].
  - destruct (ask_confirm_func (file_stem +:+ file_suffix)) eqn:Hask.
    + rewrite add_file_admitted by done. cbn [outcome trace].
      split_and!; [by right|split; auto|].
      split; [discriminate|]. intros [?|[_ ?]]; [done|discriminate].
    + rewrite add_file_rejected by done. cbn [outcome trace].
      split_and!; [by right|split; auto|split; auto].
  - rewrite add_file_fresh_name by done. cbn [outcome trace].
    split_and!; [by left|split; [discriminate|intros [_ ?]; done]|].
    split; [discriminate|]. intros [?|[? _]]; done.
Qed.

Lemma set_set {K V} `{EqDecision K} (k : K) (v v' : V) (d : list (K * V)) :
  PyDict.set k v (PyDict.set k v' d) = PyDict.set k v d.
Proof.
  induction d as [|[k0 v0] d IH]; simpl.
  - by rewrite decide_True.
  - destruct (decide (k = k0)) as [->|Hne]; simpl.
    + by rewrite decide_True.
    + rewrite decide_False by done. by rewrite IH.
Qed.

(** X5.  What [update_file_stem] leaves alone: it calls nothing outside
    the model, it never touches the paths or the counter, it adds and
    removes no id, and it changes no entry other than the one of
    [int(file_id)].  An element it returns is the stored one with the new
    stem, it is what the catalog holds afterwards, and its full name is
    in the name set; when it returns [None] the catalog is unchanged. *)
Theorem update_file_stem_frame (py_int : string -> option Z) (self : Model)
    (file_id new_stem : string) :
  let r := update_file_stem py_int file_id new_stem self in
  trace r = [] /\
  file_path_dict (final r) = file_path_dict self /\
  counter (final r) = counter self /\
  PyDict.keys (file_element_dict (final r)) = PyDict.keys (file_element_dict self) /\
  (forall k, py_int file_id <> Some k ->
             PyDict.get k (file_element_dict (final r)) = PyDict.get k (file_element_dict self)) /\
  (forall updated, outcome r = Return (Some updated) ->
     exists i current_values,
       py_int file_id = Some i /\
       PyDict.get i (file_element_dict self) = Some current_values /\
       updated = (elem_id current_values, new_stem, elem_ext current_values) /\
       PyDict.get i (file_element_dict (final r)) = Some updated /\
       full_name updated ∈ unique_file_names (final r)) /\
  (outcome r = Return None -> final r = self).
Proof.
  intros r. subst r.
  destruct (py_int file_id) as [i|] eqn:Hi.
  2:{ rewrite update_file_stem_not_int by done. cbn [outcome final trace].
      split_and!; try done. }
  destruct (PyDict.get i (file_element_dict self)) as [e|] eqn:Hg.
  2:{ rewrite (update_file_stem_unknown py_int self file_id new_stem i) by done.
      cbn [outcome final trace]. split_and!; try done. }
  destruct (decide (new_stem +:+ elem_ext e = full_name e \/
                    new_stem +:+ elem_ext e ∉ unique_file_names self)) as [Hok|Hno].
  - rewrite (update_file_stem_done py_int self file_id new_stem i e) by done.
    cbn [outcome final trace]. unfold renamed; simpl. split_and!; try done.
    + apply keys_set_old, get_is_Some. eauto.
    + intros k Hk. apply get_set_ne. intros Heq. apply Hk. by rewrite Heq.
    + intros updated [= <-]. exists i, e. split_and!; try done.
      * apply get_set_eq.
      * apply elem_of_union_r, elem_of_singleton. done.
  - assert (new_stem +:+ elem_ext e <> full_name e) as Hne.
    { intros Heq. apply Hno. by left. }
    assert (new_stem +:+ elem_ext e ∈ unique_file_names self) as Hin.
    { destruct (decide (new_stem +:+ elem_ext e ∈ unique_file_names self)); [done|].
      exfalso. apply Hno. by right. }
    rewrite (update_file_stem_conflict py_int self file_id new_stem i e) by done.
    cbn [outcome final trace]. repeat split; try done.
Qed.

(** X6.  Renaming an entry to a free name and then back to its former stem
    gives back the catalog one started from, and returns the former
    element, provided the former name was in the name set. *)
Theorem update_file_stem_there_and_back (py_int : string -> option Z) (self : Model)
    (file_id new_stem : string) (i : Z) (current_values : FileElement) :
  py_int file_id = Some i ->
  PyDict.get i (file_element_dict self) = Some current_values ->
  full_name current_values ∈ unique_file_names self ->
  new_stem +:+ elem_ext current_values ∉ unique_file_names self ->
  let renamed_once := final (update_file_stem py_int file_id new_stem self) in
  update_file_stem py_int file_id (elem_stem current_values) renamed_once
  = Run (Return (Some current_values)) self [].
Proof.
  intros Hi Hg Hold Hnew renamed_once. subst renamed_once.
  assert ((elem_id current_values, elem_stem current_values, elem_ext current_values)
          = current_values) as He by (by destruct current_values as [[? ?] ?]).
  rewrite (update_file_stem_done py_int self file_id new_stem i current_values) by auto.
  cbn [final].
  set (e' := (elem_id current_values, new_stem, elem_ext current_values)).
  assert (PyDict.get i (file_element_dict (renamed self i current_values new_stem)) = Some e')
    as Hg' by apply get_set_eq.
  assert (full_name current_values <> new_stem +:+ elem_ext current_values) as Hne
    by (intros Heq; by rewrite Heq in Hold).
  rewrite (update_file_stem_done py_int _ file_id (elem_stem current_values) i e').
  - change (elem_id e', elem_stem current_values, elem_ext e') with
      (elem_id current_values, elem_stem current_values, elem_ext current_values).
    rewrite He. f_equal. unfold renamed at 1. cbn [file_path_dict counter elem_id elem_ext].
    change (elem_id e', elem_stem current_values, elem_ext e') with
      (elem_id current_values, elem_stem current_values, elem_ext current_values).
    rewrite He.
    change (full_name e') with (new_stem +:+ elem_ext current_values).
    change (elem_stem current_values +:+ elem_ext e') with (full_name current_values).
    unfold renamed; cbn [file_path_dict file_element_dict unique_file_names counter].
    rewrite set_set.
    replace (PyDict.set i current_values (file_element_dict self)) with (file_element_dict self)
      by (symmetry; by apply set_get_id).
    rewrite (bool_decide_eq_true_2 _ Hold).
    rewrite bool_decide_eq_true_2 by (apply elem_of_union_r, elem_of_singleton; done).
    destruct self as [paths elems names cnt]; cbn in *. f_equal.
    apply set_eq. intros n.
    rewrite !elem_of_union, !elem_of_difference, !elem_of_union, !elem_of_difference,
      !elem_of_singleton.
    destruct (decide (n = full_name current_values)) as [Ha|Ha];
      destruct (decide (n = new_stem +:+ elem_ext current_values)) as [Hb|Hb];
      subst; naive_solver.
  - done.
  - exact Hg'.
  - right. change (elem_stem current_values +:+ elem_ext e') with (full_name current_values).
    unfold renamed; cbn [unique_file_names].
    rewrite (bool_decide_eq_true_2 _ Hold).
    rewrite elem_of_union, elem_of_difference, !elem_of_singleton. naive_solver.
Qed.

Lemma update_file_stem_there_and_back_witness :
  let self := model three_world in
  int_decimal "2" = Some 2 /\
  PyDict.get 2 (file_element_dict self) = Some (2, "notes", ".odt") /\
  full_name (2, "notes", ".odt") ∈ unique_file_names self /\
  ("minutes" +:+ elem_ext (2, "notes", ".odt") ∉ unique_file_names self) /\
  update_file_stem int_decimal "2" "notes"
    (final (update_file_stem int_decimal "2" "minutes" self))
  = Run (Return (Some (2, "notes", ".odt"))) self [].
Proof.
  assert (int_decimal "2" = Some 2) as Hi by reflexivity.
  assert (PyDict.get 2 (file_element_dict (model three_world)) = Some (2, "notes", ".odt"))
    as Hg by reflexivity.
  assert (full_name (2, "notes", ".odt") ∈ unique_file_names (model three_world)) as Hold.
  { apply (bool_decide_unpack _). vm_compute. exact I. }
  assert ("minutes" +:+ elem_ext (2, "notes", ".odt") ∉ unique_file_names (model three_world))
    as Hnew.
  { apply (bool_decide_unpack _). vm_compute. exact I. }
  cbv zeta. split_and!; [exact Hi|exact Hg|exact Hold|exact Hnew|].
  exact (update_file_stem_there_and_back int_decimal (model three_world) "2" "minutes" 2
           (2, "notes", ".odt") Hi Hg Hold Hnew).
Defined.

(** ** The archive and its name *)

Lemma shutil_make_archive_Return base_name root_dir s zip_filename :
  outcome (OS.shutil_make_archive base_name root_dir s) = Return zip_filename ->
  zip_filename = base_name +:+ ".zip" /\
  exists members folders,
    files (final (OS.shutil_make_archive base_name root_dir s))
      !! PurePath.of_str (base_name +:+ ".zip") = Some (Zip members folders).
Proof.
  unfold OS.shutil_make_archive.
  rewrite (bind_Run _ _ _ _ _ _ (get_Run s)). cbn [outcome final trace].
  set (prepare := if negb (OS.exists_ s _) then _ else _).
  destruct (outcome (prepare s)) as [u|e|] eqn:Hprep.
  - rewrite (bind_Return _ _ _ _ Hprep). cbn [outcome final trace].
    rewrite (bind_Run _ _ _ _ _ _ (get_Run _)). cbn [outcome final trace].
    repeat (case_match; cbn [outcome final trace raise]; try discriminate).
    unfold bind, modify, ret; cbn [outcome final trace]. intros [= <-]. split; [done|].
    do 2 eexists. unfold OS.write_file; simpl. apply lookup_insert_eq.
  - rewrite (bind_Raise _ _ _ _ Hprep). discriminate.
  - rewrite (bind_Diverge _ _ _ Hprep). discriminate.
Qed.

Lemma string_append_assoc (a b c : string) : (a +:+ b) +:+ c = a +:+ (b +:+ c).
Proof. induction a as [|x a IH]; [done|]. rewrite !append_cons. by rewrite IH. Qed.

Lemma join_sep_snoc (l : list string) (x t : string) :
  PurePath.join_sep (l ++ [x +:+ t]) = PurePath.join_sep (l ++ [x]) +:+ t.
Proof.
  induction l as [|y l IH]; [done|].
  cbn [app PurePath.join_sep]. destruct (l ++ [x +:+ t])%list eqn:E1.
  { by apply app_eq_nil in E1 as [_ ?]. }
  destruct (l ++ [x])%list eqn:E2.
  { by apply app_eq_nil in E2 as [_ ?]. }
  rewrite <- E1, <- E2 in *. rewrite IH.
  by rewrite !string_append_assoc.
Qed.

Lemma str_snoc (r : string) (l : list string) (x t : string) :
  PurePath.str (PurePath.mk r (l ++ [x +:+ t])) = PurePath.str (PurePath.mk r (l ++ [x])) +:+ t.
Proof.
  unfold PurePath.str. cbn [PurePath.root PurePath.parts].
  destruct (l ++ [x +:+ t])%list eqn:E1; [by apply app_eq_nil in E1 as [_ ?]|].
  destruct (l ++ [x])%list eqn:E2; [by apply app_eq_nil in E2 as [_ ?]|].
  destruct r; rewrite <- E1, <- E2, join_sep_snoc, string_append_assoc; done.
Qed.

Lemma rfind_dot_suffix_index nm : PurePath.rfind_dot nm = None -> PurePath.suffix_index nm = None.
Proof. unfold PurePath.suffix_index. by intros ->. Qed.

(** X7.  When the base name of the archive has no dot and no separator,
    and [create_zip_archive] returns, the path it returns is the
    destination path followed by [.zip], and an archive is stored at that
    path. *)
Theorem create_zip_archive_plain_name (source_dir : PurePath.t) (dest_dir zip_name : string)
    (s : FS) (path : string) :
  PurePath.contains_sep zip_name = false ->
  PurePath.rfind_dot zip_name = None ->
  zip_name <> "" ->
  outcome (create_zip_archive source_dir dest_dir zip_name s) = Return path ->
  path = PurePath.str (PurePath.of_str dest_dir </> zip_name) +:+ ".zip" /\
  exists members folders,
    files (final (create_zip_archive source_dir dest_dir zip_name s)) !! PurePath.of_str path
    = Some (Zip members folders).
Proof.
  intros Hsep Hdot Hne. unfold create_zip_archive.
  set (zip_path := PurePath.of_str dest_dir </> zip_name).
  remember (PurePath.of_str dest_dir) as dest eqn:Hdest.
  assert (PurePath.kept zip_name = true) as Hkept.
  { unfold PurePath.kept. destruct zip_name as [|c z]; [done|].
    apply andb_true_iff. split; [done|]. simpl in Hdot |- *.
    destruct (PurePath.rfind_dot z); [done|].
    destruct (Ascii.eqb c "."); [done|]. done. }
  assert (PurePath.parts zip_path = (PurePath.parts dest ++ [zip_name])%list
          /\ PurePath.root zip_path = PurePath.root dest) as [Hparts Hroot].
  { unfold zip_path, PurePath.joinpath. rewrite (no_sep_is_absolute _ Hsep).
    cbn [PurePath.parts PurePath.root]. rewrite (split_no_sep _ Hsep). simpl.
    by rewrite Hkept. }
  assert (PurePath.name zip_path = zip_name) as Hname.
  { unfold PurePath.name. rewrite Hparts. apply last_last. }
  assert (PurePath.with_suffix zip_path ".zip"
          = Some (PurePath.mk (PurePath.root zip_path)
                    (PurePath.parts dest ++ [zip_name +:+ ".zip"])))
    as Hwith.
  { unfold PurePath.with_suffix, PurePath.suffix. rewrite Hname.
    rewrite (rfind_dot_suffix_index _ Hdot). cbn [PurePath.contains_sep Ascii.eqb orb].
    assert (String.eqb zip_name "" = false) as -> by (by destruct zip_name).
    simpl. rewrite Hparts, removelast_last. done. }
  rewrite Hwith.
  destruct (outcome (OS.shutil_make_archive (PurePath.str zip_path) (PurePath.str source_dir) s))
    as [z|e|] eqn:Hmk.
  2:{ rewrite (bind_Raise _ _ _ _ Hmk). discriminate. }
  2:{ rewrite (bind_Diverge _ _ _ Hmk). discriminate. }
  rewrite (bind_Return _ _ _ _ Hmk). cbn [outcome final trace ret]. intros [= <-].
  destruct (shutil_make_archive_Return _ _ _ _ Hmk) as (_ & members & folders & Hfile).
  assert (PurePath.str {| PurePath.root := PurePath.root zip_path;
                          PurePath.parts := PurePath.parts dest
                                            ++ [zip_name +:+ ".zip"] |}
          = PurePath.str zip_path +:+ ".zip") as Hstr.
  { rewrite str_snoc. f_equal. destruct zip_path as [r ps]. cbn in *. by rewrite Hparts. }
  rewrite Hstr. split; [done|]. by exists members, folders.
Qed.

Lemma create_zip_archive_plain_name_witness :
  let zipped := create_zip_archive (PurePath.of_str "/work/tmp") "/out" "archive" converted_fs in
  PurePath.contains_sep "archive" = false /\
  PurePath.rfind_dot "archive" = None /\
  "archive" <> "" /\
  outcome zipped = Return "/out/archive.zip" /\
  "/out/archive.zip" = PurePath.str (PurePath.of_str "/out" </> "archive") +:+ ".zip" /\
  exists members folders,
    files (final zipped) !! PurePath.of_str "/out/archive.zip" = Some (Zip members folders).
Proof.
  assert (outcome (create_zip_archive (PurePath.of_str "/work/tmp") "/out" "archive"
                     converted_fs) = Return "/out/archive.zip")
    as Hzip by (vm_compute; reflexivity).
  assert ("archive" <> "") as Hne by discriminate.
  cbv zeta. split_and!; [reflexivity|reflexivity|exact Hne|exact Hzip|..];
    apply (create_zip_archive_plain_name (PurePath.of_str "/work/tmp") "/out" "archive"
             converted_fs "/out/archive.zip" eq_refl eq_refl Hne Hzip).
Defined.

(** ** What the export leaves alone *)

Lemma split_elems_no_sep (s : string) :
  Forall (fun x => PurePath.contains_sep x = false) (PurePath.split s).
Proof.
  induction s as [|c s IH]; simpl; [by repeat constructor|].
  destruct (Ascii.eqb c "/") eqn:Hc.
  - constructor; [done|exact IH].
  - destruct (PurePath.split s) as [|h tl]; [by repeat constructor; simpl; rewrite Hc|].
    apply Forall_cons in IH as [Hh Htl]. constructor; [|done]. simpl. by rewrite Hc.
Qed.

Lemma of_str_parts_no_sep (s : string) :
  Forall (fun x => PurePath.contains_sep x = false) (PurePath.parts (PurePath.of_str s)).
Proof.
  unfold PurePath.of_str; simpl. pose proof (split_elems_no_sep s) as H.
  induction H as [|x l Hx Hl IH]; simpl; [constructor|].
  destruct (PurePath.kept x); [by constructor|done].
Qed.

Lemma filter_kept_no_sep (s : string) :
  Forall (fun x => PurePath.contains_sep x = false) (List.filter PurePath.kept (PurePath.split s)).
Proof. apply (of_str_parts_no_sep s). Qed.

Lemma last_no_sep (l : list string) :
  Forall (fun x => PurePath.contains_sep x = false) l ->
  PurePath.contains_sep (List.last l "") = false.
Proof.
  induction 1 as [|x l Hx Hl IH]; [done|]. simpl. by destruct l.
Qed.

Lemma substring_no_sep (n m : nat) (s : string) :
  PurePath.contains_sep s = false -> PurePath.contains_sep (String.substring n m s) = false.
Proof.
  revert n m. induction s as [|c s IH]; intros n m; simpl.
  - by destruct n, m.
  - intros [Hc Hs]%orb_false_iff. destruct n as [|n].
    + destruct m as [|m]; [done|]. simpl. rewrite Hc. by apply IH.
    + by apply IH.
Qed.

Lemma stem_no_sep (p : PurePath.t) :
  Forall (fun x => PurePath.contains_sep x = false) (PurePath.parts p) ->
  PurePath.contains_sep (PurePath.stem p) = false.
Proof.
  intros Hp. unfold PurePath.stem, PurePath.name.
  pose proof (last_no_sep _ Hp). destruct (PurePath.suffix_index _); [|done].
  by apply substring_no_sep.
Qed.

Lemma name_no_sep (p : PurePath.t) :
  Forall (fun x => PurePath.contains_sep x = false) (PurePath.parts p) ->
  PurePath.contains_sep (PurePath.name p) = false.
Proof. apply last_no_sep. Qed.

Lemma joinpath_parts_no_sep (p : PurePath.t) (key : string) :
  Forall (fun x => PurePath.contains_sep x = false) (PurePath.parts p) ->
  Forall (fun x => PurePath.contains_sep x = false) (PurePath.parts (p </> key)).
Proof.
  intros Hp. unfold PurePath.joinpath. destruct (PurePath.is_absolute key).
  - apply of_str_parts_no_sep.
  - simpl. apply Forall_app. split; [done|apply filter_kept_no_sep].
Qed.

Lemma under_joinpath (temp : PurePath.t) (key : string) :
  PurePath.is_absolute key = false -> OS.under temp (temp </> key).
Proof.
  intros Hk. unfold PurePath.joinpath. rewrite Hk. split; [done|]. simpl.
  by apply prefix_app_r.
Qed.

Lemma under_trans (a b c : PurePath.t) : OS.under a b -> OS.under b c -> OS.under a c.
Proof. intros [Hr1 Hp1] [Hr2 Hp2]. split; [congruence|by etransitivity]. Qed.

Lemma is_absolute_no_sep_append (a t : string) :
  PurePath.contains_sep a = false -> PurePath.contains_sep t = false ->
  PurePath.is_absolute (a +:+ t) = false.
Proof.
  intros Ha Ht. apply no_sep_is_absolute. by rewrite contains_sep_append, Ha, Ht.
Qed.

Lemma staged_name_relative (file_id : Z) (nm : string) :
  PurePath.is_absolute (pretty file_id +:+ "_" +:+ nm) = false.
Proof.
  pose proof (contains_sep_pretty_Z file_id) as Hid.
  destruct (pretty file_id) as [|c p] eqn:E; [done|].
  rewrite append_cons. simpl in Hid |- *. by apply orb_false_iff in Hid as [? _].
Qed.

#[local] Instance keeps_files_preorder P : PreOrder (keeps_files P).
Proof.
  split; [by intros s p c|].
  intros x y z Hxy Hyz p c Hp Hc. apply Hyz; [done|]. by apply Hxy.
Qed.

Section keeps_files_facts.
Variable soffice : FS -> PurePath.t -> soffice_exit.
Variable P : PurePath.t -> Prop.
Variable temp : PurePath.t.
Hypothesis P_outside : forall p, P p -> ~ OS.under temp p.

Lemma keeps_files_write p c s : OS.under temp p -> keeps_files P s (OS.write_file p c s).
Proof.
  intros Hu q d Hq Hd. unfold OS.write_file; simpl. rewrite lookup_insert_ne; [done|].
  intros ->. by apply (P_outside q).
Qed.

Lemma keeps_files_delete p s : OS.under temp p -> keeps_files P s (OS.delete_file p s).
Proof.
  intros Hu q d Hq Hd. unfold OS.delete_file; simpl. rewrite lookup_delete_ne; [done|].
  intros ->. by apply (P_outside q).
Qed.

Lemma keeps_files_delete_tree s : keeps_files P s (OS.delete_tree temp s).
Proof.
  intros q d Hq Hd. unfold OS.delete_tree; simpl. apply map_lookup_filter_Some.
  split; [done|]. simpl. by apply P_outside.
Qed.

Lemma keeps_files_same s s' : files s' = files s -> keeps_files P s s'.
Proof. intros H q d _. by rewrite H. Qed.

Lemma keeps_files_path_exists p : keeps (keeps_files P) (OS.path_exists p).
Proof. unfold OS.path_exists. repeat keeps_step. Qed.

Lemma keeps_files_mkdir p : keeps (keeps_files P) (OS.mkdir p).
Proof. unfold OS.mkdir. repeat keeps_step. by apply keeps_files_same. Qed.

Lemma keeps_files_Path_mkdir_exist_ok p : keeps (keeps_files P) (OS.Path_mkdir_exist_ok p).
Proof. unfold OS.Path_mkdir_exist_ok. repeat keeps_step. apply keeps_files_mkdir. Qed.

Lemma keeps_files_Path_mkdir_rev r rparts : keeps (keeps_files P) (OS.Path_mkdir_rev r rparts).
Proof.
  induction rparts as [|x up IH]; cbn [OS.Path_mkdir_rev];
    repeat keeps_step; auto using keeps_files_mkdir, keeps_files_Path_mkdir_exist_ok.
Qed.

Lemma keeps_files_shutil_copy original_path key :
  PurePath.is_absolute key = false ->
  keeps (keeps_files P) (OS.shutil_copy (PurePath.of_str original_path) (temp </> key)).
Proof.
  intros Hkey. pose proof (under_joinpath temp key Hkey) as Hu.
  unfold OS.shutil_copy. repeat keeps_step. apply keeps_files_write.
  destruct (OS.is_dir _ (temp </> key)); [|done].
  eapply under_trans; [exact Hu|]. apply under_joinpath.
  apply no_sep_is_absolute, name_no_sep, of_str_parts_no_sep.
Qed.

Hypothesis temp_str : PurePath.of_str (PurePath.str temp) = temp.

Lemma temp_parts_no_sep :
  Forall (fun x => PurePath.contains_sep x = false) (PurePath.parts temp).
Proof. rewrite <- temp_str. apply of_str_parts_no_sep. Qed.

Lemma keeps_files_soffice input :
  keeps (keeps_files P) (subprocess_run_soffice soffice (PurePath.str temp) input).
Proof.
  unfold subprocess_run_soffice. repeat keeps_step. apply keeps_files_write.
  rewrite temp_str. apply under_joinpath, is_absolute_no_sep_append; [|done].
  apply stem_no_sep, of_str_parts_no_sep.
Qed.

Lemma keeps_files_remove key :
  PurePath.is_absolute key = false -> keeps (keeps_files P) (OS.remove (temp </> key)).
Proof.
  intros Hkey. unfold OS.remove. repeat keeps_step.
  by apply keeps_files_delete, under_joinpath.
Qed.

Lemma keeps_files_Path_rename key dst s :
  PurePath.is_absolute key = false -> OS.exists_ s dst = false ->
  keeps_files P s (final (OS.Path_rename (temp </> key) dst s)).
Proof.
  intros Hkey Hfree. unfold OS.Path_rename, bind, get. cbn [outcome final trace].
  destruct (files s !! (temp </> key)) as [c|]; [|by case_match].
  repeat (case_match; try done). cbn [outcome final trace modify].
  intros q d Hq Hd. unfold OS.write_file, OS.delete_file; simpl.
  assert (q <> dst) as Hne.
  { intros ->. unfold OS.exists_, OS.is_file in Hfree.
    apply orb_false_iff in Hfree as [Hf _]. apply bool_decide_eq_false in Hf.
    apply Hf. by eexists. }
  rewrite lookup_insert_ne by done. rewrite lookup_delete_ne; [done|].
  intros <-. by apply (P_outside _ Hq), under_joinpath.
Qed.

Lemma keeps_files_export_entry self item :
  keeps (keeps_files P) (export_entry soffice self temp item).
Proof.
  destruct item as [file_id original_path]. unfold export_entry.
  destruct (PyDict.get file_id (file_element_dict self)) as [e|]; [|apply keeps_raise; apply _].
  pose proof (staged_name_relative file_id (PurePath.name (PurePath.of_str original_path)))
    as Hstaged.
  apply keeps_bind; [apply _|by apply keeps_files_shutil_copy|intros _].
  apply keeps_try_finally; [apply _| |].
  - apply keeps_try_except; [apply _| |intros ?; apply keeps_raise; apply _].
    apply keeps_bind; [apply _|apply keeps_files_soffice|intros _].
    intros s. rewrite (bind_Run _ _ _ _ _ _ (get_Run s)). cbn [outcome final trace].
    destruct (while_exists_first_free s temp (elem_stem e)) as (q & Hq & Hfree & _).
    rewrite (bind_Run _ _ _ _ _ _ Hq). cbn [outcome final trace].
    rewrite (bind_Run _ _ _ _ _ _ (path_exists_Run _ s)). cbn [outcome final trace].
    destruct (OS.exists_ s (temp </> _)); [|reflexivity].
    apply keeps_files_Path_rename; [|done].
    apply is_absolute_no_sep_append; [|done].
    apply stem_no_sep, joinpath_parts_no_sep, temp_parts_no_sep.
  - apply keeps_bind; [apply _|apply keeps_files_path_exists|intros b].
    apply keeps_if; [by apply keeps_files_remove|apply keeps_ret; apply _].
Qed.

Lemma keeps_files_export self : keeps (keeps_files P) (export soffice self temp).
Proof.
  unfold export. apply keeps_bind; [apply _|apply keeps_files_Path_mkdir_rev|intros _].
  apply keeps_for_each; [apply _|]. apply keeps_files_export_entry.
Qed.
End keeps_files_facts.

(** X8.  [export] leaves every file outside its working directory where it
    is and as it is, however the conversion of the entries ends: the
    files the catalog points to are only read. *)
Theorem export_keeps_files_outside (soffice : FS -> PurePath.t -> soffice_exit)
    (self : Model) (temp_outdir : PurePath.t) (s : FS) (p : PurePath.t) (c : content) :
  PurePath.of_str (PurePath.str temp_outdir) = temp_outdir ->
  ~ OS.under temp_outdir p ->
  files s !! p = Some c ->
  files (final (export soffice self temp_outdir s)) !! p = Some c.
Proof.
  intros Htemp Hp Hc.
  apply (keeps_files_export soffice (fun q => ~ OS.under temp_outdir q) temp_outdir
           (fun _ H => H) Htemp self s p c Hp Hc).
Qed.

Lemma export_keeps_files_outside_witness :
  let original := PurePath.of_str "/a/report.docx" in
  PurePath.of_str (PurePath.str reports_temp_dir) = reports_temp_dir /\
  ~ OS.under reports_temp_dir original /\
  files (fs reports_world) !! original = Some (Bytes "A") /\
  files (final (export always_converts (model reports_world) reports_temp_dir
                  (fs reports_world))) !! original = Some (Bytes "A").
Proof.
  assert (PurePath.of_str (PurePath.str reports_temp_dir) = reports_temp_dir) as Htemp
    by (vm_compute; reflexivity).
  assert (~ OS.under reports_temp_dir (PurePath.of_str "/a/report.docx")) as Hout.
  { apply (bool_decide_unpack _). vm_compute. exact I. }
  assert (files (fs reports_world) !! PurePath.of_str "/a/report.docx" = Some (Bytes "A"))
    as Hfile by (vm_compute; reflexivity).
  cbv zeta. split_and!; [exact Htemp|exact Hout|exact Hfile|].
  exact (export_keeps_files_outside always_converts (model reports_world) reports_temp_dir
           (fs reports_world) (PurePath.of_str "/a/report.docx") (Bytes "A")
           Htemp Hout Hfile).
Defined.

#[local] Instance keeps_files_world_preorder P : PreOrder (keeps_files_world P).
Proof.
  split; [intros w; unfold keeps_files_world; reflexivity|].
  intros x y z Hxy Hyz. unfold keeps_files_world in *. by etransitivity.
Qed.

Lemma keeps_files_on_fs {A} P (m : Eff FS A) :
  keeps (keeps_files P) m -> keeps (keeps_files_world P) (on_fs m).
Proof. intros H w. apply H. Qed.

Lemma keeps_files_on_model {A} P (m : Eff Model A) : keeps (keeps_files_world P) (on_model m).
Proof. intros w. unfold keeps_files_world. simpl. reflexivity. Qed.

Lemma keeps_files_create_zip_archive P source_dir dest_dir zip_name :
  (forall q, P q ->
     q <> PurePath.of_str (PurePath.str (PurePath.of_str dest_dir </> zip_name) +:+ ".zip")) ->
  keeps (keeps_files P) (create_zip_archive source_dir dest_dir zip_name).
Proof.
  intros HP. unfold create_zip_archive, OS.shutil_make_archive, OS.Path_mkdir_parents.
  repeat keeps_step; try apply keeps_files_Path_mkdir_rev.
  intros q d Hq Hd. unfold OS.write_file; simpl. rewrite lookup_insert_ne; [done|].
  intros E. by apply (HP q).
Qed.

(** X9.  A run of [_run_export_in_thread] changes or removes no file that
    exists, other than a file under its working directory or at the path
    of the archive it writes. *)
Theorem export_thread_keeps_other_files (soffice : FS -> PurePath.t -> soffice_exit)
    (cwd : PurePath.t) (uuid_a uuid_b directory : string) (w : World)
    (p : PurePath.t) (c : content) :
  let temp_dir := cwd </> ("temp_pdf_export_" +:+ uuid_a) in
  let archive :=
    PurePath.of_str
      (PurePath.str (PurePath.of_str directory </> zip_filename_of directory uuid_b)
       +:+ ".zip") in
  PurePath.of_str (PurePath.str temp_dir) = temp_dir ->
  ~ OS.under temp_dir p ->
  p <> archive ->
  files (fs w) !! p = Some c ->
  files (fs (final (_run_export_in_thread soffice cwd uuid_a uuid_b directory w))) !! p
  = Some c.
Proof.
  intros temp_dir archive Htemp Hp Hne Hc.
  set (P := fun q => ~ OS.under temp_dir q /\ q <> archive).
  assert (forall q, P q -> ~ OS.under temp_dir q) as HP by (by intros q [? ?]).
  assert (keeps (keeps_files_world P) (_run_export_in_thread soffice cwd uuid_a uuid_b directory))
    as Hkeeps.
  { unfold _run_export_in_thread, update_status_count, handle_reset. fold temp_dir.
    repeat first
      [ apply keeps_files_on_model
      | apply keeps_files_on_fs
      | keeps_step ].
    - by apply keeps_files_export.
    - apply keeps_files_create_zip_archive. by intros q [_ ?].
    - unfold OS.shutil_rmtree. repeat keeps_step. by apply keeps_files_delete_tree. }
  apply (Hkeeps w p c); [by split|done].
Qed.

Lemma export_thread_keeps_other_files_witness :
  let temp_dir := PurePath.of_str "/work" </> ("temp_pdf_export_" +:+ uuid_a0) in
  let archive :=
    PurePath.of_str
      (PurePath.str (PurePath.of_str "/out" </> zip_filename_of "/out" uuid_b0) +:+ ".zip") in
  let original := PurePath.of_str "/b/report.docx" in
  PurePath.of_str (PurePath.str temp_dir) = temp_dir /\
  ~ OS.under temp_dir original /\
  original <> archive /\
  files (fs reports_world) !! original = Some (Bytes "B") /\
  files (fs (final (_run_export_in_thread always_converts (PurePath.of_str "/work")
                      uuid_a0 uuid_b0 "/out" reports_world))) !! original
  = Some (Bytes "B").
Proof.
  assert (PurePath.of_str
            (PurePath.str (PurePath.of_str "/work" </> ("temp_pdf_export_" +:+ uuid_a0)))
          = PurePath.of_str "/work" </> ("temp_pdf_export_" +:+ uuid_a0)) as Htemp
    by (vm_compute; reflexivity).
  assert (~ OS.under (PurePath.of_str "/work" </> ("temp_pdf_export_" +:+ uuid_a0))
            (PurePath.of_str "/b/report.docx")) as Hout.
  { apply (bool_decide_unpack _). vm_compute. exact I. }
  assert (PurePath.of_str "/b/report.docx"
          <> PurePath.of_str
               (PurePath.str (PurePath.of_str "/out" </> zip_filename_of "/out" uuid_b0)
                +:+ ".zip")) as Hne.
  { apply (bool_decide_unpack _). vm_compute. exact I. }
  assert (files (fs reports_world) !! PurePath.of_str "/b/report.docx" = Some (Bytes "B"))
    as Hfile by (vm_compute; reflexivity).
  cbv zeta. split_and!; [exact Htemp|exact Hout|exact Hne|exact Hfile|].
  exact (export_thread_keeps_other_files always_converts (PurePath.of_str "/work")
           uuid_a0 uuid_b0 "/out" reports_world (PurePath.of_str "/b/report.docx") (Bytes "B")
           Htemp Hout Hne Hfile).
Defined.

(** ** How the export thread ends *)

Section emits_facts.
Context {S : Type} (P : event -> Prop).

Lemma emits_ret {A} (a : A) : emits_only P (ret (S := S) a).
Proof. intros s. constructor. Qed.
Lemma emits_raise {A} e : emits_only P (raise (S := S) (A := A) e).
Proof. intros s. constructor. Qed.
Lemma emits_get : emits_only P (get (S := S)).
Proof. intros s. constructor. Qed.
Lemma emits_diverge {A} : emits_only P (diverge (S := S) (A := A)).
Proof. intros s. constructor. Qed.
Lemma emits_modify f : emits_only P (modify (S := S) f).
Proof. intros s. constructor. Qed.
Lemma emits_emit ev : P ev -> emits_only P (emit (S := S) ev).
Proof. intros H s. by repeat constructor. Qed.

Lemma emits_bind {A B} (m : Eff S A) (k : A -> Eff S B) :
  emits_only P m -> (forall a, emits_only P (k a)) -> emits_only P (bind m k).
Proof.
  intros Hm Hk s. unfold bind. specialize (Hm s).
  destruct (outcome (m s)); cbn [trace]; [|done..].
  apply Forall_app. split; [done|apply Hk].
Qed.

Lemma emits_try_except {A} (m : Eff S A) (h : exn -> Eff S A) :
  emits_only P m -> (forall e, emits_only P (h e)) -> emits_only P (try_except m h).
Proof.
  intros Hm Hh s. unfold try_except. specialize (Hm s).
  destruct (outcome (m s)); cbn [trace]; [done| |done].
  apply Forall_app. split; [done|apply Hh].
Qed.

Lemma emits_try_finally {A} (m : Eff S A) (c : Eff S unit) :
  emits_only P m -> emits_only P c -> emits_only P (try_finally m c).
Proof.
  intros Hm Hc s. unfold try_finally. specialize (Hm s). specialize (Hc (final (m s))).
  destruct (outcome (m s)); [| |done];
    destruct (outcome (c (final (m s)))); cbn [trace]; apply Forall_app; by split.
Qed.

Lemma emits_for_each {A} (xs : list A) (body : A -> Eff S unit) :
  (forall x, emits_only P (body x)) -> emits_only P (for_each xs body).
Proof.
  intros Hb. induction xs as [|x xs IH]; simpl; [apply emits_ret|by apply emits_bind].
Qed.

Lemma emits_if {A} (b : bool) (m1 m2 : Eff S A) :
  emits_only P m1 -> emits_only P m2 -> emits_only P (if b then m1 else m2).
Proof. by destruct b. Qed.
End emits_facts.

Lemma emits_zoom {S T A} P (proj : T -> S) (upd : S -> T -> T) (m : Eff S A) :
  emits_only P m -> emits_only P (zoom proj upd m).
Proof. intros Hm t. apply Hm. Qed.

Ltac emits_step :=
  lazymatch goal with
  | |- emits_only _ (ret _) => apply emits_ret
  | |- emits_only _ (raise _) => apply emits_raise
  | |- emits_only _ get => apply emits_get
  | |- emits_only _ diverge => apply emits_diverge
  | |- emits_only _ (emit _) => apply emits_emit
  | |- emits_only _ (modify _) => apply emits_modify
  | |- emits_only _ (bind _ _) => apply emits_bind
  | |- emits_only _ (try_except _ _) => apply emits_try_except
  | |- emits_only _ (try_finally _ _) => apply emits_try_finally
  | |- emits_only _ (for_each _ _) => apply emits_for_each
  | |- emits_only _ (zoom _ _ _) => apply emits_zoom
  | |- emits_only _ (if _ then _ else _) => apply emits_if
  | |- emits_only _ (match ?x with _ => _ end) => destruct x eqn:?
  | |- forall _, _ => intros ?
  end.

Lemma emits_Path_mkdir_rev P r rparts : emits_only P (OS.Path_mkdir_rev r rparts).
Proof.
  induction rparts as [|x up IH]; cbn [OS.Path_mkdir_rev];
    unfold OS.Path_mkdir_exist_ok, OS.mkdir; repeat emits_step; try done.
Qed.

Lemma emits_while_exists P fuel temp base p c : emits_only P (while_exists fuel temp base p c).
Proof.
  revert p c. induction fuel as [|fuel IH]; intros p c; simpl; unfold OS.path_exists;
    repeat emits_step; auto.
Qed.

Lemma emits_export P soffice self temp : emits_only P (export soffice self temp).
Proof.
  unfold export, OS.Path_mkdir_parents.
  apply emits_bind; [apply emits_Path_mkdir_rev|intros _].
  apply emits_for_each. intros [file_id original_path].
  unfold export_entry, subprocess_run_soffice, OS.shutil_copy, OS.Path_rename, OS.remove,
    OS.path_exists.
  repeat first [apply emits_while_exists | emits_step].
Qed.

Lemma emits_create_zip_archive P source_dir dest_dir zip_name :
  emits_only P (create_zip_archive source_dir dest_dir zip_name).
Proof.
  unfold create_zip_archive, OS.shutil_make_archive, OS.Path_mkdir_parents.
  repeat first [apply emits_Path_mkdir_rev | emits_step].
Qed.

(** How the [finally] block of [_run_export_in_thread] ends. *)
Lemma cleanup_outcome temp_dir (w : World) :
  PurePath.parts temp_dir <> [] ->
  let c := (let* w' := get in
            (if OS.exists_ (fs w') temp_dir then on_fs (OS.shutil_rmtree temp_dir) else ret tt) >>
            emit (SetControlStates true)) w in
  (outcome c = Return tt /\ OS.exists_ (fs (final c)) temp_dir = false /\
   trace c = [SetControlStates true])
  \/
  (outcome c = Raise OSError /\ final c = w /\ OS.is_file (fs w) temp_dir = true /\
   (temp_dir ∉ dirs (fs w)) /\ trace c = []).
Proof.
  intros Hparts c.
  destruct (decide (temp_dir ∈ dirs (fs w))) as [Hin|Hin].
  - left. subst c. rewrite (cleanup_removes_temp_dir temp_dir w Hin).
    cbn [outcome final trace fs]. split_and!; [done|by apply exists_delete_tree|done].
  - destruct (OS.exists_ (fs w) temp_dir) eqn:Hex.
    + right.
      assert (c = Run (Raise OSError) w []) as ->.
      { subst c. etransitivity.
        { eapply bind_Return_eq; [reflexivity|]. rewrite Hex.
          apply bind_Raise_eq. rewrite on_fs_eq.
          unfold OS.shutil_rmtree, bind, get. cbn [outcome final trace].
          rewrite (bool_decide_eq_false_2 _ Hin), Hex. cbn [outcome final trace raise].
          reflexivity. }
        by destruct w. }
      cbn [outcome final trace]. split_and!; [done|done| |done|done].
      unfold OS.exists_, OS.is_dir in Hex.
      rewrite (bool_decide_eq_false_2 _ Hin), (bool_decide_eq_false_2 _ Hparts) in Hex.
      by rewrite !orb_false_r in Hex.
    + left.
      assert (c = Run (Return tt) w [SetControlStates true]) as ->.
      { subst c. etransitivity.
        { eapply bind_Return_eq; [reflexivity|]. rewrite Hex.
          eapply bind_Return_eq; reflexivity. }
        reflexivity. }
      cbn [outcome final trace]. by split_and!.
Qed.

Lemma finally_after_handlers {S} (m : Eff S unit) (h : exn -> Eff S unit) (c : Eff S unit) s :
  (forall e s', outcome (h e s') = Return tt) ->
  outcome (try_finally (try_except m h) c s) <> Diverge ->
  exists s1 t1,
    try_except m h s = Run (Return tt) s1 t1 /\
    try_finally (try_except m h) c s = Run (outcome (c s1)) (final (c s1)) (t1 ++ trace (c s1)).
Proof.
  intros Hh Hnd.
  destruct (try_except m h s) as [o s1 t1] eqn:Hb.
  assert (o = Return tt) as ->.
  { destruct o as [[]|e|]; [done| |].
    - exfalso. revert Hb. unfold try_except.
      destruct (outcome (m s)) as [a|e'|] eqn:Ho.
      + intros Hb. rewrite Hb in Ho. discriminate.
      + intros [= Hb _ _]. by rewrite Hh in Hb.
      + intros Hb. rewrite Hb in Ho. discriminate.
    - exfalso. apply Hnd. unfold try_finally. by rewrite Hb. }
  exists s1, t1. split; [done|].
  unfold try_finally. rewrite Hb. cbn [outcome final trace].
  by destruct (outcome (c s1)) as [[]|e|].
Qed.

Lemma try_finally_Run {S} (m : Eff S unit) (c : Eff S unit) s s1 t1 :
  m s = Run (Return tt) s1 t1 ->
  try_finally m c s = Run (outcome (c s1)) (final (c s1)) (t1 ++ trace (c s1)).
Proof.
  intros Hm. unfold try_finally. rewrite Hm. cbn [outcome final trace].
  by destruct (outcome (c s1)) as [[]|e|].
Qed.

Lemma emits_run_export_body soffice temp_dir directory zip_filename :
  emits_only not_control
    (try_except
       (update_status_count "Conversion PDF en cours..." >>
        let* w := get in
        on_fs (export soffice (model w) temp_dir) >>
        update_status_count "Création de l'archive ZIP..." >>
        let* w := get in
        let* zip_file_path := on_fs (create_zip_archive temp_dir directory zip_filename) in
        emit (ShowInfo "Exportation Terminée"
                ("Exportation réussie !" +:+ String (ascii_of_nat 10) "" +:+
                 "Fichier ZIP créé : " +:+ PurePath.name (PurePath.of_str zip_file_path)
                 +:+ String (ascii_of_nat 10) "" +:+ "Dans : " +:+ directory)) >>
        handle_reset)
       (fun e =>
          match e with
          | CalledProcessError => update_status_count "Échec de l'exportation PDF."
          | _ =>
              update_status_count "Échec de l'exportation. Erreur fatale." >>
              emit (ShowError "Erreur Fatale d'Exportation" e)
          end)).
Proof.
  unfold update_status_count, handle_reset, on_model, on_fs, reset.
  repeat first [apply emits_export | apply emits_create_zip_archive | emits_step];
    by intros ?.
Qed.

(** The three ways the [finally] block of [_run_export_in_thread] goes:
    nothing is at the path of the working directory; [shutil.rmtree]
    removes it; [shutil.rmtree] raises, and the controls are not
    enabled. *)
Lemma cleanup_cases temp_dir (w : World) :
  let c := (let* w' := get in
            (if OS.exists_ (fs w') temp_dir then on_fs (OS.shutil_rmtree temp_dir) else ret tt) >>
            emit (SetControlStates true)) w in
  let removed := OS.shutil_rmtree temp_dir (fs w) in
  (OS.exists_ (fs w) temp_dir = false /\ c = Run (Return tt) w [SetControlStates true])
  \/
  (OS.exists_ (fs w) temp_dir = true /\ outcome removed = Return tt /\
   final removed = OS.delete_tree temp_dir (fs w) /\
   c = Run (Return tt) {| model := model w; fs := OS.delete_tree temp_dir (fs w) |}
         [SetControlStates true])
  \/
  (OS.exists_ (fs w) temp_dir = true /\
   exists e, outcome removed = Raise e /\ c = Run (Raise e) w []).
Proof.
  intros c removed.
  destruct (OS.exists_ (fs w) temp_dir) eqn:Hex.
  - destruct (decide (temp_dir ∈ dirs (fs w))) as [Hin|Hin].
    + right; left. subst c. rewrite (cleanup_removes_temp_dir temp_dir w Hin).
      subst removed. unfold OS.shutil_rmtree, bind, get. cbn [outcome final trace].
      rewrite (bool_decide_eq_true_2 _ Hin). by split_and!.
    + right; right. split; [done|]. exists OSError.
      subst removed. unfold OS.shutil_rmtree, bind, get. cbn [outcome final trace].
      rewrite (bool_decide_eq_false_2 _ Hin), Hex. split; [done|].
      subst c. etransitivity.
      { eapply bind_Return_eq; [reflexivity|]. rewrite Hex.
        apply bind_Raise_eq. rewrite on_fs_eq.
        unfold OS.shutil_rmtree, bind, get. cbn [outcome final trace].
        rewrite (bool_decide_eq_false_2 _ Hin), Hex. cbn [outcome final trace raise].
        reflexivity. }
      by destruct w.
  - left. split; [done|]. subst c. etransitivity.
    { eapply bind_Return_eq; [reflexivity|]. rewrite Hex.
      eapply bind_Return_eq; reflexivity. }
    reflexivity.
Qed.

(** X10.  When the converter never hangs, [_run_export_in_thread] ends
    in one of two ways.  Either it returns: then the working directory
    does not exist, and the last thing it does, and the only time it
    does it, is to enable the controls.  Or [shutil.rmtree] raises in
    the [finally] block: then this exception leaves the thread, the
    working directory is still there, and the controls have not been
    enabled. *)
Theorem export_thread_outcome (soffice : FS -> PurePath.t -> soffice_exit)
    (cwd : PurePath.t) (uuid_a uuid_b directory : string) (w : World) :
  never_hangs soffice ->
  let temp_dir := cwd </> ("temp_pdf_export_" +:+ uuid_a) in
  let r := _run_export_in_thread soffice cwd uuid_a uuid_b directory w in
  (outcome r = Return tt /\
   OS.exists_ (fs (final r)) temp_dir = false /\
   exists t, trace r = (t ++ [SetControlStates true])%list /\ Forall not_control t)
  \/
  (exists e,
      outcome r = Raise e /\
      OS.exists_ (fs (final r)) temp_dir = true /\
      outcome (OS.shutil_rmtree temp_dir (fs (final r))) = Raise e /\
      Forall not_control (trace r)).
Proof.
  intros Hends temp_dir r.
  pose proof (terminates_run_export_in_thread soffice cwd uuid_a uuid_b directory Hends w)
    as Ht.
  fold r in Ht. revert Ht. subst r. unfold _run_export_in_thread. fold temp_dir. intros Ht.
  apply finally_after_handlers in Ht as (w1 & t1 & Hbody & ->); [|by intros []].
  pose proof (emits_run_export_body soffice temp_dir directory
                (zip_filename_of directory uuid_b) w) as Hemits.
  unfold zip_filename_of in Hemits. rewrite Hbody in Hemits. cbn [trace] in Hemits.
  clear Hbody.
  pose proof (temp_dir_parts cwd uuid_a) as Hparts. fold temp_dir in Hparts.
  destruct (cleanup_cases temp_dir w1)
    as [(Hex & Hc)|[(Hex & _ & _ & Hc)|(Hex & e & He & Hc)]];
    rewrite Hc; cbn [outcome final trace fs].
  - left. split_and!; [done|done|by exists t1].
  - left. split_and!; [done|by apply exists_delete_tree|by exists t1].
  - right. exists e. rewrite app_nil_r. by split_and!.
Qed.

Lemma export_thread_outcome_witness :
  let temp_dir := PurePath.of_str "/work" </> ("temp_pdf_export_" +:+ uuid_a0) in
  let r := _run_export_in_thread fails_on_second (PurePath.of_str "/work") uuid_a0 uuid_b0
             "/out" three_world in
  never_hangs fails_on_second /\
  ((outcome r = Return tt /\
    OS.exists_ (fs (final r)) temp_dir = false /\
    exists t, trace r = (t ++ [SetControlStates true])%list /\ Forall not_control t)
   \/
   (exists e,
       outcome r = Raise e /\
       OS.exists_ (fs (final r)) temp_dir = true /\
       outcome (OS.shutil_rmtree temp_dir (fs (final r))) = Raise e /\
       Forall not_control (trace r))).
Proof.
  assert (never_hangs fails_on_second) as Hends.
  { intros s input. unfold fails_on_second.
    destruct (String.prefix "2_" (PurePath.name input)); discriminate. }
  cbv zeta. split; [exact Hends|].
  exact (export_thread_outcome fails_on_second (PurePath.of_str "/work") uuid_a0 uuid_b0
           "/out" three_world Hends).
Defined.

#[local] Instance preserves_preorder {S} (I : S -> Prop) : PreOrder (preserves I).
Proof.
  split; [intros s H; exact H|]. intros x y z Hxy Hyz H. apply Hyz, Hxy, H.
Qed.

Lemma kept_pdf (x : string) : PurePath.kept (x +:+ ".pdf") = true.
Proof.
  destruct x as [|c x]; [done|]. rewrite append_cons. unfold PurePath.kept. simpl.
  destruct x as [|c' x]; [|rewrite append_cons]; simpl; by destruct (Ascii.eqb c ".").
Qed.

Lemma joinpath_pdf_ne (temp : PurePath.t) (x : string) :
  PurePath.contains_sep x = false -> temp </> (x +:+ ".pdf") <> temp.
Proof.
  intros Hx.
  assert (PurePath.contains_sep (x +:+ ".pdf") = false) as Hsep
    by (by rewrite contains_sep_append, Hx).
  unfold PurePath.joinpath. rewrite (no_sep_is_absolute _ Hsep), (split_no_sep _ Hsep).
  simpl. rewrite kept_pdf. intros E. apply (f_equal PurePath.parts) in E. simpl in E.
  apply (f_equal length) in E. rewrite length_app in E. simpl in E. lia.
Qed.

Section plain_dir_facts.
Variable temp : PurePath.t.

Lemma plain_dir_write p c s :
  OS.is_dir s p = false -> preserves (plain_dir temp) s (OS.write_file p c s).
Proof.
  intros Hp [Hd Hf]. split; [done|]. unfold OS.write_file; simpl.
  rewrite lookup_insert_ne; [done|]. intros ->. congruence.
Qed.

Lemma plain_dir_delete p s : preserves (plain_dir temp) s (OS.delete_file p s).
Proof.
  intros [Hd Hf]. split; [done|]. unfold OS.delete_file; simpl.
  destruct (decide (p = temp)) as [->|Hne];
    [by rewrite lookup_delete_eq|by rewrite lookup_delete_ne].
Qed.

Lemma plain_dir_shutil_copy src dst : keeps (preserves (plain_dir temp)) (OS.shutil_copy src dst).
Proof.
  intros s. unfold OS.shutil_copy, bind, get. cbn [outcome final trace].
  destruct (files s !! src) as [c|]; [|by case_match].
  repeat (case_match; try done). cbn [outcome final trace modify].
  all: by apply plain_dir_write.
Qed.

Lemma plain_dir_Path_rename src dst : keeps (preserves (plain_dir temp)) (OS.Path_rename src dst).
Proof.
  intros s. unfold OS.Path_rename, bind, get. cbn [outcome final trace].
  destruct (files s !! src) as [c|]; [|by case_match].
  repeat (case_match; try done). cbn [outcome final trace modify].
  intros Hplain. apply plain_dir_delete with (p := src) in Hplain. revert Hplain.
  by apply plain_dir_write.
Qed.

Lemma plain_dir_remove p : keeps (preserves (plain_dir temp)) (OS.remove p).
Proof. unfold OS.remove. repeat keeps_step. apply plain_dir_delete. Qed.

Lemma plain_dir_while_exists fuel base p c :
  keeps (preserves (plain_dir temp)) (while_exists fuel temp base p c).
Proof.
  revert p c. induction fuel as [|fuel IH]; intros p c; simpl; unfold OS.path_exists;
    repeat keeps_step; auto.
Qed.

Lemma plain_dir_Path_mkdir_rev r rparts :
  keeps (preserves (plain_dir temp)) (OS.Path_mkdir_rev r rparts).
Proof.
  induction rparts as [|x up IH]; cbn [OS.Path_mkdir_rev];
    unfold OS.Path_mkdir_exist_ok, OS.mkdir; repeat keeps_step; auto.
  all: intros [Hd Hf]; split; [|done].
  all: unfold OS.is_dir, OS.add_dir in *; simpl.
  all: apply orb_true_iff in Hd as [Hd|Hd]; [|by rewrite Hd, orb_true_r].
  all: apply bool_decide_eq_true in Hd; rewrite bool_decide_eq_true_2; [done|set_solver].
Qed.

Lemma no_file_Path_mkdir_rev r rparts :
  keeps (preserves (no_file_at temp)) (OS.Path_mkdir_rev r rparts).
Proof.
  induction rparts as [|x up IH]; cbn [OS.Path_mkdir_rev];
    unfold OS.Path_mkdir_exist_ok, OS.mkdir; repeat keeps_step; auto.
  all: by intros H.
Qed.

Lemma plain_dir_create_zip_archive source_dir dest_dir zip_name :
  keeps (preserves (plain_dir temp)) (create_zip_archive source_dir dest_dir zip_name).
Proof.
  unfold create_zip_archive, OS.shutil_make_archive, OS.Path_mkdir_parents.
  apply keeps_bind; [apply _| |repeat keeps_step].
  apply keeps_bind; [apply _|apply keeps_get; apply _|intros s0].
  apply keeps_bind; [apply _| |intros _].
  { apply keeps_if; [apply plain_dir_Path_mkdir_rev|apply keeps_ret; apply _]. }
  intros s. unfold bind, get. cbn [outcome final trace].
  repeat (case_match; try done). cbn [outcome final trace modify ret].
  by apply plain_dir_write.
Qed.
End plain_dir_facts.

Section temp_facts.
Variable soffice : FS -> PurePath.t -> soffice_exit.
Variable temp : PurePath.t.
Hypothesis temp_str : PurePath.of_str (PurePath.str temp) = temp.

Lemma plain_dir_soffice input :
  keeps (preserves (plain_dir temp)) (subprocess_run_soffice soffice (PurePath.str temp) input).
Proof.
  unfold subprocess_run_soffice. repeat keeps_step.
  intros [Hd Hf]. split; [done|]. unfold OS.write_file; simpl.
  rewrite lookup_insert_ne; [done|]. rewrite temp_str.
  apply joinpath_pdf_ne, stem_no_sep, of_str_parts_no_sep.
Qed.

Lemma plain_dir_export_entry self item :
  keeps (preserves (plain_dir temp)) (export_entry soffice self temp item).
Proof.
  destruct item as [file_id original_path]. unfold export_entry, OS.path_exists.
  repeat keeps_step;
    auto using plain_dir_shutil_copy, plain_dir_soffice, plain_dir_while_exists,
      plain_dir_Path_rename, plain_dir_remove.
Qed.

(** When [export] returns, the working directory is a directory. *)
Lemma export_Return_is_dir self s u :
  outcome (export soffice self temp s) = Return u ->
  OS.is_dir (final (export soffice self temp s)) temp = true.
Proof.
  unfold export.
  destruct (outcome (OS.Path_mkdir_parents temp s)) as [u'|e|] eqn:Ho.
  - rewrite (bind_Return _ _ _ _ Ho). cbn [outcome final trace]. intros _.
    apply Path_mkdir_parents_Return in Ho.
    pose proof (keeps_for_each same_dirs (PyDict.items (file_path_dict self))
                  (export_entry soffice self temp)
                  (same_dirs_export_entry soffice self temp)
                  (final (OS.Path_mkdir_parents temp s))) as Hd.
    unfold OS.is_dir in *. unfold same_dirs in Hd. by rewrite Hd.
  - by rewrite (bind_Raise _ _ _ _ Ho).
  - by rewrite (bind_Diverge _ _ _ Ho).
Qed.

Lemma no_file_export self : keeps (preserves (no_file_at temp)) (export soffice self temp).
Proof.
  intros s Hnf. unfold export.
  pose proof (no_file_Path_mkdir_rev temp (PurePath.root temp) (rev (PurePath.parts temp)) s Hnf)
    as Hnf'. fold (OS.Path_mkdir_parents temp) in Hnf'.
  destruct (outcome (OS.Path_mkdir_parents temp s)) as [u'|e|] eqn:Ho.
  - rewrite (bind_Return _ _ _ _ Ho). cbn [outcome final trace].
    apply Path_mkdir_parents_Return in Ho.
    apply (keeps_for_each (preserves (plain_dir temp)) (PyDict.items (file_path_dict self))
             (export_entry soffice self temp) (plain_dir_export_entry self)
             (final (OS.Path_mkdir_parents temp s))).
    by split.
  - by rewrite (bind_Raise _ _ _ _ Ho).
  - by rewrite (bind_Diverge _ _ _ Ho).
Qed.
End temp_facts.

Lemma keeps_bind_Return {S A B} (R : relation S) `{!PreOrder R} (m : Eff S A)
    (k : A -> Eff S B) :
  keeps R m ->
  (forall s a, outcome (m s) = Return a -> R (final (m s)) (final (k a (final (m s))))) ->
  keeps R (bind m k).
Proof.
  intros Hm Hk s. unfold bind. specialize (Hm s). specialize (Hk s).
  destruct (outcome (m s)) as [a|e|]; cbn [final]; [|done..].
  etransitivity; [exact Hm|by apply Hk].
Qed.

Lemma preserves_on_fs {A} (I : FS -> Prop) (m : Eff FS A) :
  keeps (preserves I) m -> keeps (preserves (fun w => I (fs w))) (on_fs m).
Proof. intros H w. apply H. Qed.

Lemma preserves_on_model {A} (I : FS -> Prop) (m : Eff Model A) :
  keeps (preserves (fun w => I (fs w))) (on_model m).
Proof. intros w H. exact H. Qed.

Lemma no_file_run_export_body soffice temp_dir directory zip_filename :
  PurePath.of_str (PurePath.str temp_dir) = temp_dir ->
  keeps (preserves (fun w => no_file_at temp_dir (fs w)))
    (try_except
       (update_status_count "Conversion PDF en cours..." >>
        let* w := get in
        on_fs (export soffice (model w) temp_dir) >>
        update_status_count "Création de l'archive ZIP..." >>
        let* w := get in
        let* zip_file_path := on_fs (create_zip_archive temp_dir directory zip_filename) in
        emit (ShowInfo "Exportation Terminée"
                ("Exportation réussie !" +:+ String (ascii_of_nat 10) "" +:+
                 "Fichier ZIP créé : " +:+ PurePath.name (PurePath.of_str zip_file_path)
                 +:+ String (ascii_of_nat 10) "" +:+ "Dans : " +:+ directory)) >>
        handle_reset)
       (fun e =>
          match e with
          | CalledProcessError => update_status_count "Échec de l'exportation PDF."
          | _ =>
              update_status_count "Échec de l'exportation. Erreur fatale." >>
              emit (ShowError "Erreur Fatale d'Exportation" e)
          end)).
Proof.
  intros Htemp. unfold update_status_count, handle_reset.
  apply keeps_try_except; [apply _| |repeat keeps_step].
  apply keeps_bind; [apply _|repeat keeps_step|intros _].
  apply keeps_bind; [apply _|apply keeps_get; apply _|intros w0].
  apply keeps_bind_Return; [apply _|by apply preserves_on_fs, no_file_export|].
  intros w u Hret Hnf. rewrite on_fs_eq in Hret, Hnf |- *. cbn [outcome final fs] in *.
  assert (plain_dir temp_dir (final (export soffice (model w0) temp_dir (fs w)))) as Hplain.
  { split; [|done]. by apply (export_Return_is_dir _ _ _ _ u). }
  set (w2 := {| model := model w; fs := final (export soffice (model w0) temp_dir (fs w)) |}).
  change (plain_dir temp_dir (fs w2)) in Hplain.
  assert (forall w', plain_dir temp_dir (fs w') -> no_file_at temp_dir (fs w')) as Hweak
    by (by intros w' [_ ?]).
  apply Hweak. revert Hplain. clearbody w2.
  match goal with
  | |- plain_dir _ _ -> plain_dir _ (fs (final (?m w2))) =>
      cut (keeps (preserves (fun w => plain_dir temp_dir (fs w))) m); [intros Hk; apply Hk|]
  end.
  repeat first
    [ apply preserves_on_model
    | apply preserves_on_fs, plain_dir_create_zip_archive
    | keeps_step ].
Qed.

(** ** Failures other than a failed conversion *)

#[local] Instance dirs_kept_preorder : PreOrder dirs_kept.
Proof. split; unfold dirs_kept; [intros x|intros x y z]; set_solver. Qed.

Lemma silent_trace {S A} (m : Eff S A) s : emits_only (fun _ => False) m -> trace (m s) = [].
Proof. intros H. specialize (H s). destruct (trace (m s)); [done|]. by inversion H. Qed.

Lemma export_trace soffice self temp s : trace (export soffice self temp s) = [].
Proof. apply silent_trace, emits_export. Qed.

Lemma create_zip_archive_trace source_dir dest_dir zip_name s :
  trace (create_zip_archive source_dir dest_dir zip_name s) = [].
Proof. apply silent_trace, emits_create_zip_archive. Qed.

Lemma dirs_kept_Path_mkdir_rev r rparts : keeps dirs_kept (OS.Path_mkdir_rev r rparts).
Proof.
  induction rparts as [|x up IH]; cbn [OS.Path_mkdir_rev];
    unfold OS.Path_mkdir_exist_ok, OS.mkdir; repeat keeps_step; auto.
  all: unfold dirs_kept, OS.add_dir; simpl; set_solver.
Qed.

Lemma dirs_kept_create_zip_archive source_dir dest_dir zip_name :
  keeps dirs_kept (create_zip_archive source_dir dest_dir zip_name).
Proof.
  unfold create_zip_archive, OS.shutil_make_archive, OS.Path_mkdir_parents.
  repeat first [apply dirs_kept_Path_mkdir_rev | keeps_step].
  by unfold dirs_kept.
Qed.

Lemma not_conversion_failure_create_zip_archive source_dir dest_dir zip_name :
  raises_only not_conversion_failure (create_zip_archive source_dir dest_dir zip_name).
Proof.
  unfold create_zip_archive, OS.shutil_make_archive, OS.Path_mkdir_parents.
  repeat first [apply os_error_not_conversion_failure, os_error_Path_mkdir_rev | raises_step];
    unfold not_conversion_failure; discriminate.
Qed.

(** The handler of [except Exception as e]. *)
Lemma fatal_handler_eq (e : exn) (w : World) :
  e <> CalledProcessError ->
  match e with
  | CalledProcessError => update_status_count "Échec de l'exportation PDF."
  | _ =>
      update_status_count "Échec de l'exportation. Erreur fatale." >>
      emit (ShowError "Erreur Fatale d'Exportation" e)
  end w
  = Run (Return tt) w
      [UpdateStatus (get_file_count (model w)) "Échec de l'exportation. Erreur fatale.";
       ShowError "Erreur Fatale d'Exportation" e].
Proof. by destruct e. Qed.

Lemma cleanup_same_model temp_dir :
  keeps same_model
    (let* w' := get in
     (if OS.exists_ (fs w') temp_dir then on_fs (OS.shutil_rmtree temp_dir) else ret tt) >>
     emit (SetControlStates true)).
Proof. repeat keeps_step; auto using same_model_on_fs. Qed.

(** ** A conversion that fails *)

(** How the [finally] block of [export] ends. *)
Lemma staged_cleanup_outcome staged s :
  let c := (let* staged_exists := OS.path_exists staged in
            if staged_exists then OS.remove staged else ret tt) s in
  outcome c = Return tt \/ outcome c = Raise OSError.
Proof.
  intros c. subst c. rewrite (bind_Run _ _ _ _ _ _ (path_exists_Run staged s)).
  cbn [outcome final trace].
  destruct (OS.exists_ s staged) eqn:Hex; [|by left].
  unfold OS.remove, bind, get. cbn [outcome final trace].
  destruct (OS.is_file s staged) eqn:Hf; [by left|].
  destruct (OS.is_dir s staged) eqn:Hd; [by right|].
  unfold OS.exists_ in Hex. by rewrite Hf, Hd in Hex.
Qed.

(** An entry on whose staged copy the converter exits with a non-zero
    status: [export_entry] raises [CalledProcessError], or the [OSError]
    of a [finally] block that cannot remove what sits at the path of the
    staged copy. *)
Lemma export_entry_failed_conversion soffice self temp file_id original_path s :
  let staged := temp </> (pretty file_id +:+ "_" +:+ PurePath.name (PurePath.of_str original_path)) in
  let copied := OS.shutil_copy (PurePath.of_str original_path) staged s in
  is_Some (PyDict.get file_id (file_element_dict self)) ->
  outcome copied = Return tt ->
  soffice (final copied) (PurePath.of_str (PurePath.str staged)) = ExitNonZero ->
  outcome (export_entry soffice self temp (file_id, original_path) s) = Raise CalledProcessError \/
  outcome (export_entry soffice self temp (file_id, original_path) s) = Raise OSError.
Proof.
  intros staged copied [e He] Hcopy Hfail.
  unfold export_entry. rewrite He. fold staged.
  rewrite (bind_Return _ _ _ _ Hcopy). cbn [outcome final trace]. fold copied.
  set (body := try_except _ _).
  assert (body (final copied) = Run (Raise CalledProcessError) (final copied) []) as Hbody.
  { unfold body. eapply (try_except_Raise_eq _ _ _ _ _ [] _ _ []); [|reflexivity].
    apply bind_Raise_eq. unfold subprocess_run_soffice, bind, get.
    cbn [outcome final trace]. by rewrite Hfail. }
  unfold try_finally. rewrite Hbody. cbn [outcome final trace].
  destruct (staged_cleanup_outcome staged (final copied)) as [Hc|Hc];
    cbv zeta in Hc; rewrite Hc; auto.
Qed.

Lemma conversion_fails_among_Raise soffice self temp items s :
  conversion_fails_among soffice self temp items s ->
  outcome (for_each items (export_entry soffice self temp) s) = Raise CalledProcessError \/
  outcome (for_each items (export_entry soffice self temp) s) = Raise OSError.
Proof.
  revert s. induction items as [|[file_id original_path] rest IH]; intros s; [done|].
  cbn [conversion_fails_among for_each]. intros [(Hget & Hcopy & Hfail)|(Hret & Hrest)].
  - destruct (export_entry_failed_conversion soffice self temp file_id original_path s
                Hget Hcopy Hfail) as [H|H]; rewrite (bind_Raise _ _ _ _ H); auto.
  - rewrite (bind_Return _ _ _ _ Hret). cbn [outcome final trace]. by apply IH.
Qed.

(** Once made, the working directory is there however [export] ends. *)
Lemma export_keeps_working_directory soffice self temp s u :
  outcome (OS.Path_mkdir_parents temp s) = Return u ->
  OS.is_dir (final (export soffice self temp s)) temp = true.
Proof.
  intros Ho. unfold export. rewrite (bind_Return _ _ _ _ Ho). cbn [outcome final trace].
  apply Path_mkdir_parents_Return in Ho.
  pose proof (keeps_for_each same_dirs (PyDict.items (file_path_dict self))
                (export_entry soffice self temp)
                (same_dirs_export_entry soffice self temp)
                (final (OS.Path_mkdir_parents temp s))) as Hd.
  unfold OS.is_dir in *. unfold same_dirs in Hd. by rewrite Hd.
Qed.

(** A failed conversion ends [export] with an exception. *)
Lemma conversion_fails_Raise soffice self temp s :
  conversion_fails soffice self temp s ->
  (outcome (export soffice self temp s) = Raise CalledProcessError \/
   outcome (export soffice self temp s) = Raise OSError) /\
  OS.is_dir (final (export soffice self temp s)) temp = true.
Proof.
  intros [Hmade Hfails]. split; [|by eapply export_keeps_working_directory].
  unfold export. rewrite (bind_Return _ _ _ _ Hmade). cbn [outcome final trace].
  by apply conversion_fails_among_Raise.
Qed.

(** C2.  If the converter exits with a non-zero status on an entry that
    [Model.export] reaches, [export] raises ([CalledProcessError], or the
    [OSError] of its [finally] block when a directory sits at the path of
    the staged copy), and the run of [_run_export_in_thread] returns, the
    model is the one before the export, the temporary directory does not
    exist afterwards, and no archive is produced: the file system is the
    one [export] left, less the temporary directory and all it contains,
    and the trace shows the status of the failure and no success dialog
    ([create_zip_archive] is not reached). *)
Theorem failed_conversion_is_rolled_back (soffice : FS -> PurePath.t -> soffice_exit)
    (cwd : PurePath.t) (uuid_a uuid_b directory : string) (w : World) :
  let temp_dir := cwd </> ("temp_pdf_export_" +:+ uuid_a) in
  let exported := export soffice (model w) temp_dir (fs w) in
  conversion_fails soffice (model w) temp_dir (fs w) ->
  let r := _run_export_in_thread soffice cwd uuid_a uuid_b directory w in
  outcome r = Return tt /\
  model (final r) = model w /\
  OS.exists_ (fs (final r)) temp_dir = false /\
  fs (final r) = OS.delete_tree temp_dir (final exported) /\
  ((outcome exported = Raise CalledProcessError /\
    trace r = [UpdateStatus (get_file_count (model w)) "Conversion PDF en cours...";
               UpdateStatus (get_file_count (model w)) "Échec de l'exportation PDF.";
               SetControlStates true])
   \/
   (outcome exported = Raise OSError /\
    trace r = [UpdateStatus (get_file_count (model w)) "Conversion PDF en cours...";
               UpdateStatus (get_file_count (model w)) "Échec de l'exportation. Erreur fatale.";
               ShowError "Erreur Fatale d'Exportation" OSError;
               SetControlStates true])).
Proof.
  intros temp_dir exported Hfails r.
  destruct (conversion_fails_Raise _ _ _ _ Hfails) as [Hexp Hdir].
  fold exported in Hexp, Hdir.
  assert (temp_dir ∈ dirs (final exported)) as Hin.
  { unfold OS.is_dir in Hdir. apply orb_true_iff in Hdir as [Hd|Hd].
    - by apply bool_decide_eq_true in Hd.
    - apply bool_decide_eq_true in Hd. by apply temp_dir_parts in Hd. }
  pose proof (export_trace soffice (model w) temp_dir (fs w)) as Htr. fold exported in Htr.
  destruct Hexp as [Hexp|Hexp].
  - eassert (r = Run (Return tt) _ _) as ->.
    { subst r. unfold _run_export_in_thread. fold temp_dir.
      eapply try_finally_Return_eq.
      - eapply try_except_Raise_eq.
        + eapply bind_Return_eq; [apply update_status_count_eq|].
          eapply bind_Return_eq; [reflexivity|].
          apply bind_Raise_eq. rewrite on_fs_eq. fold exported. rewrite Hexp. reflexivity.
        + apply update_status_count_eq.
      - apply cleanup_removes_temp_dir. exact Hin. }
    cbn [outcome final trace model fs]. rewrite Htr.
    split_and!; try reflexivity.
    + apply exists_delete_tree, temp_dir_parts.
    + left. by split.
  - eassert (r = Run (Return tt) _ _) as ->.
    { subst r. unfold _run_export_in_thread. fold temp_dir.
      eapply try_finally_Return_eq.
      - eapply try_except_Raise_eq.
        + eapply bind_Return_eq; [apply update_status_count_eq|].
          eapply bind_Return_eq; [reflexivity|].
          apply bind_Raise_eq. rewrite on_fs_eq. fold exported. rewrite Hexp. reflexivity.
        + by apply fatal_handler_eq.
      - apply cleanup_removes_temp_dir. exact Hin. }
    cbn [outcome final trace model fs]. rewrite Htr.
    split_and!; try reflexivity.
    + apply exists_delete_tree, temp_dir_parts.
    + right. by split.
Qed.

Lemma failed_conversion_is_rolled_back_witness :
  let temp_dir := PurePath.of_str "/work" </> ("temp_pdf_export_" +:+ uuid_a0) in
  let exported := export fails_on_second (model three_world) temp_dir (fs three_world) in
  let r := _run_export_in_thread fails_on_second (PurePath.of_str "/work") uuid_a0 uuid_b0
             "/out" three_world in
  conversion_fails fails_on_second (model three_world) temp_dir (fs three_world) /\
  outcome r = Return tt /\
  model (final r) = model three_world /\
  OS.exists_ (fs (final r)) temp_dir = false /\
  fs (final r) = OS.delete_tree temp_dir (final exported) /\
  ((outcome exported = Raise CalledProcessError /\
    trace r = [UpdateStatus (get_file_count (model three_world)) "Conversion PDF en cours...";
               UpdateStatus (get_file_count (model three_world)) "Échec de l'exportation PDF.";
               SetControlStates true])
   \/
   (outcome exported = Raise OSError /\
    trace r = [UpdateStatus (get_file_count (model three_world)) "Conversion PDF en cours...";
               UpdateStatus (get_file_count (model three_world))
                 "Échec de l'exportation. Erreur fatale.";
               ShowError "Erreur Fatale d'Exportation" OSError;
               SetControlStates true])).
Proof.
  cbv zeta.
  assert (conversion_fails fails_on_second (model three_world)
            (PurePath.of_str "/work" </> ("temp_pdf_export_" +:+ uuid_a0)) (fs three_world))
    as Hfails.
  { split; [vm_compute; reflexivity|].
    right. split; [vm_compute; reflexivity|].
    left. split_and!; [by eexists|vm_compute; reflexivity|vm_compute; reflexivity]. }
  split; [exact Hfails|].
  exact (failed_conversion_is_rolled_back fails_on_second (PurePath.of_str "/work")
           uuid_a0 uuid_b0 "/out" three_world Hfails).
Defined.

(** The same when a directory sits at the path of the staged copy: the
    converter fails on entry 1, the [finally] block of [export] cannot
    remove the directory, and its [OSError] is what the thread reports. *)
Lemma failed_conversion_behind_directory :
  let exported := export never_converts (model staged_directory_world) reports_temp_dir
                    (fs staged_directory_world) in
  let r := _run_export_in_thread never_converts (PurePath.of_str "/work") uuid_a0 uuid_b0
             "/out" staged_directory_world in
  conversion_fails never_converts (model staged_directory_world) reports_temp_dir
    (fs staged_directory_world) /\
  outcome exported = Raise OSError /\
  outcome r = Return tt /\
  model (final r) = model staged_directory_world /\
  OS.exists_ (fs (final r)) reports_temp_dir = false /\
  trace r = [UpdateStatus 3 "Conversion PDF en cours...";
             UpdateStatus 3 "Échec de l'exportation. Erreur fatale.";
             ShowError "Erreur Fatale d'Exportation" OSError;
             SetControlStates true].
Proof.
  cbv zeta. split.
  { split; [vm_compute; reflexivity|].
    left. split_and!; [by eexists|vm_compute; reflexivity|vm_compute; reflexivity]. }
  split_and!; vm_compute; reflexivity.
Qed.

(** X12.  When [Model.export] raises an exception other than
    [CalledProcessError], the catalog is kept as it is, and the trace
    shows the status of a fatal error and the error dialog with this
    exception.  Then, when nothing is left at the path of the working
    directory or [shutil.rmtree] removes it, the controls are enabled and
    the run returns; and when [shutil.rmtree] raises, its exception
    leaves the thread and the controls are not enabled. *)
Theorem export_error_is_reported (soffice : FS -> PurePath.t -> soffice_exit)
    (cwd : PurePath.t) (uuid_a uuid_b directory : string) (w : World) (e : exn) :
  let temp_dir := cwd </> ("temp_pdf_export_" +:+ uuid_a) in
  let exported := export soffice (model w) temp_dir (fs w) in
  outcome exported = Raise e ->
  e <> CalledProcessError ->
  let r := _run_export_in_thread soffice cwd uuid_a uuid_b directory w in
  let reported :=
    [UpdateStatus (get_file_count (model w)) "Conversion PDF en cours...";
     UpdateStatus (get_file_count (model w)) "Échec de l'exportation. Erreur fatale.";
     ShowError "Erreur Fatale d'Exportation" e] in
  model (final r) = model w /\
  (((OS.exists_ (final exported) temp_dir = false \/
     outcome (OS.shutil_rmtree temp_dir (final exported)) = Return tt) /\
    outcome r = Return tt /\
    OS.exists_ (fs (final r)) temp_dir = false /\
    trace r = (reported ++ [SetControlStates true])%list)
   \/
   (exists e',
       OS.exists_ (final exported) temp_dir = true /\
       outcome (OS.shutil_rmtree temp_dir (final exported)) = Raise e' /\
       outcome r = Raise e' /\
       trace r = reported)).
Proof.
  intros temp_dir exported Hexp Hne r reported.
  pose proof (export_trace soffice (model w) temp_dir (fs w)) as Htr. fold exported in Htr.
  pose proof (temp_dir_parts cwd uuid_a) as Hparts. fold temp_dir in Hparts.
  set (w1 := {| model := model w; fs := final exported |}).
  subst r. unfold _run_export_in_thread. fold temp_dir.
  erewrite try_finally_Run; cycle 1.
  { eapply try_except_Raise_eq.
    - eapply bind_Return_eq; [apply update_status_count_eq|].
      eapply bind_Return_eq; [reflexivity|].
      apply bind_Raise_eq. rewrite on_fs_eq. fold exported. rewrite Hexp. reflexivity.
    - by apply fatal_handler_eq. }
  cbn [outcome final trace model fs]. fold w1. rewrite Htr.
  destruct (cleanup_cases temp_dir w1)
    as [(Hex & Hc)|[(Hex & Hrm & _ & Hc)|(Hex & e' & He' & Hc)]];
    cbv zeta in Hc; rewrite Hc; cbn [outcome final trace model fs].
  - split; [done|]. left. split_and!; [by left|done|done|done].
  - split; [done|]. left. split_and!; [by right|done|by apply exists_delete_tree|done].
  - split; [done|]. right. exists e'. by split_and!.
Qed.

Lemma export_error_is_reported_witness :
  let temp_dir := PurePath.of_str "/work" </> ("temp_pdf_export_" +:+ uuid_a0) in
  let exported := export not_installed (model three_world) temp_dir (fs three_world) in
  let r := _run_export_in_thread not_installed (PurePath.of_str "/work") uuid_a0 uuid_b0
             "/out" three_world in
  let reported :=
    [UpdateStatus (get_file_count (model three_world)) "Conversion PDF en cours...";
     UpdateStatus (get_file_count (model three_world)) "Échec de l'exportation. Erreur fatale.";
     ShowError "Erreur Fatale d'Exportation" FileNotFoundError] in
  outcome exported = Raise FileNotFoundError /\
  FileNotFoundError <> CalledProcessError /\
  model (final r) = model three_world /\
  (((OS.exists_ (final exported) temp_dir = false \/
     outcome (OS.shutil_rmtree temp_dir (final exported)) = Return tt) /\
    outcome r = Return tt /\
    OS.exists_ (fs (final r)) temp_dir = false /\
    trace r = (reported ++ [SetControlStates true])%list)
   \/
   (exists e',
       OS.exists_ (final exported) temp_dir = true /\
       outcome (OS.shutil_rmtree temp_dir (final exported)) = Raise e' /\
       outcome r = Raise e' /\
       trace r = reported)).
Proof.
  assert (outcome (export not_installed (model three_world)
                     (PurePath.of_str "/work" </> ("temp_pdf_export_" +:+ uuid_a0))
                     (fs three_world)) = Raise FileNotFoundError)
    as Hfail by (vm_compute; reflexivity).
  assert (FileNotFoundError <> CalledProcessError) as Hne by discriminate.
  cbv zeta. split; [exact Hfail|]. split; [exact Hne|].
  exact (export_error_is_reported not_installed (PurePath.of_str "/work") uuid_a0 uuid_b0
           "/out" three_world FileNotFoundError Hfail Hne).
Defined.

(** X13.  When [Model.export] returns and [Model.create_zip_archive]
    raises, [_run_export_in_thread] returns, the catalog is kept as it
    is, the working directory with the converted files is removed, and
    the trace is: the two progress statuses, the status of a fatal error,
    the error dialog with this exception, the controls enabled. *)
Theorem archive_error_is_reported (soffice : FS -> PurePath.t -> soffice_exit)
    (cwd : PurePath.t) (uuid_a uuid_b directory : string) (w : World) (e : exn) :
  let temp_dir := cwd </> ("temp_pdf_export_" +:+ uuid_a) in
  let exported := export soffice (model w) temp_dir (fs w) in
  let zipped :=
    create_zip_archive temp_dir directory (zip_filename_of directory uuid_b) (final exported) in
  outcome exported = Return tt ->
  outcome zipped = Raise e ->
  let r := _run_export_in_thread soffice cwd uuid_a uuid_b directory w in
  outcome r = Return tt /\
  model (final r) = model w /\
  fs (final r) = OS.delete_tree temp_dir (final zipped) /\
  OS.exists_ (fs (final r)) temp_dir = false /\
  trace r =
    [UpdateStatus (get_file_count (model w)) "Conversion PDF en cours...";
     UpdateStatus (get_file_count (model w)) "Création de l'archive ZIP...";
     UpdateStatus (get_file_count (model w)) "Échec de l'exportation. Erreur fatale.";
     ShowError "Erreur Fatale d'Exportation" e;
     SetControlStates true].
Proof.
  intros temp_dir exported zipped Hexp Hzip r.
  pose proof (temp_dir_parts cwd uuid_a) as Hparts. fold temp_dir in Hparts.
  assert (e <> CalledProcessError) as Hne.
  { exact (not_conversion_failure_create_zip_archive _ _ _ _ _ Hzip). }
  assert (temp_dir ∈ dirs (final zipped)) as Hin.
  { apply (dirs_kept_create_zip_archive temp_dir directory (zip_filename_of directory uuid_b)
             (final exported)).
    pose proof (export_Return_is_dir soffice temp_dir (model w) (fs w) tt Hexp) as Hd.
    fold exported in Hd. unfold OS.is_dir in Hd. apply orb_true_iff in Hd as [Hd|Hd].
    - by apply bool_decide_eq_true in Hd.
    - by apply bool_decide_eq_true in Hd. }
  pose proof (export_trace soffice (model w) temp_dir (fs w)) as Htr1. fold exported in Htr1.
  pose proof (create_zip_archive_trace temp_dir directory (zip_filename_of directory uuid_b)
                (final exported)) as Htr2. fold zipped in Htr2.
  eassert (r = Run (Return tt) _ _) as ->.
  { subst r. unfold _run_export_in_thread. fold temp_dir.
    eapply try_finally_Return_eq.
    - eapply try_except_Raise_eq.
      + eapply bind_Return_eq; [apply update_status_count_eq|].
        eapply bind_Return_eq; [reflexivity|].
        eapply bind_Return_eq.
        { rewrite on_fs_eq. fold exported. rewrite Hexp. reflexivity. }
        eapply bind_Return_eq; [apply update_status_count_eq|].
        eapply bind_Return_eq; [reflexivity|].
        apply bind_Raise_eq.
        rewrite on_fs_eq. cbn [fs model]. fold (zip_filename_of directory uuid_b).
        fold zipped. rewrite Hzip. reflexivity.
      + by apply fatal_handler_eq.
    - apply cleanup_removes_temp_dir. exact Hin. }
  cbn [outcome final trace model fs]. rewrite Htr1, Htr2.
  split_and!; try reflexivity.
  by apply exists_delete_tree.
Qed.

Lemma archive_error_is_reported_witness :
  let temp_dir := PurePath.of_str "/work" </> ("temp_pdf_export_" +:+ uuid_a0) in
  let exported := export always_converts (model reports_world) temp_dir (fs reports_world) in
  let zipped :=
    create_zip_archive temp_dir "/a/report.docx" (zip_filename_of "/a/report.docx" uuid_b0)
      (final exported) in
  let r := _run_export_in_thread always_converts (PurePath.of_str "/work") uuid_a0 uuid_b0
             "/a/report.docx" reports_world in
  outcome exported = Return tt /\
  outcome zipped = Raise OSError /\
  outcome r = Return tt /\
  model (final r) = model reports_world /\
  fs (final r) = OS.delete_tree temp_dir (final zipped) /\
  OS.exists_ (fs (final r)) temp_dir = false /\
  trace r =
    [UpdateStatus (get_file_count (model reports_world)) "Conversion PDF en cours...";
     UpdateStatus (get_file_count (model reports_world)) "Création de l'archive ZIP...";
     UpdateStatus (get_file_count (model reports_world))
       "Échec de l'exportation. Erreur fatale.";
     ShowError "Erreur Fatale d'Exportation" OSError;
     SetControlStates true].
Proof.
  assert (outcome (export always_converts (model reports_world)
                     (PurePath.of_str "/work" </> ("temp_pdf_export_" +:+ uuid_a0))
                     (fs reports_world)) = Return tt)
    as Hexp by (vm_compute; reflexivity).
  assert (outcome (create_zip_archive
                     (PurePath.of_str "/work" </> ("temp_pdf_export_" +:+ uuid_a0))
                     "/a/report.docx" (zip_filename_of "/a/report.docx" uuid_b0)
                     (final (export always_converts (model reports_world)
                               (PurePath.of_str "/work" </> ("temp_pdf_export_" +:+ uuid_a0))
                               (fs reports_world))))
          = Raise OSError)
    as Hzip by (vm_compute; reflexivity).
  cbv zeta. split; [exact Hexp|]. split; [exact Hzip|].
  exact (archive_error_is_reported always_converts (PurePath.of_str "/work") uuid_a0 uuid_b0
           "/a/report.docx" reports_world OSError Hexp Hzip).
Defined.

(** ** What the export raises and which directories it creates *)

Lemma raises_for_each_elem {S A} (P : exn -> Prop) (xs : list A) (body : A -> Eff S unit) :
  (forall x, x ∈ xs -> raises_only P (body x)) -> raises_only P (for_each xs body).
Proof.
  induction xs as [|x xs IH]; intros Hb; simpl.
  - apply raises_ret.
  - apply raises_bind; [apply Hb; left|intros _; apply IH].
    intros y Hy. apply Hb. by right.
Qed.

Lemma raises_weaken {S A} (P Q : exn -> Prop) (m : Eff S A) :
  (forall e, P e -> Q e) -> raises_only P m -> raises_only Q m.
Proof. intros HPQ Hm s e He. apply HPQ. by apply (Hm s). Qed.

Lemma export_error_while_exists fuel temp base p c :
  raises_only export_error (while_exists fuel temp base p c).
Proof.
  revert p c. induction fuel as [|fuel IH]; intros p c; simpl;
    unfold OS.path_exists; repeat raises_step; auto.
Qed.

Lemma export_error_export soffice self temp :
  PyDict.keys (file_path_dict self) = PyDict.keys (file_element_dict self) ->
  raises_only export_error (export soffice self temp).
Proof.
  intros Hkeys. unfold export. apply raises_bind.
  { apply (raises_weaken os_error); [|apply os_error_Path_mkdir_rev].
    intros e [-> | ->]; unfold export_error; auto. }
  intros _. apply raises_for_each_elem. intros [file_id original_path] Hin.
  assert (is_Some (PyDict.get file_id (file_element_dict self))) as [elems Hget].
  { apply get_is_Some. rewrite <- Hkeys. unfold PyDict.keys.
    apply list_elem_of_fmap. by exists (file_id, original_path). }
  unfold export_entry. rewrite Hget.
  unfold OS.shutil_copy, OS.path_exists, OS.Path_rename, OS.remove, subprocess_run_soffice.
  repeat first [apply export_error_while_exists | raises_step];
    unfold export_error; eauto 6.
Qed.

Lemma os_error_shutil_copy src dst : raises_only os_error (OS.shutil_copy src dst).
Proof. unfold OS.shutil_copy. repeat raises_step; unfold os_error; auto. Qed.

Lemma os_error_staged_cleanup staged :
  raises_only os_error (let* staged_exists := OS.path_exists staged in
                        if staged_exists then OS.remove staged else ret tt).
Proof. unfold OS.path_exists, OS.remove. repeat raises_step; unfold os_error; auto. Qed.

Lemma not_conversion_failure_final_name temp base generated :
  raises_only not_conversion_failure
    (let* fs := get in
     let* pdf_new_path := while_exists (enough_fuel fs) temp base
                            (temp </> (base +:+ ".pdf")) 1 in
     let* generated_exists := OS.path_exists generated in
     if generated_exists then OS.Path_rename generated pdf_new_path else ret tt).
Proof.
  unfold OS.path_exists, OS.Path_rename.
  repeat first [apply not_conversion_failure_while_exists | raises_step];
    unfold not_conversion_failure; discriminate.
Qed.

(** [export_entry] raises [CalledProcessError] for one reason: the entry
    is in the catalog, its original has been copied, and the converter
    has exited with a non-zero status on the copy. *)
Lemma export_entry_Raise_CalledProcessError soffice self temp file_id original_path s :
  let staged := temp </> (pretty file_id +:+ "_" +:+ PurePath.name (PurePath.of_str original_path)) in
  let copied := OS.shutil_copy (PurePath.of_str original_path) staged s in
  outcome (export_entry soffice self temp (file_id, original_path) s) = Raise CalledProcessError ->
  is_Some (PyDict.get file_id (file_element_dict self)) /\
  outcome copied = Return tt /\
  soffice (final copied) (PurePath.of_str (PurePath.str staged)) = ExitNonZero.
Proof.
  intros staged copied. unfold export_entry. fold staged.
  destruct (PyDict.get file_id (file_element_dict self)) as [e|]; [|discriminate].
  pose proof (os_error_shutil_copy (PurePath.of_str original_path) staged s) as Hcopy_err.
  fold copied in Hcopy_err.
  unfold bind at 1. fold copied.
  destruct (outcome copied) as [[]|e'|] eqn:Hcopy; cbn [outcome final trace];
    [|intros [= ->]; by destruct (Hcopy_err _ eq_refl)|discriminate].
  set (rest := bind get _).
  set (call := subprocess_run_soffice soffice (PurePath.str temp) (PurePath.str staged)).
  set (cleanup := bind (OS.path_exists staged) _).
  pose proof (os_error_staged_cleanup staged) as Hcleanup. fold cleanup in Hcleanup.
  pose proof (not_conversion_failure_final_name temp (elem_stem e)
                (temp </> (PurePath.stem staged +:+ ".pdf"))) as Hrest.
  fold rest in Hrest.
  intros H. split; [by eexists|]. split; [done|].
  assert (outcome (try_except (bind call (fun _ => rest)) (fun e => raise e) (final copied))
          = Raise CalledProcessError) as Hbody.
  { revert H. unfold try_finally.
    destruct (outcome (try_except _ _ (final copied))) as [a|e1|] eqn:Hb.
    - destruct (outcome (cleanup _)) as [u|e2|] eqn:Hc; cbn [outcome]; try discriminate.
      intros [= ->]. by destruct (Hcleanup _ _ Hc).
    - destruct (outcome (cleanup _)) as [u|e2|] eqn:Hc; cbn [outcome]; try discriminate.
      + by intros [= ->].
      + intros [= ->]. by destruct (Hcleanup _ _ Hc).
    - rewrite Hb. discriminate. }
  assert (outcome (bind call (fun _ => rest) (final copied)) = Raise CalledProcessError)
    as Hinner.
  { revert Hbody. unfold try_except.
    destruct (outcome (bind call _ (final copied))) as [a|e1|] eqn:Hi.
    - rewrite Hi. discriminate.
    - cbn [outcome raise]. by intros [= ->].
    - rewrite Hi. discriminate. }
  revert Hinner. unfold bind at 1.
  destruct (outcome (call (final copied))) as [a|e1|] eqn:Hs; cbn [outcome].
  - intros Hr. by destruct (Hrest _ _ Hr).
  - intros [= ->]. revert Hs. unfold call, subprocess_run_soffice, bind, get.
    cbn [outcome final trace].
    destruct (soffice (final copied) (PurePath.of_str (PurePath.str staged)));
      try done; try discriminate.
    by destruct (files (final copied) !! PurePath.of_str (PurePath.str staged)).
  - discriminate.
Qed.

Lemma for_each_Raise_CalledProcessError soffice self temp items s :
  outcome (for_each items (export_entry soffice self temp) s) = Raise CalledProcessError ->
  conversion_fails_among soffice self temp items s.
Proof.
  revert s. induction items as [|[file_id original_path] rest IH]; intros s;
    cbn [for_each conversion_fails_among]; [discriminate|].
  unfold bind at 1.
  destruct (outcome (export_entry soffice self temp (file_id, original_path) s))
    as [[]|e|] eqn:Ho; cbn [outcome].
  - intros H. right. split; [done|]. by apply IH.
  - intros [= ->]. left. by apply export_entry_Raise_CalledProcessError.
  - discriminate.
Qed.

(** [export] raises [CalledProcessError] only when a conversion fails. *)
Lemma export_Raise_conversion_fails soffice self temp s :
  outcome (export soffice self temp s) = Raise CalledProcessError ->
  conversion_fails soffice self temp s.
Proof.
  unfold export, conversion_fails. cbv zeta. unfold bind at 1.
  destruct (outcome (OS.Path_mkdir_parents temp s)) as [[]|e|] eqn:Ho; cbn [outcome].
  - intros H. split; [done|]. by apply for_each_Raise_CalledProcessError.
  - intros [= ->]. apply os_error_Path_mkdir_rev in Ho. by destruct Ho.
  - discriminate.
Qed.

(** X14.  On a reachable catalog [export] never raises [KeyError] or
    [ValueError]: what it raises is an error of the file system, or
    [CalledProcessError], and the latter only when, in this run, the
    converter has exited with a non-zero status on the staged copy of an
    entry that the loop has reached. *)
Theorem export_raises_on_reachable_catalog (soffice : FS -> PurePath.t -> soffice_exit)
    (py_int : string -> option Z) (ops : list op) (temp_outdir : PurePath.t) (s : FS)
    (e : exn) :
  outcome (export soffice (run_ops py_int ops Model_init) temp_outdir s) = Raise e ->
  e = OSError \/ e = FileNotFoundError \/
  (e = CalledProcessError /\
   conversion_fails soffice (run_ops py_int ops Model_init) temp_outdir s).
Proof.
  intros He.
  assert (export_error e) as [-> | [-> | ->]]; [|by left|by right; left|].
  { apply (export_error_export soffice (run_ops py_int ops Model_init) temp_outdir) in He;
      [exact He|].
    pose proof (catalog_inv_run_ops py_int ops Model_init catalog_inv_init) as [Hkeys _].
    exact Hkeys. }
  right; right. split; [done|]. by apply export_Raise_conversion_fails.
Qed.

Lemma export_raises_on_reachable_catalog_witness :
  outcome (export fails_on_second (run_ops int_decimal three_ops Model_init)
             reports_temp_dir (fs three_world)) = Raise CalledProcessError /\
  (CalledProcessError = OSError \/ CalledProcessError = FileNotFoundError \/
   (CalledProcessError = CalledProcessError /\
    conversion_fails fails_on_second (run_ops int_decimal three_ops Model_init)
      reports_temp_dir (fs three_world))).
Proof.
  assert (outcome (export fails_on_second (run_ops int_decimal three_ops Model_init)
                     reports_temp_dir (fs three_world)) = Raise CalledProcessError)
    as Hfail by (vm_compute; reflexivity).
  split; [exact Hfail|].
  exact (export_raises_on_reachable_catalog fails_on_second int_decimal three_ops
           reports_temp_dir (fs three_world) CalledProcessError Hfail).
Defined.

#[local] Instance dirs_within_preorder temp : PreOrder (dirs_within temp).
Proof.
  split.
  - intros x. split; [done|auto].
  - intros x y z [Hxy Hxy'] [Hyz Hyz']. split; [set_solver|].
    intros d Hd. destruct (Hyz' d Hd) as [Hy|Hu]; [|by right]. auto.
Qed.

Section dirs_within_facts.
Variable temp : PurePath.t.

Lemma dirs_within_add_dir p s : OS.under p temp -> dirs_within temp s (OS.add_dir p s).
Proof.
  intros Hu. unfold dirs_within, OS.add_dir; simpl. split; [set_solver|].
  intros d [Hd|Hd]%elem_of_union; [by left|]. apply elem_of_singleton in Hd as ->. by right.
Qed.

Lemma dirs_within_mkdir p : OS.under p temp -> keeps (dirs_within temp) (OS.mkdir p).
Proof. intros Hu. unfold OS.mkdir. repeat keeps_step. by apply dirs_within_add_dir. Qed.

Lemma dirs_within_Path_mkdir_exist_ok p :
  OS.under p temp -> keeps (dirs_within temp) (OS.Path_mkdir_exist_ok p).
Proof.
  intros Hu. unfold OS.Path_mkdir_exist_ok. repeat keeps_step. by apply dirs_within_mkdir.
Qed.

Lemma dirs_within_Path_mkdir_rev r rparts :
  OS.under (PurePath.mk r (rev rparts)) temp ->
  keeps (dirs_within temp) (OS.Path_mkdir_rev r rparts).
Proof.
  induction rparts as [|x up IH]; intros Hu; cbn [OS.Path_mkdir_rev].
  - repeat keeps_step; by apply dirs_within_mkdir.
  - assert (OS.under (PurePath.mk r (rev up)) temp) as Hup.
    { destruct Hu as [Hr Hp]. split; [done|]. simpl in *.
      etransitivity; [|exact Hp]. by apply prefix_app_r. }
    repeat keeps_step;
      auto using dirs_within_mkdir, dirs_within_Path_mkdir_exist_ok.
Qed.

Lemma dirs_within_same s s' : same_dirs s s' -> dirs_within temp s s'.
Proof. unfold same_dirs. intros H. split; rewrite H; [done|auto]. Qed.
End dirs_within_facts.

(** X15.  [export] removes no directory, and every directory it creates is
    its working directory or an ancestor of it. *)
Theorem export_creates_only_working_directory (soffice : FS -> PurePath.t -> soffice_exit)
    (self : Model) (temp_outdir : PurePath.t) (s : FS) :
  let s' := final (export soffice self temp_outdir s) in
  dirs s ⊆ dirs s' /\
  forall d, d ∈ dirs s' -> d ∈ dirs s \/ OS.under d temp_outdir.
Proof.
  assert (keeps (dirs_within temp_outdir) (export soffice self temp_outdir)) as Hk;
    [|exact (Hk s)].
  unfold export, OS.Path_mkdir_parents. apply keeps_bind; [apply _| |intros _].
  - apply dirs_within_Path_mkdir_rev. rewrite rev_involutive.
    destruct temp_outdir. split; simpl; done.
  - apply keeps_for_each; [apply _|]. intros item s1.
    apply dirs_within_same, same_dirs_export_entry.
Qed.

(** ** The staged copy *)

Lemma try_finally_final_cleanup {S A} (m : Eff S A) (c : Eff S unit) s :
  outcome (m s) <> Diverge -> final (try_finally m c s) = final (c (final (m s))).
Proof.
  intros H. unfold try_finally.
  destruct (outcome (m s)) as [a|e|]; [| |done]; by destruct (outcome (c _)).
Qed.

(** The [finally] block of [export]. *)
Lemma staged_cleanup_removes staged s :
  OS.is_file
    (final ((let* staged_exists := OS.path_exists staged in
             if staged_exists then OS.remove staged else ret tt) s)) staged = false.
Proof.
  rewrite (bind_Run _ _ _ _ _ _ (path_exists_Run staged s)). cbn [final].
  destruct (OS.exists_ s staged) eqn:Hex.
  - unfold OS.remove, bind, get. cbn [outcome final trace].
    destruct (OS.is_file s staged) eqn:Hf.
    + cbn [outcome final trace modify]. unfold OS.is_file, OS.delete_file; simpl.
      apply bool_decide_eq_false. rewrite lookup_delete_eq. by intros [? ?].
    + by destruct (OS.is_dir s staged).
  - unfold OS.exists_ in Hex. by apply orb_false_iff in Hex as [? _].
Qed.

(** X16.  Once the original has been copied into the working directory,
    [export_entry] does not leave the copy behind, whether the conversion
    succeeds, fails or cannot be launched: whenever the run of the
    converter ends. *)
Theorem export_entry_removes_staged_copy (soffice : FS -> PurePath.t -> soffice_exit)
    (self : Model) (temp_outdir : PurePath.t) (file_id : Z) (original_path : string)
    (s : FS) :
  let staged :=
    temp_outdir </> (pretty file_id +:+ "_" +:+ PurePath.name (PurePath.of_str original_path)) in
  is_Some (PyDict.get file_id (file_element_dict self)) ->
  outcome (OS.shutil_copy (PurePath.of_str original_path) staged s) = Return tt ->
  soffice (final (OS.shutil_copy (PurePath.of_str original_path) staged s))
    (PurePath.of_str (PurePath.str staged)) <> Hangs ->
  OS.is_file (final (export_entry soffice self temp_outdir (file_id, original_path) s)) staged
  = false.
Proof.
  intros staged [e He] Hcopy Hends.
  pose proof (export_entry_not_Diverge soffice self temp_outdir file_id original_path s Hends)
    as Ht.
  revert Ht. unfold export_entry. rewrite He. fold staged.
  rewrite (bind_Return _ _ _ _ Hcopy). cbn [outcome final trace]. intros Ht.
  rewrite try_finally_final_cleanup.
  - apply staged_cleanup_removes.
  - intros Hd. apply Ht. unfold try_finally. by rewrite Hd.
Qed.


Lemma export_entry_removes_staged_copy_witness :
  let s := final (OS.Path_mkdir_parents reports_temp_dir (fs reports_world)) in
  let staged := reports_temp_dir </> (pretty 1 +:+ "_" +:+
                                     PurePath.name (PurePath.of_str "/a/report.docx")) in
  is_Some (PyDict.get 1 (file_element_dict (model reports_world))) /\
  outcome (OS.shutil_copy (PurePath.of_str "/a/report.docx") staged s) = Return tt /\
  fails_on_second (final (OS.shutil_copy (PurePath.of_str "/a/report.docx") staged s))
    (PurePath.of_str (PurePath.str staged)) <> Hangs /\
  OS.is_file (final (export_entry fails_on_second (model reports_world) reports_temp_dir
                       (1, "/a/report.docx") s)) staged = false.
Proof.
  assert (is_Some (PyDict.get 1 (file_element_dict (model reports_world)))) as Hget.
  { exists (1, "report", ".docx"). reflexivity. }
  assert (outcome (OS.shutil_copy (PurePath.of_str "/a/report.docx")
                     (reports_temp_dir </> (pretty 1 +:+ "_" +:+
                                            PurePath.name (PurePath.of_str "/a/report.docx")))
                     (final (OS.Path_mkdir_parents reports_temp_dir (fs reports_world))))
          = Return tt) as Hcopy by (vm_compute; reflexivity).
  assert (fails_on_second
            (final (OS.shutil_copy (PurePath.of_str "/a/report.docx")
                      (reports_temp_dir </> (pretty 1 +:+ "_" +:+
                                             PurePath.name (PurePath.of_str "/a/report.docx")))
                      (final (OS.Path_mkdir_parents reports_temp_dir (fs reports_world)))))
            (PurePath.of_str
               (PurePath.str
                  (reports_temp_dir </> (pretty 1 +:+ "_" +:+
                                         PurePath.name (PurePath.of_str "/a/report.docx")))))
          <> Hangs) as Hends by (vm_compute; discriminate).
  cbv zeta. split; [exact Hget|]. split; [exact Hcopy|]. split; [exact Hends|].
  exact (export_entry_removes_staged_copy fails_on_second (model reports_world)
           reports_temp_dir 1 "/a/report.docx"
           (final (OS.Path_mkdir_parents reports_temp_dir (fs reports_world)))
           Hget Hcopy Hends).
Defined.

(** ** The window: the view and the handlers *)

(** ** Reading back the numeral of an id *)

Lemma digits_value_digit (acc : Z) (r : N) (s : string) :
  (r < 10)%N ->
  digits_value acc (String (pretty_N_char r) s) = digits_value (10 * acc + Z.of_N r) s.
Proof.
  intros Hr.
  assert (r = 0 \/ r = 1 \/ r = 2 \/ r = 3 \/ r = 4 \/ r = 5 \/ r = 6 \/ r = 7 \/ r = 8
          \/ r = 9)%N as Hcases by lia.
  repeat destruct Hcases as [->|Hcases]; try subst r; cbn; f_equal; lia.
Qed.

Lemma digits_value_pretty_N_go (x : N) :
  exists n : Z, 0 <= n /\
    forall acc s, digits_value acc (pretty_N_go x s) = digits_value (acc * 10 ^ n + Z.of_N x) s.
Proof.
  induction (N.lt_wf_0 x) as [x _ IH].
  assert (x = 0 \/ 0 < x)%N as [->|Hpos] by lia.
  - exists 0. split; [done|]. intros acc s. rewrite pretty_N_go_0. f_equal. simpl. lia.
  - destruct (IH (x `div` 10)%N) as (n & Hn & Hgo); [by apply N.div_lt|].
    exists (n + 1). split; [lia|]. intros acc s.
    rewrite pretty_N_go_step by done. rewrite Hgo.
    rewrite digits_value_digit by (apply N.mod_lt; lia). f_equal.
    rewrite Z.pow_add_r by lia. rewrite Z.pow_1_r.
    pose proof (N.div_mod x 10 ltac:(lia)) as Hdm.
    apply (f_equal Z.of_N) in Hdm. rewrite N2Z.inj_add, N2Z.inj_mul in Hdm.
    change (Z.of_N 10) with 10 in Hdm. lia.
Qed.

Lemma int_decimal_pretty (k : Z) : 1 <= k -> int_decimal (pretty k) = Some k.
Proof.
  intros Hk. destruct k as [|p|p]; [lia| |lia].
  unfold pretty, pretty_Z, pretty, pretty_positive, pretty, pretty_N.
  rewrite decide_False by done.
  destruct (digits_value_pretty_N_go (N.pos p)) as (n & Hn & Hgo).
  specialize (Hgo 0 ""). simpl in Hgo.
  unfold int_decimal. destruct (pretty_N_go (N.pos p) "") eqn:E.
  - simpl in Hgo. by injection Hgo.
  - by rewrite Hgo.
Qed.

(** ** The view and the catalog *)

Lemma on_world_on_model_Run {A} (m : Eff Model A) (a : App) o self' t :
  m (model (world a)) = Run o self' t ->
  on_world (on_model m) a
  = Run o {| world := {| model := self'; fs := fs (world a) |};
             view := fold_left (fun v ev => View.perform ev v) t (view a);
             dialogs := dialogs a; threads := threads a |} t.
Proof. intros H. unfold on_world, on_model, zoom. by rewrite H. Qed.

(** An entry of a catalog whose entries record their ids is stored where
    its id says. *)
Lemma values_get (d : list (Z * FileElement)) (v : FileElement) :
  NoDup (PyDict.keys d) ->
  (forall k e, PyDict.get k d = Some e -> elem_id e = k) ->
  v ∈ PyDict.values d -> PyDict.get (elem_id v) d = Some v.
Proof.
  intros Hnd Hid Hin. unfold PyDict.values in Hin.
  apply list_elem_of_fmap in Hin as ([k v'] & -> & Hin). simpl.
  pose proof (elem_of_get k v' d Hnd Hin) as Hget.
  by rewrite (Hid k v' Hget).
Qed.

(** Updating the row of an item and the entry of its id are the same
    update. *)
Lemma update_row_set (rows : list (nat * FileElement)) (d : list (Z * FileElement))
    (iid : nat) (v0 e' : FileElement) :
  rows.*2 = PyDict.values d ->
  NoDup rows.*1 ->
  NoDup (PyDict.keys d) ->
  (forall k e, PyDict.get k d = Some e -> elem_id e = k) ->
  snd <$> List.find (fun row => Nat.eqb (fst row) iid) rows = Some v0 ->
  (List.map (fun row => if Nat.eqb (fst row) iid then (iid, e') else row) rows).*2
  = PyDict.values (PyDict.set (elem_id v0) e' d).
Proof.
  revert d. induction rows as [|[i v] rows IH]; intros d Hval Hrows Hkeys Hid Hfind.
  { discriminate. }
  destruct d as [|[k v'] d]; [discriminate|].
  unfold PyDict.values, PyDict.keys in *. cbn in Hval, Hrows, Hkeys. injection Hval as <- Hval.
  apply NoDup_cons in Hrows as [Hi Hrows]. apply NoDup_cons in Hkeys as [Hk Hkeys].
  assert (elem_id v = k) as Hv.
  { apply Hid. simpl. by rewrite decide_True. }
  assert (forall k0 e, PyDict.get k0 d = Some e -> elem_id e = k0) as Hid'.
  { intros k0 e He. apply Hid. simpl. rewrite decide_False; [done|].
    intros ->. apply Hk. apply (get_is_Some k d). eauto. }
  cbn [List.find fst] in Hfind. cbn [List.map fmap list_fmap fst].
  destruct (Nat.eqb i iid) eqn:Hiid.
  - apply Nat.eqb_eq in Hiid as ->. simpl in Hfind. injection Hfind as <-.
    simpl. rewrite decide_True by done. simpl. f_equal.
    change (list_fmap _ _ snd d) with (d.*2). rewrite <- Hval. clear -Hi. induction rows as [|[j w] rows IH]; [done|].
    cbn in Hi |- *. apply not_elem_of_cons in Hi as [Hne Hi].
    rewrite (proj2 (Nat.eqb_neq j iid)) by done. simpl. f_equal. by apply IH.
  - simpl. assert (elem_id v0 <> k) as Hne.
    { intros Heq. apply Hk.
      assert (v0 ∈ rows.*2) as Hin.
      { destruct (List.find _ rows) as [[j w]|] eqn:Hf; [|discriminate].
        simpl in Hfind. injection Hfind as <-. apply find_some in Hf as [Hf _].
        apply list_elem_of_fmap. exists (j, w). split; [done|]. by apply list_elem_of_In. }
      rewrite Hval in Hin. change (d.*2) with (PyDict.values d) in Hin.
      pose proof (values_get d v0 Hkeys Hid' Hin) as Hget. rewrite Heq in Hget.
      apply (get_is_Some k d). eauto. }
    rewrite decide_False by done. simpl. f_equal. by apply IH.
Qed.

Lemma rows_inv_view (self : Model) (v v' : View.t) :
  View.tree v' = View.tree v -> View.inserted v' = View.inserted v ->
  rows_inv self v -> rows_inv self v'.
Proof. unfold rows_inv. intros -> ->. done. Qed.

Lemma rows_inv_added (self : Model) (v : View.t) absolute_path file_stem file_suffix :
  absolute_path ∉ PyDict.values (file_path_dict self) ->
  rows_inv self v ->
  rows_inv (added self absolute_path file_stem file_suffix)
    (View.add_treeview_item (counter self, file_stem, file_suffix) v).
Proof.
  intros Hp (Hcat & Hids & Hrows & Hnd & Hle). unfold rows_inv.
  pose proof (catalog_inv_counter_fresh _ Hcat) as Hfresh.
  split_and!.
  - by apply catalog_inv_added.
  - by apply ids_inv_added.
  - cbn [View.add_treeview_item View.tree added file_element_dict].
    rewrite (keys_set_new _ _ _ Hfresh). unfold PyDict.values in *.
    rewrite !fmap_app, Hrows. done.
  - cbn [View.add_treeview_item View.tree]. rewrite fmap_app. apply NoDup_app.
    split_and!; [done| |apply NoDup_singleton].
    intros i Hi ->%list_elem_of_singleton. rewrite Forall_forall in Hle.
    specialize (Hle _ Hi). simpl in Hle. lia.
  - cbn [View.add_treeview_item View.tree View.inserted]. rewrite fmap_app.
    apply Forall_app. split; [|by repeat constructor].
    eapply Forall_impl; [exact Hle|]. simpl. lia.
Qed.

Lemma rows_inv_item (self : Model) (v : View.t) (iid : nat) (v0 : FileElement) :
  rows_inv self v ->
  View.item_values iid v = Some v0 ->
  PyDict.get (elem_id v0) (file_element_dict self) = Some v0 /\ 1 <= elem_id v0.
Proof.
  intros (Hcat & Hids & Hrows & Hnd & Hle) Hitem. unfold View.item_values in Hitem.
  destruct Hcat as (Hsame & Hkeys & Hcat').
  destruct Hids as (Hseq & _ & Hid & _).
  assert (v0 ∈ PyDict.values (file_element_dict self)) as Hin.
  { rewrite <- Hrows. destruct (List.find _ _) as [[j w]|] eqn:Hf; [|discriminate].
    simpl in Hitem. injection Hitem as <-. apply find_some in Hf as [Hf _].
    apply list_elem_of_fmap. exists (j, w). split; [done|]. by apply list_elem_of_In. }
  pose proof (values_get _ v0 Hkeys Hid Hin) as Hget. split; [done|].
  assert (elem_id v0 ∈ PyDict.keys (file_element_dict self)) as Hk
    by (apply get_is_Some; eauto).
  rewrite Hseq in Hk. apply elem_of_seqZ in Hk. lia.
Qed.

Lemma rows_inv_renamed (self : Model) (v v' : View.t) (iid : nat) (v0 : FileElement)
    (new_stem : string) :
  View.item_values iid v = Some v0 ->
  View.update_treeview_item iid (elem_id v0, new_stem, elem_ext v0) v = Some v' ->
  rows_inv self v ->
  rows_inv (renamed self (elem_id v0) v0 new_stem) v'.
Proof.
  intros Hitem Hv Hinv.
  destruct (rows_inv_item self v iid v0 Hinv Hitem) as [Hget _].
  destruct Hinv as (Hcat & Hids & Hrows & Hnd & Hle).
  unfold View.update_treeview_item in Hv. rewrite Hitem in Hv. injection Hv as Hv.
  unfold View.item_values in Hitem.
  pose proof Hcat as (Hsame & Hkeys & Hcat').
  pose proof Hids as (_ & _ & Hid & _).
  unfold rows_inv. rewrite <- Hv. split_and!.
  - by apply catalog_inv_renamed.
  - by apply ids_inv_renamed.
  - cbn [View.tree renamed file_element_dict]. by apply update_row_set.
  - cbn [View.tree]. clear -Hnd. rewrite <- list_fmap_compose.
    erewrite list_fmap_ext; [exact Hnd|]. intros _ [j w] _. simpl.
    destruct (Nat.eqb j iid) eqn:E; [|done]. apply Nat.eqb_eq in E. by subst.
  - cbn [View.tree View.inserted]. rewrite <- list_fmap_compose.
    erewrite list_fmap_ext; [exact Hle|]. intros _ [j w] _. simpl.
    destruct (Nat.eqb j iid) eqn:E; [|done]. apply Nat.eqb_eq in E. by subst.
Qed.

Lemma rows_inv_cleared (v : View.t) : View.tree v = [] -> rows_inv Model_init v.
Proof.
  intros Hv. unfold rows_inv. rewrite Hv.
  split_and!; [apply catalog_inv_init|apply ids_inv_init|done|constructor|constructor].
Qed.

Section tracks_facts.
Variable I : Model -> View.t -> Prop.

Lemma tracks_ret {A} (a : A) : tracks I (ret a).
Proof. by intros w v H. Qed.
Lemma tracks_raise {A} e : tracks I (raise (A := A) e).
Proof. by intros w v H. Qed.
Lemma tracks_get : tracks I get.
Proof. by intros w v H. Qed.
Lemma tracks_emit ev :
  (forall self v, I self v -> I self (View.perform ev v)) -> tracks I (emit ev).
Proof. intros Hev w v H. by apply Hev. Qed.

Lemma tracks_bind {A B} (m : Eff World A) (k : A -> Eff World B) :
  tracks I m -> (forall a, tracks I (k a)) -> tracks I (bind m k).
Proof.
  intros Hm Hk w v H. unfold bind. specialize (Hm w v H).
  destruct (outcome (m w)); cbn [final trace]; [|done..].
  rewrite fold_left_app. by apply Hk.
Qed.

Lemma tracks_try_except {A} (m : Eff World A) (h : exn -> Eff World A) :
  tracks I m -> (forall e, tracks I (h e)) -> tracks I (try_except m h).
Proof.
  intros Hm Hh w v H. unfold try_except. specialize (Hm w v H).
  destruct (outcome (m w)); cbn [final trace]; [done| |done].
  rewrite fold_left_app. by apply Hh.
Qed.

Lemma tracks_try_finally {A} (m : Eff World A) (c : Eff World unit) :
  tracks I m -> tracks I c -> tracks I (try_finally m c).
Proof.
  intros Hm Hc w v H. unfold try_finally. specialize (Hm w v H).
  specialize (Hc (final (m w)) _ Hm).
  destruct (outcome (m w)); [| |done];
    destruct (outcome (c (final (m w)))); cbn [final trace]; by rewrite fold_left_app.
Qed.

Lemma tracks_if {A} (b : bool) (m1 m2 : Eff World A) :
  tracks I m1 -> tracks I m2 -> tracks I (if b then m1 else m2).
Proof. by destruct b. Qed.

Lemma tracks_on_fs {A} (m : Eff FS A) :
  emits_only (fun _ => False) m -> tracks I (on_fs m).
Proof.
  intros Hm w v H. rewrite on_fs_eq. cbn [final trace model].
  by rewrite (silent_trace m (fs w) Hm).
Qed.
End tracks_facts.

Lemma in_step_update_status (self : Model) (v : View.t) text :
  rows_inv self v -> in_step self (View.update_status (get_file_count self) text v).
Proof. intros Hrows. split; [by apply (rows_inv_view self v)|done]. Qed.

Lemma in_step_set_control_states (self : Model) (v : View.t) enabled :
  in_step self v -> in_step self (View.set_control_states enabled v).
Proof. intros [Hrows Hcount]. split; [by apply (rows_inv_view self v)|done]. Qed.

Lemma tracks_update_status_count text : tracks in_step (update_status_count text).
Proof.
  intros w v [H _]. rewrite update_status_count_eq. by apply in_step_update_status.
Qed.

Lemma handle_reset_Run (w : World) :
  handle_reset w
  = Run (Return tt) {| model := Model_init; fs := fs w |}
      [ClearTreeview; UpdateStatus 0 "";
       ShowInfo "Réinitialisation" "La liste des fichiers a été réinitialisée."].
Proof. reflexivity. Qed.

Lemma tracks_handle_reset : tracks in_step handle_reset.
Proof.
  intros w v _. rewrite handle_reset_Run. cbn [final trace model fold_left View.perform].
  split; [by apply rows_inv_cleared|done].
Qed.

Lemma emits_shutil_rmtree P d : emits_only P (OS.shutil_rmtree d).
Proof. unfold OS.shutil_rmtree. repeat emits_step. Qed.

Lemma tracks_run_export_in_thread soffice cwd uuid_a uuid_b directory :
  tracks in_step (_run_export_in_thread soffice cwd uuid_a uuid_b directory).
Proof.
  unfold _run_export_in_thread. apply tracks_try_finally.
  - apply tracks_try_except.
    + apply tracks_bind; [apply tracks_update_status_count|intros _].
      apply tracks_bind; [apply tracks_get|intros w0].
      apply tracks_bind; [apply tracks_on_fs, emits_export|intros _].
      apply tracks_bind; [apply tracks_update_status_count|intros _].
      apply tracks_bind; [apply tracks_get|intros w1].
      apply tracks_bind; [apply tracks_on_fs, emits_create_zip_archive|intros zip_file_path].
      apply tracks_bind; [apply tracks_emit; exact (fun _ _ H => H)|intros _].
      apply tracks_handle_reset.
    + intros e.
      destruct e;
        first [ apply tracks_update_status_count
              | apply tracks_bind;
                [apply tracks_update_status_count
                |intros _; apply tracks_emit; exact (fun _ _ H => H)] ].
  - apply tracks_bind; [apply tracks_get|intros w2].
    apply tracks_bind; [|intros _].
    + apply tracks_if; [apply tracks_on_fs, emits_shutil_rmtree|apply tracks_ret].
    + apply tracks_emit. intros self v. apply in_step_set_control_states.
Qed.

(** ** The handlers *)

Lemma bind_ret_Run {S A B} (x : A) (k : A -> Eff S B) (s : S) :
  bind (ret x) k s = k x s.
Proof. unfold bind, ret. cbn [outcome final trace]. by destruct (k x s). Qed.

Lemma bind_get_Run {S B} (k : S -> Eff S B) (s : S) : bind get k s = k s s.
Proof. unfold bind, get. cbn [outcome final trace]. by destruct (k s s). Qed.

(** One file of the selection: what [add_file] answers, and the
    application afterwards. *)
Lemma import_files_cons cwd file_name answer files n a :
  let f := PurePath.of_str file_name in
  let absolute_path := PurePath.str (Path_absolute cwd f) in
  let r := add_file absolute_path (PurePath.stem f) (PurePath.suffix f) (fun _ => answer)
             (model (world a)) in
  let a1 := {| world := {| model := final r; fs := fs (world a) |}; view := view a;
               dialogs := dialogs a; threads := threads a |} in
  (Forall (fun ev => exists name, ev = AskConfirm name) (trace r)) ->
  match outcome r with
  | Return (Some values) =>
      final (import_files cwd ((file_name, answer) :: files) n a)
      = final (import_files cwd files (n + 1) (set_view (View.add_treeview_item values) a1)) /\
      outcome (import_files cwd ((file_name, answer) :: files) n a)
      = outcome (import_files cwd files (n + 1) (set_view (View.add_treeview_item values) a1))
  | Return None =>
      final (import_files cwd ((file_name, answer) :: files) n a)
      = final (import_files cwd files n a1) /\
      outcome (import_files cwd ((file_name, answer) :: files) n a)
      = outcome (import_files cwd files n a1)
  | _ => True
  end.
Proof.
  intros f absolute_path r a1 Hasks. cbn [import_files]. fold f. fold absolute_path.
  destruct r as [o self' t] eqn:Hr. cbn [outcome final trace] in *.
  assert (fold_left (fun v ev => View.perform ev v) t (view a) = view a) as Hview.
  { clear -Hasks. induction Hasks as [|ev t [name ->] _ IH]; [done|]. simpl. exact IH. }
  pose proof (on_world_on_model_Run _ a _ _ _ Hr) as Hrun. rewrite Hview in Hrun.
  fold a1 in Hrun.
  destruct o as [[values|]| |]; [| |done..].
  - rewrite (bind_Run _ _ _ _ _ _ Hrun). cbn [outcome final trace].
    erewrite (bind_Run (bind (modify _) _)) by reflexivity. cbn [outcome final trace]. done.
  - rewrite (bind_Run _ _ _ _ _ _ Hrun). cbn [outcome final trace].
    rewrite bind_ret_Run. done.
Qed.

Lemma add_file_cases self absolute_path file_stem file_suffix ask :
  let r := add_file absolute_path file_stem file_suffix ask self in
  Forall (fun ev => exists name, ev = AskConfirm name) (trace r) /\
  ((outcome r = Return None /\ final r = self /\
    (absolute_path ∈ PyDict.values (file_path_dict self) \/
     (file_stem +:+ file_suffix ∈ unique_file_names self /\
      ask (file_stem +:+ file_suffix) = false)))
   \/
   (outcome r = Return (Some (counter self, file_stem, file_suffix)) /\
    final r = added self absolute_path file_stem file_suffix /\
    (absolute_path ∉ PyDict.values (file_path_dict self)))).
Proof.
  cbv zeta.
  destruct (decide (absolute_path ∈ PyDict.values (file_path_dict self))) as [Hp|Hp].
  { rewrite add_file_known_path by done. cbn [outcome final trace]. split; [constructor|].
    left. auto. }
  destruct (decide (file_stem +:+ file_suffix ∈ unique_file_names self)) as [Hn|Hn].
  - destruct (ask (file_stem +:+ file_suffix)) eqn:Hask.
    + rewrite add_file_admitted by done. cbn [outcome final trace].
      split; [repeat constructor; eauto|]. right. auto.
    + rewrite add_file_rejected by done. cbn [outcome final trace].
      split; [repeat constructor; eauto|]. left. auto.
  - rewrite add_file_fresh_name by done. cbn [outcome final trace]. split; [constructor|].
    right. auto.
Qed.

Lemma import_files_rows_inv cwd files n a :
  rows_inv (model (world a)) (view a) ->
  rows_inv (model (world (final (import_files cwd files n a))))
           (view (final (import_files cwd files n a))) /\
  exists n', outcome (import_files cwd files n a) = Return n'.
Proof.
  revert n a. induction files as [|[file_name answer] files IH]; intros n a Hinv.
  { split; [done|]. by exists n. }
  pose proof (import_files_cons cwd file_name answer files n a) as Hcons. cbv zeta in Hcons.
  destruct (add_file_cases (model (world a))
              (PurePath.str (Path_absolute cwd (PurePath.of_str file_name)))
              (PurePath.stem (PurePath.of_str file_name))
              (PurePath.suffix (PurePath.of_str file_name)) (fun _ => answer))
    as (Hasks & [(Ho & Hf & _)|(Ho & Hf & Hp)]);
    specialize (Hcons Hasks); rewrite Ho, Hf in Hcons; destruct Hcons as [-> ->];
    apply IH.
  - destruct a as [[m s] v d t]. exact Hinv.
  - cbn [set_view world view model]. by apply rows_inv_added.
Qed.

Lemma view_call_Run (ev : event) (a : App) :
  view_call ev a = Run (Return tt) (set_view (View.perform ev) a) [ev].
Proof. reflexivity. Qed.

Lemma handle_import_Run cwd files a :
  files <> [] ->
  let a1 := final (import_files cwd files 0 a) in
  let total_count := get_file_count (model (world a1)) in
  (exists n, outcome (import_files cwd files 0 a) = Return n) ->
  outcome (handle_import cwd files a) = Return tt /\
  final (handle_import cwd files a)
  = set_view (View.update_status total_count
                (if (0 <? total_count)%Z then "Prêt à exporter" else "")) a1.
Proof.
  intros Hne a1 total_count [n Hn]. subst a1 total_count.
  destruct files as [|file files]; [done|]. unfold handle_import.
  destruct (import_files cwd (file :: files) 0 a) as [o a1 t] eqn:E.
  cbn [outcome final] in *. subst o.
  rewrite (bind_Run _ _ _ _ _ _ E). cbn [outcome final trace].
  rewrite bind_get_Run.
  rewrite (bind_Run _ _ _ _ _ _ (view_call_Run _ a1)). cbn [outcome final trace].
  by destruct ((n =? 0)%Z && _).
Qed.

Section handler_facts.
Variable py_int : string -> option Z.
Hypothesis py_int_pretty : forall k, 1 <= k -> py_int (pretty k) = Some k.

Lemma app_eta (a : App) :
  {| world := {| model := model (world a); fs := fs (world a) |}; view := view a;
     dialogs := dialogs a; threads := threads a |} = a.
Proof. by destruct a as [[m s] v d t]. Qed.

(** How [_finish_edit_callback] ends on a row of the tree, when the
    view shows the rows of the catalog. *)
Lemma finish_edit_Run iid new_stem a values :
  rows_inv (model (world a)) (view a) ->
  String.eqb new_stem "" = false ->
  View.item_values iid (view a) = Some values ->
  let updated := (elem_id values, new_stem, elem_ext values) in
  (new_stem +:+ elem_ext values <> full_name values /\
   new_stem +:+ elem_ext values ∈ unique_file_names (model (world a)) /\
   _finish_edit_callback py_int iid new_stem a
   = Run (Return (Some tt))
       (add_dialog (ShowWarning "Doublon"
                      ("Le nom '" +:+ (new_stem +:+ elem_ext values)
                       +:+ "' existe déjà. Modification annulée.")) a) [])
  \/
  ((new_stem +:+ elem_ext values = full_name values \/
    new_stem +:+ elem_ext values ∉ unique_file_names (model (world a))) /\
   exists v',
     View.update_treeview_item iid updated (view a) = Some v' /\
     _finish_edit_callback py_int iid new_stem a
     = Run (Return (Some tt))
         {| world := {| model := renamed (model (world a)) (elem_id values) values new_stem;
                        fs := fs (world a) |};
            view := v'; dialogs := dialogs a; threads := threads a |} []).
Proof.
  intros Hinv Hne Hitem updated.
  destruct (rows_inv_item _ _ _ _ Hinv Hitem) as [Hget Hpos].
  pose proof (py_int_pretty _ Hpos) as Hint.
  unfold _finish_edit_callback. rewrite Hne, bind_get_Run, Hitem.
  destruct (decide (new_stem +:+ elem_ext values = full_name values \/
                    new_stem +:+ elem_ext values ∉ unique_file_names (model (world a))))
    as [Hok|Hno].
  - right. split; [done|].
    pose proof (update_file_stem_done py_int _ _ new_stem _ _ Hint Hget Hok) as Hupd.
    rewrite (bind_Run _ _ _ _ _ _ (on_world_on_model_Run _ a _ _ _ Hupd)).
    cbn [outcome final trace fold_left]. rewrite bind_get_Run. cbn [view].
    unfold View.update_treeview_item. rewrite Hitem. eexists. split; [reflexivity|].
    reflexivity.
  - left.
    assert (new_stem +:+ elem_ext values <> full_name values) as Hdiff.
    { intros Heq. apply Hno. by left. }
    assert (new_stem +:+ elem_ext values ∈ unique_file_names (model (world a))) as Hin.
    { destruct (decide (new_stem +:+ elem_ext values ∈ unique_file_names (model (world a))));
        [done|]. exfalso. apply Hno. by right. }
    split_and!; [done..|].
    pose proof (update_file_stem_conflict py_int _ _ new_stem _ _ Hint Hget Hdiff Hin) as Hupd.
    rewrite (bind_Run _ _ _ _ _ _ (on_world_on_model_Run _ a _ _ _ Hupd)).
    cbn [outcome final trace fold_left]. rewrite app_eta, bind_get_Run, Hint, Hget.
    reflexivity.
Qed.
End handler_facts.

Lemma handle_export_Run askdirectory a :
  handle_export askdirectory a
  = if (get_file_count (model (world a)) =? 0)%Z
    then Run (Return tt)
           (add_dialog (ShowWarning "Attention"
                          "Veuillez importer des fichiers avant d'exporter.") a) []
    else if String.eqb askdirectory "" then Run (Return tt) a []
    else
      Run (Return tt)
        (add_thread askdirectory
           (set_view (View.set_control_states false)
              (set_view (View.update_status (get_file_count (model (world a)))
                           "Initialisation de l'exportation...") a)))
        [UpdateStatus (get_file_count (model (world a))) "Initialisation de l'exportation...";
         SetControlStates false].
Proof.
  unfold handle_export. rewrite bind_get_Run.
  destruct (get_file_count (model (world a)) =? 0)%Z; [reflexivity|].
  destruct (String.eqb askdirectory ""); reflexivity.
Qed.

Section action_facts.
Variable py_int : string -> option Z.
Hypothesis py_int_pretty : forall k, 1 <= k -> py_int (pretty k) = Some k.
Variable soffice : FS -> PurePath.t -> soffice_exit.

Lemma in_step_start fs0 :
  in_step (model (world (final (start (App_init fs0)))))
          (view (final (start (App_init fs0)))).
Proof.
  split; [|reflexivity]. apply rows_inv_cleared. reflexivity.
Qed.

Lemma in_step_finish_edit iid new_stem a :
  in_step (model (world a)) (view a) ->
  in_step (model (world (final (_finish_edit_callback py_int iid new_stem a))))
          (view (final (_finish_edit_callback py_int iid new_stem a))).
Proof.
  intros [Hrows Hcount].
  destruct (String.eqb new_stem "") eqn:Hne.
  { unfold _finish_edit_callback. rewrite Hne. by split. }
  destruct (View.item_values iid (view a)) as [values|] eqn:Hitem.
  2:{ unfold _finish_edit_callback. rewrite Hne, bind_get_Run, Hitem. by split. }
  destruct (finish_edit_Run py_int py_int_pretty iid new_stem a values Hrows Hne Hitem)
    as [(_ & _ & ->)|(_ & v' & Hv' & ->)]; cbn [final world view model add_dialog].
  - by split.
  - split; [by apply (rows_inv_renamed _ (view a) v' iid)|].
    unfold View.update_treeview_item in Hv'. rewrite Hitem in Hv'. injection Hv' as <-.
    exact Hcount.
Qed.

Lemma in_step_handle_import cwd files a :
  in_step (model (world a)) (view a) ->
  in_step (model (world (final (handle_import cwd files a))))
          (view (final (handle_import cwd files a))).
Proof.
  intros [Hrows Hcount]. destruct files as [|file files]; [by split|].
  destruct (import_files_rows_inv cwd (file :: files) 0 a Hrows) as [Hrows' Hret].
  destruct (handle_import_Run cwd (file :: files) a ltac:(done) Hret) as [_ ->].
  cbn [set_view world view]. by apply in_step_update_status.
Qed.

Lemma in_step_act x a :
  in_step (model (world a)) (view a) ->
  in_step (model (world (act py_int soffice x a))) (view (act py_int soffice x a)).
Proof.
  intros Hstep.
  destruct x as [cwd files|iid new_stem| |askdirectory|cwd uuid_a uuid_b directory];
    cbn [act].
  - by apply in_step_handle_import.
  - by apply in_step_finish_edit.
  - by apply tracks_handle_reset.
  - rewrite handle_export_Run.
    destruct (get_file_count (model (world a)) =? 0)%Z; [exact Hstep|].
    destruct (String.eqb askdirectory ""); [exact Hstep|].
    cbn [final add_thread set_view world view].
    apply in_step_set_control_states, in_step_update_status, Hstep.
  - by apply tracks_run_export_in_thread.
Qed.

Lemma in_step_run_actions xs a :
  in_step (model (world a)) (view a) ->
  in_step (model (world (run_actions py_int soffice xs a)))
          (view (run_actions py_int soffice xs a)).
Proof.
  revert a. induction xs as [|x xs IH]; intros a Hstep; [done|].
  cbn [run_actions fold_left]. apply IH. by apply in_step_act.
Qed.
End action_facts.

(** X17.  After any sequence of imports, edits, resets, clicks on the
    export button and runs of the export thread, each handler running to
    its end before the next, the rows of the tree are the entries of
    [file_element_dict], in order, and the label shows their number. *)
Theorem view_shows_catalog (py_int : string -> option Z)
    (soffice : FS -> PurePath.t -> soffice_exit) (xs : list action) (fs0 : FS) :
  (forall k, 1 <= k -> py_int (pretty k) = Some k) ->
  shows_catalog (run_actions py_int soffice xs (final (start (App_init fs0)))).
Proof.
  intros Hint.
  destruct (in_step_run_actions py_int Hint soffice xs _ (in_step_start fs0))
    as [(_ & _ & Hrows & _) Hcount].
  by split.
Qed.

Lemma view_shows_catalog_witness :
  (forall k, 1 <= k -> int_decimal (pretty k) = Some k) /\
  shows_catalog (run_actions int_decimal fails_on_second session (final (start office))).
Proof.
  split; [exact int_decimal_pretty|].
  exact (view_shows_catalog int_decimal fails_on_second session (fs reports_world)
           int_decimal_pretty).
Defined.

(** X18.  In an application reached by such a sequence,
    [_finish_edit_callback] on a row of the tree with a name that is not
    empty returns: it raises neither [ValueError] nor [KeyError], and no
    [TclError] leaves it.  Either the name is taken, and the warning is
    shown and nothing else changes; or the entry of the row's id and the
    row both hold the element with the new stem, and no message box is
    shown. *)
Theorem finish_edit_on_a_row (py_int : string -> option Z)
    (soffice : FS -> PurePath.t -> soffice_exit) (xs : list action) (fs0 : FS)
    (iid : nat) (new_stem : string) (values : FileElement) :
  (forall k, 1 <= k -> py_int (pretty k) = Some k) ->
  let a := run_actions py_int soffice xs (final (start (App_init fs0))) in
  View.item_values iid (view a) = Some values ->
  new_stem <> "" ->
  let r := _finish_edit_callback py_int iid new_stem a in
  let updated := (elem_id values, new_stem, elem_ext values) in
  outcome r = Return (Some tt) /\
  trace r = [] /\
  fs (world (final r)) = fs (world a) /\
  ((final r = add_dialog (ShowWarning "Doublon"
                            ("Le nom '" +:+ (new_stem +:+ elem_ext values)
                             +:+ "' existe déjà. Modification annulée.")) a /\
    new_stem +:+ elem_ext values ∈ unique_file_names (model (world a)))
   \/
   (PyDict.get (elem_id values) (file_element_dict (model (world (final r)))) = Some updated /\
    View.item_values iid (view (final r)) = Some updated /\
    dialogs (final r) = dialogs a)).
Proof.
  intros Hint a Hitem Hne r updated.
  destruct (in_step_run_actions py_int Hint soffice xs _ (in_step_start fs0)) as [Hrows _].
  fold a in Hrows.
  assert (String.eqb new_stem "" = false) as Hne' by (by apply String.eqb_neq).
  destruct (finish_edit_Run py_int Hint iid new_stem a values Hrows Hne' Hitem)
    as [(_ & Hin & Hr)|(_ & v' & Hv' & Hr)]; subst r; rewrite Hr;
    cbn [outcome final trace world fs add_dialog model view dialogs].
  - split_and!; try done. by left.
  - split_and!; try done. right. split_and!; [apply get_set_eq| |done].
    unfold View.update_treeview_item in Hv'. rewrite Hitem in Hv'. injection Hv' as <-.
    unfold View.item_values in *. cbn [View.tree].
    clear -Hitem. induction (View.tree (view a)) as [|[j w] rows IH]; [discriminate|].
    cbn in Hitem |- *. destruct (Nat.eqb j iid) eqn:E; cbn.
    + by rewrite Nat.eqb_refl.
    + rewrite E. by apply IH.
Qed.

Lemma finish_edit_on_a_row_witness :
  let a := run_actions int_decimal always_converts two_imports (final (start office)) in
  let r := _finish_edit_callback int_decimal 2 "minutes" a in
  (forall k, 1 <= k -> int_decimal (pretty k) = Some k) /\
  View.item_values 2 (view a) = Some (2, "notes", ".odt") /\
  "minutes" <> "" /\
  outcome r = Return (Some tt) /\
  trace r = [] /\
  fs (world (final r)) = fs (world a) /\
  ((final r = add_dialog (ShowWarning "Doublon"
                            ("Le nom '" +:+ ("minutes" +:+ elem_ext (2, "notes", ".odt"))
                             +:+ "' existe déjà. Modification annulée.")) a /\
    "minutes" +:+ elem_ext (2, "notes", ".odt") ∈ unique_file_names (model (world a)))
   \/
   (PyDict.get (elem_id (2, "notes", ".odt")) (file_element_dict (model (world (final r))))
    = Some (elem_id (2, "notes", ".odt"), "minutes", elem_ext (2, "notes", ".odt")) /\
    View.item_values 2 (view (final r))
    = Some (elem_id (2, "notes", ".odt"), "minutes", elem_ext (2, "notes", ".odt")) /\
    dialogs (final r) = dialogs a)).
Proof.
  assert (View.item_values 2
            (view (run_actions int_decimal always_converts two_imports (final (start office))))
          = Some (2, "notes", ".odt")) as Hitem by (vm_compute; reflexivity).
  assert ("minutes" <> "") as Hne by discriminate.
  cbv zeta. split; [exact int_decimal_pretty|]. split; [exact Hitem|]. split; [exact Hne|].
  exact (finish_edit_on_a_row int_decimal always_converts two_imports (fs reports_world)
           2 "minutes" (2, "notes", ".odt") int_decimal_pretty Hitem Hne).
Defined.

(** ** Importing a selection again *)

Lemma handle_import_trace cwd files a n a1 t :
  files <> [] ->
  import_files cwd files 0 a = Run (Return n) a1 t ->
  let total_count := get_file_count (model (world a1)) in
  handle_import cwd files a
  = Run (Return tt)
      (set_view (View.update_status total_count
                   (if (0 <? total_count)%Z then "Prêt à exporter" else "")) a1)
      (t ++ UpdateStatus total_count (if (0 <? total_count)%Z then "Prêt à exporter" else "")
         :: (if ((n =? 0) && (0 <? total_count))%Z
             then [ShowInfo "Information"
                     "Aucun nouveau fichier ajouté. Les fichiers sélectionnés étaient déjà présents."]
             else [])).
Proof.
  intros Hne E total_count. subst total_count.
  destruct files as [|file files]; [done|]. unfold handle_import.
  rewrite (bind_Run _ _ _ _ _ _ E). cbn [outcome final trace].
  rewrite bind_get_Run.
  rewrite (bind_Run _ _ _ _ _ _ (view_call_Run _ a1)). cbn [outcome final trace].
  by destruct ((n =? 0)%Z && _).
Qed.

Lemma blocked_added cwd self absolute_path file_stem file_suffix x :
  catalog_inv self ->
  blocked cwd self x -> blocked cwd (added self absolute_path file_stem file_suffix) x.
Proof.
  intros Hinv. pose proof (catalog_inv_counter_fresh self Hinv) as Hfresh.
  destruct Hinv as (Hsame & _). unfold blocked, added. cbn [file_path_dict unique_file_names].
  rewrite keys_set_new by (by rewrite Hsame). unfold PyDict.values. rewrite fmap_app.
  intros [Hp|[Hn Ha]]; [left|right].
  - apply elem_of_app. by left.
  - split; [set_solver|done].
Qed.

Lemma import_files_blocks cwd files n a seen :
  rows_inv (model (world a)) (view a) ->
  Forall (blocked cwd (model (world a))) seen ->
  Forall (blocked cwd (model (world (final (import_files cwd files n a))))) (seen ++ files).
Proof.
  revert n a seen. induction files as [|[file_name answer] files IH]; intros n a seen Hinv Hseen.
  { by rewrite app_nil_r. }
  pose proof (import_files_cons cwd file_name answer files n a) as Hcons. cbv zeta in Hcons.
  replace (seen ++ (file_name, answer) :: files)%list
    with ((seen ++ [(file_name, answer)]) ++ files)%list by (by rewrite <- app_assoc).
  destruct (add_file_cases (model (world a))
              (PurePath.str (Path_absolute cwd (PurePath.of_str file_name)))
              (PurePath.stem (PurePath.of_str file_name))
              (PurePath.suffix (PurePath.of_str file_name)) (fun _ => answer))
    as (Hasks & [(Ho & Hf & Hwhy)|(Ho & Hf & Hp)]);
    specialize (Hcons Hasks); rewrite Ho, Hf in Hcons; destruct Hcons as [-> _];
    apply IH.
  - destruct a as [[m s] v d t]. exact Hinv.
  - cbn [world model]. apply Forall_app. split; [exact Hseen|].
    constructor; [exact Hwhy|constructor].
  - cbn [set_view world view model]. by apply rows_inv_added.
  - cbn [set_view world view model]. destruct Hinv as (Hcat & _).
    pose proof (catalog_inv_counter_fresh _ Hcat) as Hfresh.
    apply Forall_app. split.
    + eapply Forall_impl; [exact Hseen|]. intros x. by apply blocked_added.
    + constructor; [|constructor]. left. cbn [fst added file_path_dict].
      destruct Hcat as (Hsame & _).
      rewrite keys_set_new by (by rewrite Hsame). unfold PyDict.values. rewrite fmap_app.
      apply elem_of_app. right. by left.
Qed.

Lemma import_files_blocked cwd files n a :
  Forall (blocked cwd (model (world a))) files ->
  final (import_files cwd files n a) = a /\
  outcome (import_files cwd files n a) = Return n.
Proof.
  revert n a. induction files as [|[file_name answer] files IH]; intros n a Hall; [done|].
  apply Forall_cons in Hall as [Hfile Hall].
  pose proof (import_files_cons cwd file_name answer files n a) as Hcons. cbv zeta in Hcons.
  assert (exists t,
            add_file (PurePath.str (Path_absolute cwd (PurePath.of_str file_name)))
              (PurePath.stem (PurePath.of_str file_name))
              (PurePath.suffix (PurePath.of_str file_name)) (fun _ => answer)
              (model (world a))
            = Run (Return None) (model (world a)) t /\
            Forall (fun ev => exists name, ev = AskConfirm name) t) as (t & Hadd & Hasks).
  { destruct (decide (PurePath.str (Path_absolute cwd (PurePath.of_str file_name))
                      ∈ PyDict.values (file_path_dict (model (world a))))) as [Hp|Hp].
    - eexists. split; [by apply add_file_known_path|constructor].
    - destruct Hfile as [?|[Hn Ha]]; [done|]. cbn [fst snd] in *. subst answer.
      eexists. split; [by apply add_file_rejected|]. repeat constructor. eauto. }
  rewrite Hadd in Hcons. cbn [outcome final trace] in Hcons. rewrite app_eta in Hcons.
  destruct (Hcons Hasks) as [-> ->]. by apply IH.
Qed.

(** X19.  Importing a selection a second time, with the same answers,
    leaves the application as the first import left it: no entry is
    added and no row is inserted; and when the catalog is not empty the
    information box is shown. *)
Theorem import_again_changes_nothing (py_int : string -> option Z)
    (soffice : FS -> PurePath.t -> soffice_exit) (xs : list action) (fs0 : FS)
    (cwd : PurePath.t) (files : list (string * bool)) :
  (forall k, 1 <= k -> py_int (pretty k) = Some k) ->
  let a := run_actions py_int soffice xs (final (start (App_init fs0))) in
  let a1 := final (handle_import cwd files a) in
  let r := handle_import cwd files a1 in
  outcome r = Return tt /\
  final r = a1 /\
  (files <> [] -> 0 < get_file_count (model (world a1)) ->
   ShowInfo "Information"
     "Aucun nouveau fichier ajouté. Les fichiers sélectionnés étaient déjà présents."
   ∈ trace r).
Proof.
  intros Hint a a1 r.
  destruct (in_step_run_actions py_int Hint soffice xs _ (in_step_start fs0)) as [Hrows _].
  fold a in Hrows.
  destruct files as [|file files]; [by subst r a1|].
  set (a0 := final (import_files cwd (file :: files) 0 a)).
  destruct (import_files_rows_inv cwd (file :: files) 0 a Hrows) as [_ Hret].
  assert (a1 = set_view (View.update_status (get_file_count (model (world a0)))
                           (if (0 <? get_file_count (model (world a0)))%Z
                            then "Prêt à exporter" else "")) a0) as Ha1.
  { subst a1. by destruct (handle_import_Run cwd (file :: files) a ltac:(done) Hret) as [_ ->]. }
  pose proof (import_files_blocks cwd (file :: files) 0 a [] Hrows ltac:(constructor))
    as Hblocked. fold a0 in Hblocked. rewrite app_nil_l in Hblocked.
  assert (model (world a1) = model (world a0)) as Hmodel by (by rewrite Ha1).
  rewrite <- Hmodel in Hblocked.
  destruct (import_files_blocked cwd (file :: files) 0 a1 Hblocked) as [Hfinal Hout].
  destruct (import_files cwd (file :: files) 0 a1) as [o a2 t] eqn:E.
  cbn [outcome final] in Hfinal, Hout. subst o a2.
  subst r. rewrite (handle_import_trace cwd (file :: files) a1 0 a1 t ltac:(done) E).
  cbn [outcome final trace]. split_and!; [done| |].
  - rewrite Hmodel, Ha1. reflexivity.
  - intros _ Hpos. apply elem_of_app. right. right.
    apply Z.ltb_lt in Hpos. rewrite Hpos. cbn. by left.
Qed.

Lemma import_again_changes_nothing_witness :
  let a := run_actions int_decimal always_converts two_imports (final (start office)) in
  let a1 := final (handle_import (PurePath.of_str "/work") [("/a/report.docx", false)] a) in
  let r := handle_import (PurePath.of_str "/work") [("/a/report.docx", false)] a1 in
  (forall k, 1 <= k -> int_decimal (pretty k) = Some k) /\
  outcome r = Return tt /\
  final r = a1 /\
  ([("/a/report.docx", false)] <> [] -> 0 < get_file_count (model (world a1)) ->
   ShowInfo "Information"
     "Aucun nouveau fichier ajouté. Les fichiers sélectionnés étaient déjà présents."
   ∈ trace r).
Proof.
  cbv zeta. split; [exact int_decimal_pretty|].
  exact (import_again_changes_nothing int_decimal always_converts two_imports
           (fs reports_world) (PurePath.of_str "/work") [("/a/report.docx", false)]
           int_decimal_pretty).
Defined.

Lemma export_thread_Return_trace soffice cwd uuid_a uuid_b directory (w : World) :
  let temp_dir := cwd </> ("temp_pdf_export_" +:+ uuid_a) in
  PurePath.of_str (PurePath.str temp_dir) = temp_dir ->
  OS.is_file (fs w) temp_dir = false ->
  outcome (_run_export_in_thread soffice cwd uuid_a uuid_b directory w) <> Diverge ->
  exists t,
    trace (_run_export_in_thread soffice cwd uuid_a uuid_b directory w)
    = (t ++ [SetControlStates true])%list.
Proof.
  intros temp_dir Htemp Hfile Ht.
  revert Ht. unfold _run_export_in_thread. fold temp_dir. intros Ht.
  apply finally_after_handlers in Ht as (w1 & t1 & Hbody & ->); [|by intros []].
  pose proof (no_file_run_export_body soffice temp_dir directory
                (zip_filename_of directory uuid_b) Htemp w) as Hnf.
  unfold zip_filename_of in Hnf. rewrite Hbody in Hnf. cbn [final] in Hnf.
  clear Hbody.
  assert (no_file_at temp_dir (fs w1)) as Hw1.
  { apply Hnf. unfold OS.is_file in Hfile. apply bool_decide_eq_false in Hfile.
    unfold no_file_at. destruct (files (fs w) !! temp_dir) eqn:E; [|done].
    exfalso. apply Hfile. by eexists. }
  pose proof (temp_dir_parts cwd uuid_a) as Hparts. fold temp_dir in Hparts.
  destruct (cleanup_outcome temp_dir w1 Hparts)
    as [(Ho & Hex & Htr)|(_ & _ & Hf & _)]; cbn [outcome final trace].
  - rewrite Htr. by exists t1.
  - exfalso. unfold OS.is_file in Hf. apply bool_decide_eq_true in Hf as [c Hc].
    unfold no_file_at in Hw1. congruence.
Qed.

(** X20.  With a catalog that is not empty and a directory chosen,
    [handle_export] starts one thread for this directory and leaves the
    three buttons disabled, without touching the model or the file
    system; and once the thread has run to its end the three buttons are
    enabled again, provided no regular file sits at the path of the
    working directory. *)
Theorem export_disables_controls_until_thread_ends
    (soffice : FS -> PurePath.t -> soffice_exit) (cwd : PurePath.t)
    (uuid_a uuid_b directory : string) (a : App) :
  let temp_dir := cwd </> ("temp_pdf_export_" +:+ uuid_a) in
  get_file_count (model (world a)) <> 0 ->
  directory <> "" ->
  PurePath.of_str (PurePath.str temp_dir) = temp_dir ->
  OS.is_file (fs (world a)) temp_dir = false ->
  outcome (_run_export_in_thread soffice cwd uuid_a uuid_b directory (world a)) <> Diverge ->
  let a1 := final (handle_export directory a) in
  let a2 := final (on_world (_run_export_in_thread soffice cwd uuid_a uuid_b directory) a1) in
  threads a1 = (threads a ++ [directory])%list /\
  world a1 = world a /\
  (View.btn_import (view a1), View.btn_export (view a1), View.btn_reset (view a1))
  = (false, false, false) /\
  (View.btn_import (view a2), View.btn_export (view a2), View.btn_reset (view a2))
  = (true, true, true) /\
  threads a2 = threads a1.
Proof.
  intros temp_dir Hcount Hdir Htemp Hfile Hends a1 a2.
  assert (a1 = add_thread directory
                 (set_view (View.set_control_states false)
                    (set_view (View.update_status (get_file_count (model (world a)))
                                 "Initialisation de l'exportation...") a))) as Ha1.
  { subst a1. rewrite handle_export_Run.
    rewrite (proj2 (Z.eqb_neq _ _) Hcount), (proj2 (String.eqb_neq _ _) Hdir). done. }
  assert (world a1 = world a) as Hworld by (by rewrite Ha1).
  destruct (export_thread_Return_trace soffice cwd uuid_a uuid_b directory (world a1))
    as [t Ht]; [done|by rewrite Hworld|by rewrite Hworld|].
  split_and!; [by rewrite Ha1|done|by rewrite Ha1| |done].
  subst a2. unfold on_world. cbn [final view]. rewrite Ht, fold_left_app. done.
Qed.

Lemma export_disables_controls_until_thread_ends_witness :
  let a := run_actions int_decimal always_converts two_imports (final (start office)) in
  let temp_dir := PurePath.of_str "/work" </> ("temp_pdf_export_" +:+ uuid_a0) in
  let a1 := final (handle_export "/out" a) in
  let a2 := final (on_world (_run_export_in_thread always_converts (PurePath.of_str "/work")
                               uuid_a0 uuid_b0 "/out") a1) in
  get_file_count (model (world a)) <> 0 /\
  "/out" <> "" /\
  PurePath.of_str (PurePath.str temp_dir) = temp_dir /\
  OS.is_file (fs (world a)) temp_dir = false /\
  outcome (_run_export_in_thread always_converts (PurePath.of_str "/work") uuid_a0 uuid_b0
             "/out" (world a)) <> Diverge /\
  threads a1 = (threads a ++ ["/out"])%list /\
  world a1 = world a /\
  (View.btn_import (view a1), View.btn_export (view a1), View.btn_reset (view a1))
  = (false, false, false) /\
  (View.btn_import (view a2), View.btn_export (view a2), View.btn_reset (view a2))
  = (true, true, true) /\
  threads a2 = threads a1.
Proof.
  assert (get_file_count
            (model (world (run_actions int_decimal always_converts two_imports
                             (final (start office))))) <> 0) as Hcount
    by (vm_compute; discriminate).
  assert ("/out" <> "") as Hdir by discriminate.
  assert (PurePath.of_str
            (PurePath.str (PurePath.of_str "/work" </> ("temp_pdf_export_" +:+ uuid_a0)))
          = PurePath.of_str "/work" </> ("temp_pdf_export_" +:+ uuid_a0)) as Htemp
    by (vm_compute; reflexivity).
  assert (OS.is_file
            (fs (world (run_actions int_decimal always_converts two_imports
                          (final (start office)))))
            (PurePath.of_str "/work" </> ("temp_pdf_export_" +:+ uuid_a0)) = false) as Hfile
    by (vm_compute; reflexivity).
  assert (outcome (_run_export_in_thread always_converts (PurePath.of_str "/work")
                     uuid_a0 uuid_b0 "/out"
                     (world (run_actions int_decimal always_converts two_imports
                               (final (start office))))) <> Diverge) as Hends
    by (vm_compute; discriminate).
  cbv zeta. split; [exact Hcount|]. split; [exact Hdir|]. split; [exact Htemp|].
  split; [exact Hfile|]. split; [exact Hends|].
  exact (export_disables_controls_until_thread_ends always_converts (PurePath.of_str "/work")
           uuid_a0 uuid_b0 "/out" _ Hcount Hdir Htemp Hfile Hends).
Defined.

(** X21.  With an empty catalog, or when no directory is chosen,
    [handle_export] starts no thread, calls nothing of the view and
    leaves the model and the file system as they are; it shows the
    warning exactly when the catalog is empty. *)
Theorem handle_export_starts_nothing (askdirectory : string) (a : App) :
  get_file_count (model (world a)) = 0 \/ askdirectory = "" ->
  let r := handle_export askdirectory a in
  outcome r = Return tt /\
  trace r = [] /\
  world (final r) = world a /\
  view (final r) = view a /\
  threads (final r) = threads a /\
  dialogs (final r)
  = if bool_decide (get_file_count (model (world a)) = 0)
    then (dialogs a ++ [ShowWarning "Attention"
                          "Veuillez importer des fichiers avant d'exporter."])%list
    else dialogs a.
Proof.
  intros Hwhy r. subst r. rewrite handle_export_Run.
  destruct (decide (get_file_count (model (world a)) = 0)) as [Hz|Hnz].
  - rewrite (proj2 (Z.eqb_eq _ _) Hz), (bool_decide_eq_true_2 _ Hz). done.
  - rewrite (proj2 (Z.eqb_neq _ _) Hnz), (bool_decide_eq_false_2 _ Hnz).
    destruct Hwhy as [?|Hdir]; [done|]. by rewrite Hdir.
Qed.

Lemma handle_export_starts_nothing_witness :
  let a := final (start office) in
  let r := handle_export "/out" a in
  (get_file_count (model (world a)) = 0 \/ "/out" = "") /\
  outcome r = Return tt /\
  trace r = [] /\
  world (final r) = world a /\
  view (final r) = view a /\
  threads (final r) = threads a /\
  dialogs (final r)
  = if bool_decide (get_file_count (model (world a)) = 0)
    then (dialogs a ++ [ShowWarning "Attention"
                          "Veuillez importer des fichiers avant d'exporter."])%list
    else dialogs a.
Proof.
  assert (get_file_count (model (world (final (start office)))) = 0 \/ "/out" = "") as Hwhy
    by (left; reflexivity).
  cbv zeta. split; [exact Hwhy|].
  exact (handle_export_starts_nothing "/out" (final (start office)) Hwhy).
Defined.

(** ** The path of the converter's output *)

Lemma staged_cleanup_keeps_free staged s p :
  files s !! p = None ->
  files (final ((let* present := OS.path_exists staged in
                 if present then OS.remove staged else ret tt) s)) !! p = None.
Proof.
  intros Hp. unfold bind, OS.path_exists, OS.remove, get, ret. simpl.
  destruct (OS.exists_ s staged); simpl; [|done].
  destruct (OS.is_file s staged); simpl.
  - destruct (decide (staged = p)) as [->|Hne];
      [by rewrite lookup_delete_eq|by rewrite lookup_delete_ne].
  - by destruct (OS.is_dir s staged).
Qed.

Lemma staged_cleanup_frame staged s p :
  p <> staged ->
  files (final ((let* present := OS.path_exists staged in
                 if present then OS.remove staged else ret tt) s)) !! p = files s !! p.
Proof.
  intros Hp. unfold bind, OS.path_exists, OS.remove, get, ret. simpl.
  destruct (OS.exists_ s staged); simpl; [|done].
  destruct (OS.is_file s staged); simpl.
  - by rewrite lookup_delete_ne.
  - by destruct (OS.is_dir s staged).
Qed.

(** X22.  The path of the converter's output is vacated.  When the copy
    and the conversion of an entry succeed, and the final path can be
    written, the output is moved to the final path and nothing is left at
    [<id>_<original stem>.pdf]: a file that sat there before the entry
    was processed (the final PDF of an earlier entry whose stem the user
    set to [<id>_<original stem>], say) has been overwritten by the
    converter and is in the working directory no more.  Every other file
    but the staged copy is as the converter left it. *)
Theorem export_entry_vacates_generated_path (soffice : FS -> PurePath.t -> soffice_exit)
    (self : Model) (temp_outdir : PurePath.t) (file_id : Z) (original_path : string)
    (e : FileElement) (s : FS) (c : content) :
  PyDict.get file_id (file_element_dict self) = Some e ->
  let staged :=
    temp_outdir </> (pretty file_id +:+ "_" +:+ PurePath.name (PurePath.of_str original_path)) in
  let generated := temp_outdir </> (PurePath.stem staged +:+ ".pdf") in
  let copied := OS.shutil_copy (PurePath.of_str original_path) staged s in
  let converted :=
    subprocess_run_soffice soffice (PurePath.str temp_outdir) (PurePath.str staged)
      (final copied) in
  outcome copied = Return tt ->
  outcome converted = Return tt ->
  files (final converted) !! generated = Some c ->
  exists pdf_new_path,
    first_free (final converted) temp_outdir (elem_stem e) pdf_new_path /\
    (OS.is_dir (final converted) (PurePath.parent pdf_new_path) = true ->
     let after := final (export_entry soffice self temp_outdir (file_id, original_path) s) in
     files after !! generated = None /\
     files after !! pdf_new_path = Some c /\
     forall p, p <> generated -> p <> pdf_new_path -> p <> staged ->
               files after !! p = files (final converted) !! p).
Proof.
  intros Hget staged generated copied converted Hcopy Hconv Hgen.
  destruct (while_exists_first_free (final converted) temp_outdir (elem_stem e))
    as (q & Hloop & Hfree & Hq).
  exists q. split; [by split|]. intros Hparent after.
  assert (generated <> q) as Hgq.
  { intros ->. unfold OS.exists_, OS.is_file in Hfree. rewrite Hgen in Hfree.
    rewrite bool_decide_eq_true_2 in Hfree by eauto. done. }
  assert (OS.exists_ (final converted) staged = true) as Hstaged.
  { apply soffice_keeps_existing. by eapply shutil_copy_exists. }
  assert (staged <> q) as Hne by (intros ->; congruence).
  subst after. unfold export_entry. rewrite Hget. fold staged. fold generated.
  rewrite (bind_Return _ _ _ _ Hcopy). cbn [outcome final trace]. fold copied.
  set (body := bind (subprocess_run_soffice soffice _ _) _).
  assert (outcome (body (final copied)) = Return tt /\
          final (body (final copied))
          = OS.write_file q c (OS.delete_file generated (final converted))) as [Hout Hfin].
  { unfold body. rewrite (bind_Return _ _ _ _ Hconv). fold converted.
    cbn [outcome final trace].
    rewrite (bind_Run _ _ _ _ _ _ (get_Run _)). cbn [outcome final trace].
    rewrite (bind_Run _ _ _ _ _ _ Hloop). cbn [outcome final trace].
    rewrite (bind_Run _ _ _ _ _ _ (path_exists_Run _ _)). cbn [outcome final trace].
    assert (OS.exists_ (final converted) generated = true) as ->.
    { unfold OS.exists_, OS.is_file. rewrite Hgen.
      rewrite bool_decide_eq_true_2 by eauto. done. }
    rewrite (Path_rename_moves generated q (final converted) c) by done.
    done. }
  rewrite (try_finally_final _ _ _ tt).
  2:{ by rewrite (try_except_Return _ _ _ tt). }
  rewrite (try_except_Return _ _ _ tt) by done. rewrite Hfin.
  split_and!.
  - apply staged_cleanup_keeps_free. unfold OS.write_file, OS.delete_file; simpl.
    rewrite lookup_insert_ne by done. apply lookup_delete_eq.
  - apply staged_cleanup_keeps; [|done].
    unfold OS.write_file; simpl. apply lookup_insert_eq.
  - intros p Hpg Hpq Hps. rewrite staged_cleanup_frame by done.
    unfold OS.write_file, OS.delete_file; simpl.
    rewrite lookup_insert_ne by done. by rewrite lookup_delete_ne.
Qed.

Lemma export_entry_vacates_generated_path_witness :
  let self := run_ops int_decimal clash_ops Model_init in
  let s := final (export_entry always_converts self reports_temp_dir (1, "/a/report.docx")
                    (final (OS.Path_mkdir_parents reports_temp_dir (fs reports_world)))) in
  let staged :=
    reports_temp_dir </> (pretty 2 +:+ "_" +:+ PurePath.name (PurePath.of_str "/b/report.docx")) in
  let generated := reports_temp_dir </> (PurePath.stem staged +:+ ".pdf") in
  let copied := OS.shutil_copy (PurePath.of_str "/b/report.docx") staged s in
  let converted :=
    subprocess_run_soffice always_converts (PurePath.str reports_temp_dir)
      (PurePath.str staged) (final copied) in
  files s !! generated = Some (Pdf (Bytes "A")) /\
  PyDict.get 2 (file_element_dict self) = Some (2, "report", ".docx") /\
  outcome copied = Return tt /\
  outcome converted = Return tt /\
  files (final converted) !! generated = Some (Pdf (Bytes "B")) /\
  exists pdf_new_path,
    first_free (final converted) reports_temp_dir "report" pdf_new_path /\
    (OS.is_dir (final converted) (PurePath.parent pdf_new_path) = true ->
     let after := final (export_entry always_converts self reports_temp_dir
                           (2, "/b/report.docx") s) in
     files after !! generated = None /\
     files after !! pdf_new_path = Some (Pdf (Bytes "B")) /\
     forall p, p <> generated -> p <> pdf_new_path -> p <> staged ->
               files after !! p = files (final converted) !! p).
Proof.
  cbv zeta.
  set (self := run_ops int_decimal clash_ops Model_init).
  set (s := final (export_entry always_converts self reports_temp_dir (1, "/a/report.docx")
                     (final (OS.Path_mkdir_parents reports_temp_dir (fs reports_world))))).
  set (staged := reports_temp_dir </> (pretty 2 +:+ "_" +:+
                                      PurePath.name (PurePath.of_str "/b/report.docx"))).
  assert (files s !! (reports_temp_dir </> (PurePath.stem staged +:+ ".pdf"))
          = Some (Pdf (Bytes "A"))) as Hbefore by (vm_compute; reflexivity).
  assert (PyDict.get 2 (file_element_dict self) = Some (2, "report", ".docx")) as Hget
    by (vm_compute; reflexivity).
  assert (outcome (OS.shutil_copy (PurePath.of_str "/b/report.docx") staged s) = Return tt)
    as Hcopy by (vm_compute; reflexivity).
  assert (outcome (subprocess_run_soffice always_converts (PurePath.str reports_temp_dir)
                     (PurePath.str staged)
                     (final (OS.shutil_copy (PurePath.of_str "/b/report.docx") staged s)))
          = Return tt) as Hconv by (vm_compute; reflexivity).
  assert (files (final (subprocess_run_soffice always_converts (PurePath.str reports_temp_dir)
                          (PurePath.str staged)
                          (final (OS.shutil_copy (PurePath.of_str "/b/report.docx") staged s))))
            !! (reports_temp_dir </> (PurePath.stem staged +:+ ".pdf"))
          = Some (Pdf (Bytes "B"))) as Hgen by (vm_compute; reflexivity).
  split; [exact Hbefore|]. split; [exact Hget|]. split; [exact Hcopy|].
  split; [exact Hconv|]. split; [exact Hgen|].
  exact (export_entry_vacates_generated_path always_converts self reports_temp_dir 2
           "/b/report.docx" (2, "report", ".docx") s (Pdf (Bytes "B")) Hget Hcopy Hconv Hgen).
Defined.

(** ** The final names *)

(** X23.  The [while] loop of [export] always ends, without touching the
    file system, and what it returns is the first free path among
    [stem.pdf], [stem_1.pdf], [stem_2.pdf], ... of the working
    directory. *)
Theorem final_name_is_first_free (s : FS) (temp_outdir : PurePath.t)
    (final_name_base : string) :
  exists pdf_new_path,
    while_exists (enough_fuel s) temp_outdir final_name_base
      (temp_outdir </> (final_name_base +:+ ".pdf")) 1 s
    = Run (Return pdf_new_path) s [] /\
    first_free s temp_outdir final_name_base pdf_new_path.
Proof. apply while_exists_first_free. Qed.

Lemma parent_joinpath_no_sep (temp : PurePath.t) (key : string) :
  PurePath.contains_sep key = false -> PurePath.kept key = true ->
  PurePath.parent (temp </> key) = temp.
Proof.
  intros Hsep Hkept. unfold PurePath.joinpath. rewrite (no_sep_is_absolute _ Hsep).
  rewrite (split_no_sep _ Hsep). simpl. rewrite Hkept.
  unfold PurePath.parent. cbn [PurePath.root PurePath.parts].
  rewrite removelast_last. by destruct temp.
Qed.

(** A final path for a stem without separator lies in the working
    directory itself. *)
Lemma first_free_parent (s : FS) (temp : PurePath.t) (base : string) (p : PurePath.t) :
  PurePath.contains_sep base = false ->
  first_free s temp base p -> PurePath.parent p = temp.
Proof.
  intros Hsep [_ [->|(_ & k & _ & -> & _)]].
  - apply parent_joinpath_no_sep; [|apply kept_pdf].
    by rewrite contains_sep_append, Hsep.
  - unfold candidate. apply parent_joinpath_no_sep; [|apply kept_tagged].
    by rewrite !contains_sep_append, Hsep, contains_sep_pretty_Z.
Qed.

(** X24.  One entry of the export, in a working directory that exists
    and for a stem without separator.  If the staging copy and the
    conversion succeed and the converter's output [c] is in the working
    directory, then, when [export_entry] is over, [c] is at the first
    free path among [stem.pdf], [stem_1.pdf], [stem_2.pdf], ... *)
Theorem export_entry_final_name (soffice : FS -> PurePath.t -> soffice_exit) (self : Model)
    (temp_outdir : PurePath.t) (file_id : Z) (original_path : string)
    (file_elements : FileElement) (s : FS) (c : content) :
  PyDict.get file_id (file_element_dict self) = Some file_elements ->
  PurePath.contains_sep (elem_stem file_elements) = false ->
  OS.is_dir s temp_outdir = true ->
  let staged :=
    temp_outdir </> (pretty file_id +:+ "_" +:+ PurePath.name (PurePath.of_str original_path)) in
  let generated := temp_outdir </> (PurePath.stem staged +:+ ".pdf") in
  let copied := OS.shutil_copy (PurePath.of_str original_path) staged s in
  let converted :=
    subprocess_run_soffice soffice (PurePath.str temp_outdir) (PurePath.str staged)
      (final copied) in
  outcome copied = Return tt ->
  outcome converted = Return tt ->
  files (final converted) !! generated = Some c ->
  exists pdf_new_path,
    first_free (final converted) temp_outdir (elem_stem file_elements) pdf_new_path /\
    files (final (export_entry soffice self temp_outdir (file_id, original_path) s))
      !! pdf_new_path = Some c.
Proof.
  intros Hget Hsep Hdir staged generated copied converted Hcopy Hconv Hgen.
  destruct (export_entry_places_pdf soffice self temp_outdir file_id original_path
              file_elements s c Hget Hcopy Hconv Hgen) as (q & Hfree & Hplaced).
  exists q. split; [exact Hfree|]. apply Hplaced.
  rewrite (first_free_parent _ _ _ _ Hsep Hfree).
  assert (dirs (final converted) = dirs s) as Hd.
  { transitivity (dirs (final copied)).
    - apply (same_dirs_soffice soffice (PurePath.str temp_outdir) (PurePath.str staged)
               (final copied)).
    - apply (same_dirs_shutil_copy (PurePath.of_str original_path) staged s). }
  change (OS.is_dir (final converted) temp_outdir = true).
  unfold OS.is_dir in *. by rewrite Hd.
Qed.

Lemma export_entry_final_name_witness :
  let s := final (OS.Path_mkdir_parents reports_temp_dir (fs reports_world)) in
  let staged := reports_temp_dir </> "1_report.docx" in
  let generated := reports_temp_dir </> "1_report.pdf" in
  let converted :=
    subprocess_run_soffice always_converts (PurePath.str reports_temp_dir) (PurePath.str staged)
      (final (OS.shutil_copy (PurePath.of_str "/a/report.docx") staged s)) in
  PurePath.contains_sep "report" = false /\
  OS.is_dir s reports_temp_dir = true /\
  files (final converted) !! generated = Some (Pdf (Bytes "A")) /\
  exists pdf_new_path,
    first_free (final converted) reports_temp_dir "report" pdf_new_path /\
    files (final (export_entry always_converts (model reports_world) reports_temp_dir
                    (1, "/a/report.docx") s))
      !! pdf_new_path = Some (Pdf (Bytes "A")).
Proof.
  cbv zeta.
  set (s := final (OS.Path_mkdir_parents reports_temp_dir (fs reports_world))).
  assert (PyDict.get 1 (file_element_dict (model reports_world)) = Some (1, "report", ".docx"))
    as Hget by (vm_compute; reflexivity).
  assert (OS.is_dir s reports_temp_dir = true) as Hdir by (vm_compute; reflexivity).
  assert (outcome (OS.shutil_copy (PurePath.of_str "/a/report.docx")
                     (reports_temp_dir </> "1_report.docx") s) = Return tt)
    as Hcopy by (vm_compute; reflexivity).
  assert (outcome (subprocess_run_soffice always_converts (PurePath.str reports_temp_dir)
                     (PurePath.str (reports_temp_dir </> "1_report.docx"))
                     (final (OS.shutil_copy (PurePath.of_str "/a/report.docx")
                               (reports_temp_dir </> "1_report.docx") s))) = Return tt)
    as Hconv by (vm_compute; reflexivity).
  assert (files (final (subprocess_run_soffice always_converts (PurePath.str reports_temp_dir)
                          (PurePath.str (reports_temp_dir </> "1_report.docx"))
                          (final (OS.shutil_copy (PurePath.of_str "/a/report.docx")
                                    (reports_temp_dir </> "1_report.docx") s))))
            !! (reports_temp_dir </> "1_report.pdf") = Some (Pdf (Bytes "A")))
    as Hgen by (vm_compute; reflexivity).
  split; [reflexivity|]. split; [exact Hdir|]. split; [exact Hgen|].
  exact (export_entry_final_name always_converts (model reports_world)
           reports_temp_dir 1 "/a/report.docx" (1, "report", ".docx") s (Pdf (Bytes "A"))
           Hget eq_refl Hdir Hcopy Hconv Hgen).
Defined.


(** C4.  The final name of a converted file is not always kept to the
    end of the export.  In the catalog of [clash_ops] entry 1 shows the
    stem [2_report] and entry 2 the stem [report]; the converter succeeds
    on both.  After entry 1 the working directory holds [2_report.pdf],
    the conversion of the first file.  The staged copy of entry 2 is
    [2_report.docx], so the converter writes its output for entry 2 on
    [2_report.pdf], and this output is then renamed [report.pdf]: when
    [export] returns the working directory holds one file for the two
    entries, and so does the archive. *)
Theorem export_overwrites_converted_file :
  let self := model clash_world in
  let s0 := final (OS.Path_mkdir_parents reports_temp_dir (fs clash_world)) in
  let s1 := final (export_entry always_converts self reports_temp_dir (1, "/a/report.docx") s0) in
  let exported := export always_converts self reports_temp_dir (fs clash_world) in
  let r := _run_export_in_thread always_converts (PurePath.of_str "/work") uuid_a0 uuid_b0
             "/out" clash_world in
  PyDict.items (file_path_dict self) = [(1, "/a/report.docx"); (2, "/b/report.docx")] /\
  PyDict.values (file_element_dict self) = [(1, "2_report", ".docx"); (2, "report", ".docx")] /\
  OS.archive_members reports_temp_dir s1 = {[ ["2_report.pdf"] := Pdf (Bytes "A") ]} /\
  outcome exported = Return tt /\
  OS.archive_members reports_temp_dir (final exported)
  = {[ ["report.pdf"] := Pdf (Bytes "B") ]} /\
  outcome r = Return tt /\
  files (fs (final r)) !! PurePath.of_str "/out/Export_PDFs_out_fedc.zip"
  = Some (Zip {[ ["report.pdf"] := Pdf (Bytes "B") ]} ∅).
Proof. cbv zeta. split_and!; vm_compute; reflexivity. Qed.
